(** * ULoRa: register-level model of the SX127x driver (ulora/core.py)

    The driver talks to the radio through one primitive, [transfer], which
    clocks an address byte and a data byte over SPI and returns the byte the
    chip answered.  Everything else is sequencing of such transfers plus bit
    arithmetic on Python integers.  The model keeps both: the chip is an
    abstract device behind [transfer], Python integers are [Z], a number
    that may be an [int] or a [float] is the rational it denotes, floats
    are IEEE binary64, and every method of the class is a computation in a
    small monad that threads the driver object, records the bus traffic and
    propagates exceptions. *)

From Stdlib Require Import ZArith List Bool Lia QArith SpecFloat.
From Stdlib Require Strings.Byte Strings.String Strings.Ascii.
Import ListNotations.
Local Open Scope Z_scope.

(** ** Register map and constants (core.py, lines 20-91) *)

Definition REG_FIFO : Z := 0x00.
Definition REG_OP_MODE : Z := 0x01.
Definition REG_FRF_MSB : Z := 0x06.
Definition REG_FRF_MID : Z := 0x07.
Definition REG_FRF_LSB : Z := 0x08.
Definition REG_PA_CONFIG : Z := 0x09.
Definition REG_LNA : Z := 0x0C.
Definition REG_FIFO_ADDR_PTR : Z := 0x0D.
Definition REG_FIFO_TX_BASE_ADDR : Z := 0x0E.
Definition REG_FIFO_RX_BASE_ADDR : Z := 0x0F.
Definition REG_FIFO_RX_CURRENT_ADDR : Z := 0x10.
Definition REG_IRQ_FLAGS_MASK : Z := 0x11.
Definition REG_IRQ_FLAGS : Z := 0x12.
Definition REG_RX_NB_BYTES : Z := 0x13.
Definition REG_PKT_SNR_VALUE : Z := 0x19.
Definition REG_PKT_RSSI_VALUE : Z := 0x1A.
Definition REG_MODEM_CONFIG_1 : Z := 0x1D.
Definition REG_MODEM_CONFIG_2 : Z := 0x1E.
Definition REG_PREAMBLE_MSB : Z := 0x20.
Definition REG_PREAMBLE_LSB : Z := 0x21.
Definition REG_PAYLOAD_LENGTH : Z := 0x22.
Definition REG_FIFO_RX_BYTE_ADDR : Z := 0x25.
Definition REG_MODEM_CONFIG_3 : Z := 0x26.
Definition REG_RSSI_WIDEBAND : Z := 0x2C.
Definition REG_DETECTION_OPTIMIZE : Z := 0x31.
Definition REG_DETECTION_THRESHOLD : Z := 0x37.
Definition REG_SYNC_WORD : Z := 0x39.
Definition REG_DIO_MAPPING_1 : Z := 0x40.
Definition REG_VERSION : Z := 0x42.
Definition REG_INVERTIQ : Z := 0x33.
Definition REG_INVERTIQ2 : Z := 0x3B.

Definition MODE_LONG_RANGE_MODE : Z := 0x80.
Definition MODE_SLEEP : Z := 0x00.
Definition MODE_STDBY : Z := 0x01.
Definition MODE_TX : Z := 0x03.
Definition MODE_RX_CONTINUOUS : Z := 0x05.
Definition MODE_RX_SINGLE : Z := 0x06.

Definition PA_OUTPUT_RFO_PIN : Z := 0.
Definition PA_OUTPUT_PA_BOOST_PIN : Z := 0x01.
Definition PA_BOOST : Z := 0x80.

Definition IRQ_TX_DONE_MASK : Z := 0x08.
Definition IRQ_PAYLOAD_CRC_ERROR_MASK : Z := 0x20.
Definition IRQ_RX_DONE_MASK : Z := 0x40.
Definition IRQ_RX_TIME_OUT_MASK : Z := 0x80.

Definition RFLR_INVERTIQ_RX_MASK : Z := 0xBF.
Definition RFLR_INVERTIQ_RX_OFF : Z := 0x00.
Definition RFLR_INVERTIQ_RX_ON : Z := 0x40.
Definition RFLR_INVERTIQ_TX_MASK : Z := 0xFE.
Definition RFLR_INVERTIQ_TX_OFF : Z := 0x01.
Definition RFLR_INVERTIQ_TX_ON : Z := 0x00.
Definition RFLR_INVERTIQ2_ON : Z := 0x19.
Definition RFLR_INVERTIQ2_OFF : Z := 0x1D.

Definition MAX_PKT_LENGTH : Z := 255.
Definition FifoTxBaseAddr : Z := 0x00.
Definition FifoRxBaseAddr : Z := 0x00.

(** ** The parameter dictionary (core.py, lines 96-108)

    The dictionary has a fixed set of keys, so it is a record.  The entries
    the driver shifts and masks are Python integers.  [signal_bandwidth] is
    a number, an [int] or a finite [float] (the default is the float
    [125e3]): the record keeps its value, a rational. *)

Record Parameters := {
  frequency : Z;
  frequency_offset : Z;
  tx_power_level : Z;
  signal_bandwidth : Q;
  spreading_factor : Z;
  coding_rate : Z;
  preamble_length : Z;
  implicitHeader : bool;
  sync_word : Z;
  enable_CRC : bool;
  invert_IQ : bool
}.

Definition DEFAULT_PARAMETERS : Parameters := {|
  frequency := 433000000;
  frequency_offset := 0;
  tx_power_level := 10;
  signal_bandwidth := 125000%Q;
  spreading_factor := 9;
  coding_rate := 5;
  preamble_length := 8;
  implicitHeader := false;
  sync_word := 0x12;
  enable_CRC := true;
  invert_IQ := false
|}.

Definition with_frequency (p : Parameters) (f : Z) : Parameters :=
  {| frequency := f; frequency_offset := frequency_offset p;
     tx_power_level := tx_power_level p; signal_bandwidth := signal_bandwidth p;
     spreading_factor := spreading_factor p; coding_rate := coding_rate p;
     preamble_length := preamble_length p; implicitHeader := implicitHeader p;
     sync_word := sync_word p; enable_CRC := enable_CRC p;
     invert_IQ := invert_IQ p |}.

Definition with_tx_power_level (p : Parameters) (l : Z) : Parameters :=
  {| frequency := frequency p; frequency_offset := frequency_offset p;
     tx_power_level := l; signal_bandwidth := signal_bandwidth p;
     spreading_factor := spreading_factor p; coding_rate := coding_rate p;
     preamble_length := preamble_length p; implicitHeader := implicitHeader p;
     sync_word := sync_word p; enable_CRC := enable_CRC p;
     invert_IQ := invert_IQ p |}.

Definition with_invert_IQ (p : Parameters) (b : bool) : Parameters :=
  {| frequency := frequency p; frequency_offset := frequency_offset p;
     tx_power_level := tx_power_level p; signal_bandwidth := signal_bandwidth p;
     spreading_factor := spreading_factor p; coding_rate := coding_rate p;
     preamble_length := preamble_length p; implicitHeader := implicitHeader p;
     sync_word := sync_word p; enable_CRC := enable_CRC p;
     invert_IQ := b |}.

(** ** The hardware behind the bus

    The chip is whatever answers the SPI transactions.  [spi_transfer] is one
    complete transaction of [ULoRa.transfer]: chip-select low, the address
    byte, the data byte clocked out while the answer is clocked in,
    chip-select high.  The answer fills a [bytearray(1)], hence the range
    law.  [spi_abort] is a transaction the driver leaves unfinished because
    building [bytes([...])] raised: chip-select went low and only the listed
    bytes were clocked.  [reset_pulse] is the reset pin driven low then
    high. *)

Record Device := {
  dev_state : Type;
  spi_transfer : dev_state -> Z -> Z -> Z * dev_state;
  spi_abort : dev_state -> list Z -> dev_state;
  reset_pulse : dev_state -> dev_state;
  spi_answer_is_byte :
    forall s a v, 0 <= fst (spi_transfer s a v) < 256
}.

(** What an observer of the board sees, in order. *)
Inductive event :=
| Transfer (address value response : Z)
| Aborted (clocked : list Z)
| ResetPin (level : Z)
| SleepMs (ms : Z).

(** The exceptions the modelled code can raise.  [MachineReset] stands for
    [machine.reset()], which restarts the host and never returns. *)
Inductive error :=
  ValueError | ZeroDivisionError | OverflowError | MachineReset.

Inductive result (A : Type) :=
| Ok (a : A)
| Raise (e : error).
Arguments Ok {A} a.
Arguments Raise {A} e.

Definition is_byte (z : Z) : bool := (0 <=? z) && (z <? 256).

(** ** Numbers

    Python compares an [int] and a [float] by value, and [int(x)] truncates
    toward zero; on the rational a number denotes: *)

Definition number_lt (x y : Q) : bool := negb (Qle_bool y x).

Definition number_le (x y : Q) : bool := Qle_bool x y.

Definition int_of (x : Q) : Z := Z.quot (Qnum x) (Zpos (Qden x)).

(** ** Floating point

    A [float] is an IEEE 754 binary64 number, as in CPython: 53 bits of
    precision, round to nearest, ties to even.  The operations are those of
    the Standard Library's [SpecFloat]. *)

Definition float : Type := spec_float.
Definition prec : Z := 53.
Definition emax : Z := 1024.

(** [float(n)] of an [int], as the division of a [float] by an [int] takes
    it: the nearest float, [OverflowError] when that is beyond the largest
    one. *)
Definition float_of_int (n : Z) : result float :=
  match binary_normalize prec emax n 0 false with
  | S754_infinity _ => Raise OverflowError
  | f => Ok f
  end.

(** The float nearest to [n / d] for [d <> 0]: what [/] returns on two
    [int]s, and on an [int] and a [float] whose quotient is [n / d]
    (infinite when that is beyond the largest float). *)
Definition nearest_quotient (n d : Z) : float :=
  match n, d with
  | Z0, _ => S754_zero (d <? 0)
  | _, Z0 => S754_nan
  | _, _ =>
      SFdiv prec emax (S754_finite (n <? 0) (Z.to_pos (Z.abs n)) 0)
                      (S754_finite (d <? 0) (Z.to_pos (Z.abs d)) 0)
  end.

(** [2 ** sf] as the divisor of a float: for [sf >= 0] the [int] [2 ^ sf],
    converted; for [sf < 0] the float power, which is [0.0] below the
    smallest subnormal. *)
Definition power_of_two (sf : Z) : result float :=
  if 0 <=? sf then float_of_int (2 ^ sf)
  else Ok (binary_normalize prec emax 1 sf false).

Definition is_zero (f : float) : bool :=
  match f with
  | S754_zero _ => true
  | _ => false
  end.

Definition sixteen : float := binary_normalize prec emax 16 0 false.

(** [1000 / bw / (2 ** sf) > 16], evaluated left to right: the first
    division raises for a zero bandwidth, the conversion of [2 ** sf] for
    an [int] beyond the floats, the second division for a zero power. *)
Definition symbol_duration_exceeds (bw : Q) (sf : Z) : result bool :=
  if Qeq_bool bw 0 then Raise ZeroDivisionError
  else
    let duration := nearest_quotient (1000 * Zpos (Qden bw)) (Qnum bw) in
    match power_of_two sf with
    | Raise e => Raise e
    | Ok power =>
        if is_zero power then Raise ZeroDivisionError
        else Ok (SFltb sixteen (SFdiv prec emax duration power))
    end.


Definition is_write_to (reg : Z) (e : event) : bool :=
  match e with
  | Transfer a _ _ => a =? Z.lor reg 0x80
  | _ => false
  end.

Definition is_read_of (reg : Z) (e : event) : bool :=
  match e with
  | Transfer a _ _ => a =? reg
  | _ => false
  end.

Definition response_of (e : event) : list Z :=
  match e with
  | Transfer _ _ r => [r]
  | _ => []
  end.

(** The bytes answered to reads of register [reg], oldest first. *)
Definition reads_of (reg : Z) (l : list event) : list Z :=
  flat_map response_of (filter (is_read_of reg) l).

(** The bytes written to register [reg], oldest first. *)
Definition writes_to (reg : Z) (l : list event) : list Z :=
  flat_map (fun e => match e with Transfer _ v _ => [v] | _ => [] end)
           (filter (is_write_to reg) l).

Section Driver.

Context {dev : Device}.

(** ** The driver object

    [implicit_header_mode] is the tri-state cache of the source: [None]
    until the first call of [set_implicit_header]. *)

Record ULoRa := {
  chip : dev_state dev;
  parameters : Parameters;
  has_reset : bool;
  implicit_header_mode : option bool
}.

Definition with_chip (self : ULoRa) (c : dev_state dev) : ULoRa :=
  {| chip := c; parameters := parameters self; has_reset := has_reset self;
     implicit_header_mode := implicit_header_mode self |}.

Definition with_parameters (self : ULoRa) (p : Parameters) : ULoRa :=
  {| chip := chip self; parameters := p; has_reset := has_reset self;
     implicit_header_mode := implicit_header_mode self |}.

Definition with_implicit_header_mode (self : ULoRa) (m : option bool) : ULoRa :=
  {| chip := chip self; parameters := parameters self;
     has_reset := has_reset self; implicit_header_mode := m |}.

(** ** The monad of methods

    A method takes the object and yields its result or the exception it
    raised, the object as it is afterwards (mutations made before an
    exception stay), and the events it caused. *)

Record outcome (A : Type) := {
  res : result A;
  post : ULoRa;
  log : list event
}.
Arguments res {A} o.
Arguments post {A} o.
Arguments log {A} o.

Definition M (A : Type) : Type := ULoRa -> outcome A.

Definition ret {A} (a : A) : M A :=
  fun self => {| res := Ok a; post := self; log := [] |}.

(** The events of what ran before, put in front of an outcome. *)
Definition prepend {A} (l : list event) (o : outcome A) : outcome A :=
  {| res := res o; post := post o; log := l ++ log o |}.

Definition bind {A B} (m : M A) (k : A -> M B) : M B :=
  fun self =>
    match m self with
    | {| res := Ok a; post := self'; log := l |} => prepend l (k a self')
    | {| res := Raise e; post := self'; log := l |} =>
        {| res := Raise e; post := self'; log := l |}
    end.

Definition raise {A} (e : error) : M A :=
  fun self => {| res := Raise e; post := self; log := [] |}.

Definition getattr {A} (f : ULoRa -> A) : M A :=
  fun self => {| res := Ok (f self); post := self; log := [] |}.

Definition setattr (f : ULoRa -> ULoRa) : M unit :=
  fun self => {| res := Ok tt; post := f self; log := [] |}.

Definition emit (e : event) : M unit :=
  fun self => {| res := Ok tt; post := self; log := [e] |}.

Notation "x <- m ;; k" := (bind m (fun x => k))
  (at level 61, m at next level, right associativity).
Notation "m ;; k" := (bind m (fun _ => k))
  (at level 61, right associativity).

(** [for x in l: body(x)] *)
Fixpoint for_each {A} (l : list A) (body : A -> M unit) : M unit :=
  match l with
  | [] => ret tt
  | x :: l' => body x ;; for_each l' body
  end.

(** ** Low-level SPI methods (core.py, lines 516-550)

    [bytes([address])] and [bytes([value])] raise [ValueError] outside
    [range(256)]; chip-select is already low by then and is not raised
    again. *)

Definition transfer (address value : Z) : M Z :=
  fun self =>
    if negb (is_byte address) then
      {| res := Raise ValueError;
         post := with_chip self (spi_abort dev (chip self) []);
         log := [Aborted []] |}
    else if negb (is_byte value) then
      {| res := Raise ValueError;
         post := with_chip self (spi_abort dev (chip self) [address]);
         log := [Aborted [address]] |}
    else
      let rc := spi_transfer dev (chip self) address value in
      {| res := Ok (fst rc);
         post := with_chip self (snd rc);
         log := [Transfer address value (fst rc)] |}.

Definition read_register (address : Z) : M Z :=
  transfer (Z.land address 0x7F) 0x00.

Definition write_register (address value : Z) : M unit :=
  transfer (Z.lor address 0x80) value ;; ret tt.

(** ** Mode methods (lines 362-372) *)

Definition standby : M unit :=
  write_register REG_OP_MODE (Z.lor MODE_LONG_RANGE_MODE MODE_STDBY).

Definition sleep : M unit :=
  write_register REG_OP_MODE (Z.lor MODE_LONG_RANGE_MODE MODE_SLEEP).

(** ** Configuration methods (lines 377-511) *)

Definition set_tx_power (level output_pin : Z) : M unit :=
  setattr (fun self =>
    with_parameters self (with_tx_power_level (parameters self) level)) ;;
  if output_pin =? PA_OUTPUT_RFO_PIN then
    let level := Z.min (Z.max level 0) 14 in
    write_register REG_PA_CONFIG (Z.lor 0x70 level)
  else
    let level := Z.min (Z.max level 2) 17 in
    write_register REG_PA_CONFIG (Z.lor PA_BOOST (level - 2)).

(** The value [set_frequency] splits over the three Frf registers. *)
Definition frf_of (frequency : Z) : Z :=
  Z.shiftl frequency 19 / 32000000.

Definition set_frequency (frequency : Z) : M unit :=
  setattr (fun self =>
    with_parameters self (with_frequency (parameters self) frequency)) ;;
  offset <- getattr (fun self => frequency_offset (parameters self)) ;;
  let frequency := frequency + offset in
  let frf := frf_of frequency in
  write_register REG_FRF_MSB (Z.land (Z.shiftr frf 16) 0xFF) ;;
  write_register REG_FRF_MID (Z.land (Z.shiftr frf 8) 0xFF) ;;
  write_register REG_FRF_LSB (Z.land frf 0xFF).

Definition set_spreading_factor (sf : Z) : M unit :=
  let sf := Z.min (Z.max sf 6) 12 in
  (if sf =? 6 then
     write_register REG_DETECTION_OPTIMIZE 0xC5 ;;
     write_register REG_DETECTION_THRESHOLD 0x0C
   else
     write_register REG_DETECTION_OPTIMIZE 0xC3 ;;
     write_register REG_DETECTION_THRESHOLD 0x0A) ;;
  r <- read_register REG_MODEM_CONFIG_2 ;;
  let current := Z.land r 0x0F in
  write_register REG_MODEM_CONFIG_2
    (Z.lor current (Z.land (Z.shiftl sf 4) 0xF0)).

Definition bins : list Z :=
  [7800; 10400; 15600; 20800; 31250; 41700; 62500; 125000; 250000].

(** [for i, bw in enumerate(bins): if sbw <= bw: bw_index = i; break],
    started at position [i] with [bw_index] holding its default. *)
Fixpoint first_bin (sbw : Q) (i : Z) (l : list Z) (bw_index : Z) : Z :=
  match l with
  | [] => bw_index
  | bw :: l' =>
      if number_le sbw (inject_Z bw) then i
      else first_bin sbw (i + 1) l' bw_index
  end.

(** [bw_index = 7; if sbw < 10: bw_index = int(sbw) else: (the loop)] *)
Definition bandwidth_index (sbw : Q) : Z :=
  let bw_index := 7 in
  if number_lt sbw 10 then int_of sbw else first_bin sbw 0 bins bw_index.

Definition set_signal_bandwidth (sbw : Q) : M unit :=
  let bw_index := bandwidth_index sbw in
  r <- read_register REG_MODEM_CONFIG_1 ;;
  let current := Z.land r 0x0F in
  write_register REG_MODEM_CONFIG_1 (Z.lor current (Z.shiftl bw_index 4)).

Definition set_coding_rate (denominator : Z) : M unit :=
  let denominator := Z.min (Z.max denominator 5) 8 in
  let cr := denominator - 4 in
  r <- read_register REG_MODEM_CONFIG_1 ;;
  let current := Z.land r 0xF1 in
  write_register REG_MODEM_CONFIG_1 (Z.lor current (Z.shiftl cr 1)).

Definition set_preamble_length (length : Z) : M unit :=
  write_register REG_PREAMBLE_MSB (Z.land (Z.shiftr length 8) 0xFF) ;;
  write_register REG_PREAMBLE_LSB (Z.land length 0xFF).

Definition enable_crc (enable : bool) : M unit :=
  modem_config_2 <- read_register REG_MODEM_CONFIG_2 ;;
  let config :=
    if enable then Z.lor modem_config_2 0x04
    else Z.land modem_config_2 0xFB in
  write_register REG_MODEM_CONFIG_2 config.

Definition invert_iq (invert : bool) : M unit :=
  setattr (fun self =>
    with_parameters self (with_invert_IQ (parameters self) invert)) ;;
  current <- read_register REG_INVERTIQ ;;
  if invert then
    let new_val :=
      Z.lor (Z.lor (Z.land (Z.land current RFLR_INVERTIQ_TX_MASK)
                           RFLR_INVERTIQ_RX_MASK)
                   RFLR_INVERTIQ_RX_ON)
            RFLR_INVERTIQ_TX_ON in
    write_register REG_INVERTIQ new_val ;;
    write_register REG_INVERTIQ2 RFLR_INVERTIQ2_ON
  else
    let new_val :=
      Z.lor (Z.lor (Z.land (Z.land current RFLR_INVERTIQ_TX_MASK)
                           RFLR_INVERTIQ_RX_MASK)
                   RFLR_INVERTIQ_RX_OFF)
            RFLR_INVERTIQ_TX_OFF in
    write_register REG_INVERTIQ new_val ;;
    write_register REG_INVERTIQ2 RFLR_INVERTIQ2_OFF.

Definition set_sync_word (sw : Z) : M unit :=
  write_register REG_SYNC_WORD sw.

(** [self.implicit_header_mode != implicit], the cache being [None],
    [True] or [False]. *)
Definition cache_differs (cache : option bool) (implicit : bool) : bool :=
  match cache with
  | Some b => negb (Bool.eqb b implicit)
  | None => true
  end.

Definition set_implicit_header (implicit : bool) : M unit :=
  cache <- getattr implicit_header_mode ;;
  if cache_differs cache implicit then
    setattr (fun self => with_implicit_header_mode self (Some implicit)) ;;
    modem_config_1 <- read_register REG_MODEM_CONFIG_1 ;;
    let config :=
      if implicit then Z.lor modem_config_1 0x01
      else Z.land modem_config_1 0xFE in
    write_register REG_MODEM_CONFIG_1 config
  else ret tt.

(** ** Packet transmission (lines 205-233) *)

Definition begin_packet (implicit_header : option bool) : M unit :=
  standby ;;
  match implicit_header with
  | Some b => set_implicit_header b
  | None => ret tt
  end ;;
  write_register REG_FIFO_ADDR_PTR FifoTxBaseAddr ;;
  write_register REG_PAYLOAD_LENGTH 0.

(** An element of a [bytes] or [bytearray] object, as the integer that
    iterating over the buffer yields. *)
Definition int_of_byte (b : Byte.byte) : Z := Z.of_N (Byte.to_N b).

Definition write (buffer : list Byte.byte) : M Z :=
  current_length <- read_register REG_PAYLOAD_LENGTH ;;
  let size := Z.of_nat (length buffer) in
  let size :=
    Z.min size (MAX_PKT_LENGTH - FifoTxBaseAddr - current_length) in
  for_each buffer (fun byte => write_register REG_FIFO (int_of_byte byte)) ;;
  write_register REG_PAYLOAD_LENGTH (current_length + size) ;;
  ret size.

(** ** Packet reception (lines 266-339) *)

Definition receive (size : Z) : M unit :=
  set_implicit_header (0 <? size) ;;
  (if 0 <? size then write_register REG_PAYLOAD_LENGTH (Z.land size 0xFF)
   else ret tt) ;;
  write_register REG_OP_MODE (Z.lor MODE_LONG_RANGE_MODE MODE_RX_CONTINUOUS).

Definition get_irq_flags : M Z :=
  irq_flags <- read_register REG_IRQ_FLAGS ;;
  write_register REG_IRQ_FLAGS irq_flags ;;
  ret irq_flags.

Definition received_packet (size : Z) : M bool :=
  irq_flags <- get_irq_flags ;;
  set_implicit_header (0 <? size) ;;
  (if 0 <? size then write_register REG_PAYLOAD_LENGTH (Z.land size 0xFF)
   else ret tt) ;;
  if irq_flags =? IRQ_RX_DONE_MASK then ret true
  else
    (mode <- read_register REG_OP_MODE ;;
     if negb (mode =? Z.lor MODE_LONG_RANGE_MODE MODE_RX_SINGLE) then
       write_register REG_FIFO_ADDR_PTR FifoRxBaseAddr ;;
       write_register REG_OP_MODE (Z.lor MODE_LONG_RANGE_MODE MODE_RX_SINGLE)
     else ret tt) ;;
    ret false.

(** ** Construction (lines 117-200) *)

Definition reset_module : M unit :=
  pin_reset <- getattr has_reset ;;
  if negb pin_reset then ret tt
  else
    emit (ResetPin 0) ;;
    setattr (fun self => with_chip self (reset_pulse dev (chip self))) ;;
    emit (SleepMs 100) ;;
    emit (ResetPin 1) ;;
    emit (SleepMs 100).

(** [for _ in range(n): version = read_register(REG_VERSION);
    if version: break], entered with the current value of [version]. *)
Fixpoint poll_version (n : nat) (version : option Z) : M (option Z) :=
  match n with
  | O => ret version
  | S n' =>
      v <- read_register REG_VERSION ;;
      if v =? 0 then poll_version n' (Some v) else ret (Some v)
  end.

(** [if version != 0x12: machine.reset()] *)
Definition check_version (version : option Z) : M unit :=
  match version with
  | Some v => if v =? 0x12 then ret tt else raise MachineReset
  | None => raise MachineReset
  end.

(** A pure computation that returns or raises, as a statement. *)
Definition of_result {A} (r : result A) : M A :=
  fun self => {| res := r; post := self; log := [] |}.

(** Lines 178-182 of [__init__]. *)
Definition low_data_rate_check : M unit :=
  bw <- getattr (fun self => signal_bandwidth (parameters self)) ;;
  sf <- getattr (fun self => spreading_factor (parameters self)) ;;
  exceeds <- of_result (symbol_duration_exceeds bw sf) ;;
  if exceeds : bool then
    r <- read_register REG_MODEM_CONFIG_3 ;;
    write_register REG_MODEM_CONFIG_3 (Z.lor r 0x08)
  else ret tt.

Definition param {A} (f : Parameters -> A) : M A :=
  getattr (fun self => f (parameters self)).

(** Lines 158-188 of [__init__]: what follows the version check. *)
Definition configure : M unit :=
  sleep ;;
  (f <- param frequency ;; set_frequency f) ;;
  (b <- param signal_bandwidth ;; set_signal_bandwidth b) ;;
  (r <- read_register REG_LNA ;; write_register REG_LNA (Z.lor r 0x03)) ;;
  write_register REG_MODEM_CONFIG_3 0x04 ;;
  (l <- param tx_power_level ;; set_tx_power l PA_OUTPUT_PA_BOOST_PIN) ;;
  (h <- param implicitHeader ;; set_implicit_header h) ;;
  (s <- param spreading_factor ;; set_spreading_factor s) ;;
  (c <- param coding_rate ;; set_coding_rate c) ;;
  (p <- param preamble_length ;; set_preamble_length p) ;;
  (w <- param sync_word ;; set_sync_word w) ;;
  (e <- param enable_CRC ;; enable_crc e) ;;
  (i <- param invert_IQ ;; invert_iq i) ;;
  low_data_rate_check ;;
  write_register REG_FIFO_TX_BASE_ADDR FifoTxBaseAddr ;;
  write_register REG_FIFO_RX_BASE_ADDR FifoRxBaseAddr ;;
  standby.

(** The body of [__init__], run on the object as it is once [spi], [pins]
    and the merged parameter dictionary are stored. *)
Definition __init__ : M unit :=
  reset_module ;;
  setattr (fun self => with_implicit_header_mode self None) ;;
  version <- poll_version 5 None ;;
  check_version version ;;
  configure.

(** [ULoRa(spi, pins, parameters)]: [c] is the chip on the bus, [reset_pin]
    says whether [pins] has a ["reset"] entry, [params] is
    [DEFAULT_PARAMETERS] updated with the caller's dictionary. *)
Definition construct (c : dev_state dev) (reset_pin : bool)
    (params : Parameters) : outcome unit :=
  __init__ {| chip := c; parameters := params; has_reset := reset_pin;
          implicit_header_mode := None |}.

End Driver.

Notation "x <- m ;; k" := (bind m (fun x => k))
  (at level 61, m at next level, right associativity).
Notation "m ;; k" := (bind m (fun _ => k))
  (at level 61, right associativity).

Arguments ULoRa : clear implicits.
Arguments outcome : clear implicits.
Arguments M : clear implicits.
Arguments res {dev A} o.
Arguments post {dev A} o.
Arguments log {dev A} o.
Arguments Build_outcome {dev A} res post log.

(** ** Reading a log

    The chip's convention (and [read_register] / [write_register]): the
    address byte has its high bit clear for a read and set for a write. *)

Inductive access :=
| Read (reg answer : Z)
| Write (reg value : Z)
| Failed (clocked : list Z)
| Pin (level : Z)
| Delay (ms : Z).

Definition access_of (e : event) : access :=
  match e with
  | Transfer a v r =>
      if Z.testbit a 7 then Write (Z.land a 0x7F) v else Read a r
  | Aborted l => Failed l
  | ResetPin l => Pin l
  | SleepMs ms => Delay ms
  end.

Definition accesses (l : list event) : list access := map access_of l.

(** The byte the chip answers if register [reg] is read now. *)
Definition answer {dev : Device} (self : ULoRa dev) (reg : Z) : Z :=
  fst (spi_transfer dev (chip self) (Z.land reg 0x7F) 0x00).

(** Python's [min(max(x, lo), hi)]. *)
Definition clamp (x lo hi : Z) : Z := Z.min (Z.max x lo) hi.

(** The 24-bit value held by the three Frf registers, as the spec
    reconstructs it from the bytes read back. *)
Definition frf_readback (msb mid lsb : Z) : Z :=
  Z.lor (Z.shiftl msb 16) (Z.lor (Z.shiftl mid 8) lsb).

(** The value [invert_iq] writes back to the InvertIQ register. *)
Definition iq_config (invert : bool) (r : Z) : Z :=
  Z.lor (Z.lor (Z.land (Z.land r RFLR_INVERTIQ_TX_MASK) RFLR_INVERTIQ_RX_MASK)
               (if invert then RFLR_INVERTIQ_RX_ON else RFLR_INVERTIQ_RX_OFF))
        (if invert then RFLR_INVERTIQ_TX_ON else RFLR_INVERTIQ_TX_OFF).

(** Every write to [reg] comes directly after a read of [reg] and agrees
    with the byte read on the bits of [keep].  [prev] is the byte read from
    [reg] by the access just before, if that is what it was. *)
Fixpoint preserves (reg keep : Z) (prev : option Z) (l : list access)
    : Prop :=
  match l with
  | [] => True
  | Read a r :: l' =>
      preserves reg keep (if a =? reg then Some r else None) l'
  | Write a w :: l' =>
      (a = reg ->
       match prev with
       | Some r => Z.land w keep = Z.land r keep
       | None => False
       end) /\ preserves reg keep None l'
  | _ :: l' => preserves reg keep None l'
  end.

(** The register an access is about. *)
Definition reg_of (a : access) : option Z :=
  match a with
  | Read reg _ | Write reg _ => Some reg
  | _ => None
  end.

(** All accesses of [l] are reads or writes of the registers [regs]. *)
Definition within (regs : list Z) (l : list access) : bool :=
  forallb (fun a => match reg_of a with
                    | Some r => existsb (Z.eqb r) regs
                    | None => false
                    end) l.

(** A method whose events all satisfy [P] and which never restarts the
    host, whatever object it runs on. *)
Definition quiet {dev : Device} {A} (P : event -> bool) (m : M dev A)
    : Prop :=
  forall self,
    forallb P (log (m self)) = true /\ res (m self) <> Raise MachineReset.

(** Events other than a read of the version register. *)
Definition not_version_read (e : event) : bool :=
  negb (is_read_of REG_VERSION e).


(** ** A simulated chip

    A register file behind the bus, with the three behaviours of the SX127x
    that matter to the driver: writes to the FIFO register append to the
    packet memory, writing a one to a bit of the IRQ-flags register clears
    that bit, and the version register is read-only.  Every transaction
    answers the addressed register's value. *)

Module Sim.

Record state := {
  regs : Z -> Z;
  fifo : list Z
}.

Definition poke (s : state) (reg v : Z) : state :=
  {| regs := fun a => if a =? reg then v else regs s a; fifo := fifo s |}.

Definition transfer (s : state) (address value : Z) : Z * state :=
  let reg := Z.land address 0x7F in
  let old := regs s reg mod 256 in
  (old,
   if Z.testbit address 7 then
     if reg =? REG_FIFO then
       {| regs := regs s; fifo := fifo s ++ [value] |}
     else if reg =? REG_IRQ_FLAGS then
       poke s reg (Z.land old (Z.lnot value))
     else if reg =? REG_VERSION then s
     else poke s reg value
   else s).

(** Register values after power-on reset, in LoRa mode. *)
Definition power_on : state :=
  {| regs := fun a =>
       if a =? REG_VERSION then 0x12
       else if a =? REG_OP_MODE then 0x80
       else if a =? REG_PA_CONFIG then 0x4F
       else if a =? REG_LNA then 0x20
       else if a =? REG_MODEM_CONFIG_1 then 0x72
       else if a =? REG_MODEM_CONFIG_2 then 0x70
       else if a =? REG_PREAMBLE_LSB then 0x08
       else if a =? REG_PAYLOAD_LENGTH then 0x01
       else if a =? REG_INVERTIQ then 0x27
       else if a =? REG_INVERTIQ2 then 0x1D
       else if a =? REG_SYNC_WORD then 0x12
       else 0x00;
     fifo := [] |}.

End Sim.

Definition sx127x : Device :=
  {| dev_state := Sim.state;
     spi_transfer := Sim.transfer;
     spi_abort := fun s _ => s;
     reset_pulse := fun _ => Sim.power_on;
     spi_answer_is_byte := fun s a v =>
       Z.mod_pos_bound (Sim.regs s (Z.land a 0x7F)) 256 eq_refl |}.

(** A driver object on the simulated chip, as [__init__] finds it. *)
Definition fresh (c : Sim.state) (params : Parameters) : ULoRa sx127x :=
  @Build_ULoRa sx127x c params true None.

(** The driver object once [ULoRa(spi, pins, params)] has returned. *)
Definition constructed (c : Sim.state) (params : Parameters)
    : ULoRa sx127x :=
  post (construct (dev := sx127x) c true params).


Definition with_frequency_offset (p : Parameters) (off : Z) : Parameters :=
  {| frequency := frequency p; frequency_offset := off;
     tx_power_level := tx_power_level p; signal_bandwidth := signal_bandwidth p;
     spreading_factor := spreading_factor p; coding_rate := coding_rate p;
     preamble_length := preamble_length p; implicitHeader := implicitHeader p;
     sync_word := sync_word p; enable_CRC := enable_CRC p;
     invert_IQ := invert_IQ p |}.

(** The chip after one event. *)
Definition after_event {dev : Device} (c : dev_state dev) (e : event)
    : dev_state dev :=
  match e with
  | Transfer a v _ => snd (spi_transfer dev c a v)
  | Aborted clocked => spi_abort dev c clocked
  | ResetPin level => if level =? 0 then reset_pulse dev c else c
  | SleepMs _ => c
  end.

(** The chip after the events of a log, oldest first. *)
Definition replay {dev : Device} (c : dev_state dev) (l : list event)
    : dev_state dev :=
  fold_left after_event l c.

(** A method that leaves the chip in the state its log leads to. *)
Definition tracked {dev : Device} {A} (m : M dev A) : Prop :=
  forall self, chip (post (m self)) = replay (chip self) (log (m self)).

(** Bus transactions on a register other than the IRQ flags. *)
Definition off_irq_flags (e : event) : bool :=
  match e with
  | Transfer a _ _ => negb (Z.land a 0x7F =? REG_IRQ_FLAGS)
  | Aborted _ => true
  | _ => false
  end.
(** ** The rest of the class

    The methods no bit of configuration depends on: reading a packet out of
    the FIFO, telemetry, the register dump, and the methods that wait for
    the chip. *)

Section Remaining.

Context {dev : Device}.

(** [gc.collect()]: nothing the chip or the object can see. *)
Definition collect_garbage : M dev unit := ret tt.

(** [for _ in range(n): payload.append(self.read_register(REG_FIFO))],
    entered with the bytes read so far. *)
Fixpoint read_fifo (n : nat) (payload : list Z) : M dev (list Z) :=
  match n with
  | O => ret payload
  | S n' =>
      b <- read_register REG_FIFO ;;
      read_fifo n' (payload ++ [b])
  end.

(** [if self.implicit_header_mode:], on [None], [True] or [False]. *)
Definition truthy (cache : option bool) : bool :=
  match cache with
  | Some b => b
  | None => false
  end.

(** Lines 312-329.  The result is the [bytes] object, as the list of its
    elements. *)
Definition read_payload : M dev (list Z) :=
  current <- read_register REG_FIFO_RX_CURRENT_ADDR ;;
  write_register REG_FIFO_ADDR_PTR current ;;
  mode <- getattr implicit_header_mode ;;
  packet_length <-
    (if truthy mode then read_register REG_PAYLOAD_LENGTH
     else read_register REG_RX_NB_BYTES) ;;
  payload <- read_fifo (Z.to_nat packet_length) [] ;;
  collect_garbage ;;
  ret payload.

(** Lines 341-357. *)
Definition packet_rssi (high_frequency : bool) : M dev Z :=
  rssi <- read_register REG_PKT_RSSI_VALUE ;;
  ret (rssi - (if high_frequency then 157 else 164)).

(** [self.read_register(REG_PKT_SNR_VALUE) * 0.25]: a quarter of an integer
    below 256 is exact in floating point, so the product is the rational
    it denotes. *)
Definition packet_snr : M dev Q :=
  r <- read_register REG_PKT_SNR_VALUE ;;
  ret (inject_Z r * (1 # 4))%Q.

(** *** Methods that wait

    [end_packet] and [listen] loop until the chip or the clock lets them
    go.  A waiting method gets [fuel], the number of loop iterations it may
    take; [None] says the fuel ran out before the loop was left. *)

Definition Blocking (A : Type) : Type := ULoRa dev -> option (outcome dev A).

Definition lift {A} (m : M dev A) : Blocking A := fun self => Some (m self).

Definition wait_bind {A B} (m : Blocking A) (k : A -> Blocking B)
    : Blocking B :=
  fun self =>
    match m self with
    | None => None
    | Some {| res := Ok a; post := self'; log := l |} =>
        option_map (prepend l) (k a self')
    | Some {| res := Raise e; post := self'; log := l |} =>
        Some {| res := Raise e; post := self'; log := l |}
    end.

(** [while (self.read_register(REG_IRQ_FLAGS) & IRQ_TX_DONE_MASK) == 0:
    pass] *)
Fixpoint wait_tx_done (fuel : nat) : Blocking unit :=
  match fuel with
  | O => fun _ => None
  | S fuel' =>
      wait_bind (lift (read_register REG_IRQ_FLAGS)) (fun flags =>
        if Z.land flags IRQ_TX_DONE_MASK =? 0 then wait_tx_done fuel'
        else lift (ret tt))
  end.

(** Lines 235-245. *)
Definition end_packet (fuel : nat) : Blocking unit :=
  wait_bind
    (lift (write_register REG_OP_MODE (Z.lor MODE_LONG_RANGE_MODE MODE_TX)))
    (fun _ =>
       wait_bind (wait_tx_done fuel) (fun _ =>
         lift (write_register REG_IRQ_FLAGS IRQ_TX_DONE_MASK))).

(** [for _ in range(n): body()] *)
Fixpoint repeat_times (n : nat) (body : Blocking unit) : Blocking unit :=
  match n with
  | O => lift (ret tt)
  | S n' => wait_bind body (fun _ => repeat_times n' body)
  end.

(** Lines 247-261.  [message] is the byte string, after [encode()] if it
    was text; every [end_packet] gets the same [fuel]. *)
Definition println (fuel : nat) (message : list Byte.byte)
    (implicit_header : option bool) (repeat : Z) : Blocking unit :=
  wait_bind (lift (begin_packet implicit_header)) (fun _ =>
    wait_bind (lift (write message)) (fun _ =>
      wait_bind (repeat_times (Z.to_nat repeat) (end_packet fuel)) (fun _ =>
        lift collect_garbage))).

(** The loop of [listen], lines 286-290.  [clock n] is what the [n]-th call
    of [ticks_ms()] returns; [calls] counts the calls made so far. *)
Fixpoint listen_loop (fuel : nat) (clock : nat -> Z) (calls : nat)
    (start timeout : Z) : Blocking (option (list Z)) :=
  match fuel with
  | O => fun _ => None
  | S fuel' =>
      wait_bind (lift (received_packet 0)) (fun got =>
        if got : bool then
          wait_bind (lift read_payload) (fun payload =>
            lift (ret (Some payload)))
        else if timeout <? clock calls - start then lift (ret None)
        else listen_loop fuel' clock (S calls) start timeout)
  end.

(** Lines 277-290. *)
Definition listen (fuel : nat) (clock : nat -> Z) (timeout : Z)
    : Blocking (option (list Z)) :=
  wait_bind (lift (receive 0)) (fun _ =>
    listen_loop fuel clock 1 (clock O) timeout).

(** *** The register dump (lines 552-561) *)

Import String.

(** One digit of [{:02X}]. *)
Definition hex_digit (d : Z) : string :=
  match d with
  | 0 => "0" | 1 => "1" | 2 => "2" | 3 => "3" | 4 => "4" | 5 => "5"
  | 6 => "6" | 7 => "7" | 8 => "8" | 9 => "9" | 10 => "A" | 11 => "B"
  | 12 => "C" | 13 => "D" | 14 => "E" | _ => "F"
  end%string.

(** [{:02X}] of a byte. *)
Definition hex2 (z : Z) : string :=
  (hex_digit (z / 16) ++ hex_digit (z mod 16))%string.

Definition newline : string := String (Ascii.ascii_of_nat 10) EmptyString.

(** [for i in range(...)] of [dump_registers], from register [i] for [n]
    registers, with the text printed so far. *)
Fixpoint dump_from (i : Z) (n : nat) (out : string) : M dev string :=
  match n with
  | O => ret out
  | S n' =>
      v <- read_register i ;;
      let out := (out ++ "0x" ++ hex2 i ++ ": " ++ hex2 v)%string in
      let out :=
        if (i + 1) mod 4 =? 0 then (out ++ newline)%string
        else (out ++ " | ")%string in
      dump_from (i + 1) n' out
  end.

(** The result is the text printed. *)
Definition dump_registers : M dev string := dump_from 0 128 EmptyString.

End Remaining.

(** ** More ways to read a method *)

(** A method that returns normally on every object. *)
Definition always_ok {dev : Device} (m : M dev unit) : Prop :=
  forall self, res (m self) = Ok tt.

(** A method that leaves [f] of the object as it was. *)
Definition keeps {dev : Device} {A X} (f : ULoRa dev -> X) (m : M dev A)
    : Prop :=
  forall self, f (post (m self)) = f self.

(** A method whose log, when it returns normally, ends with the event
    class [last_is]. *)
Definition ends_with {dev : Device} {A} (last_is : event -> Prop)
    (m : M dev A) : Prop :=
  forall self a,
    res (m self) = Ok a ->
    exists l e, log (m self) = l ++ [e] /\ last_is e.

(** Bus transactions on a register other than [reg]. *)
Definition off_register (reg : Z) (e : event) : bool :=
  match e with
  | Transfer a _ _ => negb (Z.land a 0x7F =? reg)
  | Aborted _ => true
  | _ => false
  end.

(** How [__init__] ends when the version probe passes, as the parameters
    decide it: the bandwidth write fails for a negative index, the sync
    word write for a value that is no byte, and the low-data-rate check
    when its floating-point expression raises. *)
Definition construction_result (p : Parameters) : result unit :=
  if number_le (signal_bandwidth p) (-1) then Raise ValueError
  else if negb (is_byte (sync_word p)) then Raise ValueError
  else
    match symbol_duration_exceeds (signal_bandwidth p) (spreading_factor p)
    with
    | Raise e => Raise e
    | Ok _ => Ok tt
    end.


(** The parameters whose value decides whether [__init__] raises. *)
Definition checked_parameters {dev : Device} (self : ULoRa dev)
    : Q * Z * Z :=
  (signal_bandwidth (parameters self), sync_word (parameters self),
   spreading_factor (parameters self)).

(** An access that writes no register. *)
Definition writes_nothing (a : access) : bool :=
  match a with
  | Write _ _ => false
  | _ => true
  end.
(** The simulated chip after one access: it depends on no more of a bus
    transaction than its reading as an access. *)
Definition sim_after (c : Sim.state) (a : access) : Sim.state :=
  match a with
  | Write reg v =>
      if reg =? REG_FIFO then
        {| Sim.regs := Sim.regs c; Sim.fifo := Sim.fifo c ++ [v] |}
      else if reg =? REG_IRQ_FLAGS then
        Sim.poke c reg (Z.land (Sim.regs c reg mod 256) (Z.lnot v))
      else if reg =? REG_VERSION then c
      else Sim.poke c reg v
  | Pin level => if level =? 0 then Sim.power_on else c
  | _ => c
  end.

(** An access that leaves register [reg] of the simulated chip alone. *)
Definition spares (reg : Z) (a : access) : bool :=
  match a with
  | Write r _ => negb (r =? reg)
  | Pin _ => false
  | _ => true
  end.
(** The values written to register [reg], oldest first, read off the
    accesses. *)
Definition written (reg : Z) (l : list access) : list Z :=
  flat_map (fun a => match a with
                     | Write r v => if r =? reg then [v] else []
                     | _ => []
                     end) l.




(** A chip that answers 0xFF to the first read of its version register,
    as on a bus that has not settled, and 0x12 from the second read on.
    The state counts the reads of the version register. *)
Module Glitch.

Definition transfer (reads : nat) (address value : Z) : Z * nat :=
  if address =? REG_VERSION then
    (match reads with O => 0xFF | S _ => 0x12 end, S reads)
  else (0x00, reads).

End Glitch.

Definition glitching : Device :=
  {| dev_state := nat;
     spi_transfer := Glitch.transfer;
     spi_abort := fun s _ => s;
     reset_pulse := fun s => s;
     spi_answer_is_byte := fun s a v =>
       match a =? REG_VERSION as t, s
         return 0 <= fst (if t then
                            (match s with O => 0xFF | S _ => 0x12 end, S s)
                          else (0x00, s)) < 256
       with
       | true, O => conj (proj1 (Z.leb_le 0 0xFF) eq_refl) eq_refl
       | true, S _ => conj (proj1 (Z.leb_le 0 0x12) eq_refl) eq_refl
       | false, _ => conj (Z.le_refl 0) eq_refl
       end |}.
(** ** Scenarios on the simulated chip *)

(** The driver object after the chip has latched the flags [v]. *)
Definition latched (self : ULoRa sx127x) (v : Z) : ULoRa sx127x :=
  with_chip self (Sim.poke (chip self) REG_IRQ_FLAGS v).

(** A driver constructed with the default parameters on a chip just
    powered on. *)
Definition radio : ULoRa sx127x :=
  constructed Sim.power_on DEFAULT_PARAMETERS.

(** * Properties *)

(** ** Numbers *)

Lemma number_le_iff x y : number_le x y = true <-> (x <= y)%Q.
Proof. apply Qle_bool_iff. Qed.

Lemma number_le_false x y : number_le x y = false <-> (y < x)%Q.
Proof.
  unfold number_le. rewrite <- not_true_iff_false, Qle_bool_iff.
  split; [apply Qnot_le_lt | apply Qlt_not_le].
Qed.

Lemma number_lt_iff x y : number_lt x y = true <-> (x < y)%Q.
Proof. unfold number_lt. rewrite negb_true_iff. apply number_le_false. Qed.

Lemma number_lt_false x y : number_lt x y = false <-> (y <= x)%Q.
Proof. unfold number_lt. rewrite negb_false_iff. apply Qle_bool_iff. Qed.

Lemma int_of_inject_Z n : int_of (inject_Z n) = n.
Proof. unfold int_of. cbn. apply Z.quot_1_r. Qed.

(** [int] truncates toward zero. *)
Lemma int_of_nonneg x :
  (0 <= x)%Q ->
  0 <= int_of x /\ (inject_Z (int_of x) <= x)%Q /\
  (x < inject_Z (int_of x + 1))%Q.
Proof.
  destruct x as [n d]. unfold int_of, Qle, Qlt. cbn. intro H.
  assert (Hn : 0 <= n) by lia.
  rewrite Z.quot_div_nonneg by lia.
  pose proof (Z.div_mod n (Zpos d) ltac:(lia)) as E.
  pose proof (Z.mod_pos_bound n (Zpos d) ltac:(lia)) as B.
  assert (0 <= n / Zpos d) by (apply Z.div_pos; lia).
  nia.
Qed.

Lemma int_of_nonpos x :
  (x <= 0)%Q ->
  int_of x <= 0 /\ (x <= inject_Z (int_of x))%Q /\
  (inject_Z (int_of x - 1) < x)%Q.
Proof.
  destruct x as [n d]. unfold int_of, Qle, Qlt. cbn. intro H.
  assert (Hn : n <= 0) by lia.
  replace n with (- (- n)) by lia.
  rewrite Z.quot_opp_l by lia.
  rewrite Z.quot_div_nonneg by lia.
  pose proof (Z.div_mod (- n) (Zpos d) ltac:(lia)) as E.
  pose proof (Z.mod_pos_bound (- n) (Zpos d) ltac:(lia)) as B.
  assert (0 <= - n / Zpos d) by (apply Z.div_pos; lia).
  nia.
Qed.

Lemma int_of_bounds x (lo hi : Z) :
  (inject_Z lo <= x)%Q -> (x < inject_Z hi)%Q -> 0 <= lo ->
  lo <= int_of x < hi.
Proof.
  intros Hlo Hhi H0.
  assert (Hx : (0 <= x)%Q).
  { eapply Qle_trans; [|exact Hlo]. unfold Qle. cbn. lia. }
  destruct (int_of_nonneg x Hx) as (Hi & Hl & Hu).
  destruct x as [n d]. unfold Qle, Qlt in *. cbn [Qnum Qden inject_Z] in *. nia.
Qed.

Lemma int_of_negative x : (x <= -1)%Q -> int_of x <= -1.
Proof.
  intro H.
  assert (Hx : (x <= 0)%Q).
  { eapply Qle_trans; [exact H|]. unfold Qle. cbn. lia. }
  destruct (int_of_nonpos x Hx) as (Hi & Hl & Hu).
  destruct x as [n d]. unfold Qle, Qlt in *. cbn [Qnum Qden inject_Z] in *. nia.
Qed.

Lemma int_of_above_minus_one x : (-1 < x)%Q -> (x < 10)%Q -> 0 <= int_of x <= 9.
Proof.
  intros Hlo Hhi.
  destruct (Qlt_le_dec x 0) as [Hneg|Hpos].
  - destruct (int_of_nonpos x (Qlt_le_weak _ _ Hneg)) as (Hi & Hl & Hu).
    destruct x as [n d]. unfold Qle, Qlt in *. cbn [Qnum Qden inject_Z] in *. nia.
  - pose proof (int_of_bounds x 0 10 Hpos Hhi ltac:(lia)). lia.
Qed.

Lemma int_of_nine x :
  (x < 10)%Q -> (int_of x = 9 <-> (9 <= x)%Q).
Proof.
  intro Hhi. split.
  - intro E. destruct (Qlt_le_dec x 0) as [Hneg|Hpos].
    + destruct (int_of_nonpos x (Qlt_le_weak _ _ Hneg)) as (Hi & _). lia.
    + destruct (int_of_nonneg x Hpos) as (_ & Hl & _).
      now rewrite E in Hl.
  - intro Hlo. pose proof (int_of_bounds x 9 10 Hlo Hhi ltac:(lia)). lia.
Qed.

(** ** The bandwidth table *)

Lemma bandwidth_index_small b :
  (b < 10)%Q -> bandwidth_index b = int_of b.
Proof.
  intro H. unfold bandwidth_index.
  now rewrite (proj2 (number_lt_iff b 10) H).
Qed.

Ltac table_cases :=
  repeat match goal with
         | |- context [number_le ?x ?y] =>
             let H := fresh "H" in
             destruct (number_le x y) eqn:H;
             [apply number_le_iff in H | apply number_le_false in H]
         end.

Lemma bandwidth_index_bin b :
  (10 <= b)%Q -> 0 <= bandwidth_index b <= 8.
Proof.
  intro H. unfold bandwidth_index.
  rewrite (proj2 (number_lt_false b 10) H).
  unfold bins, first_bin. table_cases; cbn; lia.
Qed.

Lemma bandwidth_index_table b :
  (10 <= b)%Q ->
  if number_le b 250000 then
    0 <= bandwidth_index b <= 8 /\
    (b <= inject_Z (nth (Z.to_nat (bandwidth_index b)) bins 0%Z))%Q /\
    Forall (fun e => (b <= inject_Z e)%Q ->
                     nth (Z.to_nat (bandwidth_index b)) bins 0 <= e)
           bins
  else bandwidth_index b = 7.
Proof.
  intro H. unfold bandwidth_index.
  rewrite (proj2 (number_lt_false b 10) H).
  destruct (number_le b 250000) eqn:Htop;
    [apply number_le_iff in Htop | apply number_le_false in Htop];
    unfold bins, first_bin; table_cases;
    try reflexivity;
    destruct b as [n d]; unfold Qle, Qlt in *; cbn [Qnum Qden inject_Z] in *;
    try lia;
    repeat match goal with
           | |- context [nth (Z.to_nat ?i) ?l ?d] =>
               let v := eval vm_compute in (nth (Z.to_nat i) l d) in
               change (nth (Z.to_nat i) l d) with v
           end;
    (split; [lia|]); (split; [lia|]);
    repeat constructor; lia.
Qed.

(** ** The floating-point check *)

(** Converting an [int] to a float raises nothing but [OverflowError]. *)
Lemma float_of_int_raises n e :
  float_of_int n = Raise e -> e = OverflowError.
Proof.
  unfold float_of_int.
  destruct (binary_normalize prec emax n 0 false); congruence.
Qed.

Lemma symbol_duration_exceeds_raises bw sf e :
  symbol_duration_exceeds bw sf = Raise e ->
  e = ZeroDivisionError \/ e = OverflowError.
Proof.
  unfold symbol_duration_exceeds, power_of_two.
  destruct (Qeq_bool bw 0); [intros [= <-]; now left|].
  destruct (0 <=? sf).
  - destruct (float_of_int (2 ^ sf)) as [p|e'] eqn:E.
    + destruct (is_zero p); [intros [= <-]; now left | discriminate].
    + intros [= <-]. right. now apply float_of_int_raises in E.
  - destruct (is_zero _); [intros [= <-]; now left | discriminate].
Qed.

Lemma symbol_duration_exceeds_no_reset bw sf :
  symbol_duration_exceeds bw sf <> Raise MachineReset.
Proof.
  intro H. now destruct (symbol_duration_exceeds_raises _ _ _ H).
Qed.

(** A negative index exactly for a request of -1 or less. *)
Lemma bandwidth_index_sign b :
  if number_le b (-1) then bandwidth_index b < 0
  else 0 <= bandwidth_index b <= 9.
Proof.
  destruct (number_le b (-1)) eqn:Hb;
    [apply number_le_iff in Hb | apply number_le_false in Hb].
  - rewrite bandwidth_index_small.
    + pose proof (int_of_negative b Hb). lia.
    + eapply Qle_lt_trans; [exact Hb | reflexivity].
  - destruct (Qlt_le_dec b 10) as [Hs|Hs].
    + rewrite bandwidth_index_small by exact Hs.
      now apply int_of_above_minus_one.
    + pose proof (bandwidth_index_bin b Hs). lia.
Qed.

(** ** Bytes and bit masks *)

Lemma is_byte_true z : is_byte z = true <-> 0 <= z < 256.
Proof. unfold is_byte. rewrite andb_true_iff, Z.leb_le, Z.ltb_lt. tauto. Qed.

Lemma is_byte_false z : is_byte z = false <-> ~ 0 <= z < 256.
Proof.
  rewrite <- is_byte_true. destruct (is_byte z); split; intro H;
    try discriminate; try reflexivity. now elim H.
Qed.

Lemma land_le_l a b : 0 <= a -> 0 <= Z.land a b <= a.
Proof.
  intro Ha. split.
  - apply Z.land_nonneg. now left.
  - assert (Hd : 0 <= Z.ldiff a b) by (apply Z.ldiff_nonneg; now left).
    assert (Hz : Z.land (Z.ldiff a b) (Z.land a b) = 0).
    { rewrite Z.land_assoc, (Z.land_comm (Z.ldiff a b) a).
      rewrite <- Z.land_assoc, Z.land_ldiff. apply Z.land_0_r. }
    assert (Hs : Z.ldiff a b + Z.land a b = a).
    { rewrite Z.add_nocarry_lxor, Z.lxor_lor by exact Hz.
      apply Z.lor_ldiff_and. }
    lia.
Qed.

Lemma land_le_r a b : 0 <= b -> 0 <= Z.land a b <= b.
Proof. rewrite Z.land_comm. apply land_le_l. Qed.

Lemma lor_byte a b :
  0 <= a < 256 -> 0 <= b < 256 -> 0 <= Z.lor a b < 256.
Proof.
  intros Ha Hb.
  assert (H0 : 0 <= Z.lor a b) by (apply Z.lor_nonneg; lia).
  split; [exact H0|].
  assert (Hs : Z.shiftr (Z.lor a b) 8 = 0).
  { rewrite Z.shiftr_lor, !Z.shiftr_div_pow2 by lia.
    change (2 ^ 8) with 256. rewrite !Z.div_small by lia. reflexivity. }
  rewrite Z.shiftr_div_pow2 in Hs by lia. change (2 ^ 8) with 256 in Hs.
  apply Z.div_small_iff in Hs; lia.
Qed.

Lemma int_of_byte_range b : 0 <= int_of_byte b < 256.
Proof.
  unfold int_of_byte. pose proof (Byte.to_N_bounded b). lia.
Qed.

(** Splitting a byte into the part under a mask and the rest. *)
Lemma lor_land_keep w keep field :
  Z.land field keep = 0 -> Z.land (Z.lor (Z.land w keep) field) keep
                           = Z.land w keep.
Proof.
  intro H. rewrite Z.land_lor_distr_l, H, Z.lor_0_r.
  rewrite <- Z.land_assoc, Z.land_diag. reflexivity.
Qed.

Section Primitives.

Context {dev : Device}.
Implicit Types (self : ULoRa dev).

Lemma answer_byte self reg : 0 <= answer self reg < 256.
Proof. apply spi_answer_is_byte. Qed.

(** ** The two register primitives, run *)

Lemma read_register_eq reg self :
  read_register reg self =
  {| res := Ok (answer self reg);
     post := with_chip self
               (snd (spi_transfer dev (chip self) (Z.land reg 0x7F) 0x00));
     log := [Transfer (Z.land reg 0x7F) 0x00 (answer self reg)] |}.
Proof.
  unfold read_register, transfer, answer.
  assert (H : is_byte (Z.land reg 0x7F) = true).
  { apply is_byte_true. pose proof (land_le_r reg 0x7F). lia. }
  rewrite H. reflexivity.
Qed.

Lemma write_register_eq reg v self :
  is_byte (Z.lor reg 0x80) = true -> is_byte v = true ->
  write_register reg v self =
  {| res := Ok tt;
     post := with_chip self
               (snd (spi_transfer dev (chip self) (Z.lor reg 0x80) v));
     log := [Transfer (Z.lor reg 0x80) v
               (fst (spi_transfer dev (chip self) (Z.lor reg 0x80) v))] |}.
Proof.
  intros Ha Hv. unfold write_register, bind, transfer, ret.
  rewrite Ha, Hv. reflexivity.
Qed.

Lemma write_register_raises reg v self :
  is_byte (Z.lor reg 0x80) = true -> is_byte v = false ->
  write_register reg v self =
  {| res := Raise ValueError;
     post := with_chip self (spi_abort dev (chip self) [Z.lor reg 0x80]);
     log := [Aborted [Z.lor reg 0x80]] |}.
Proof.
  intros Ha Hv. unfold write_register, bind, transfer, ret.
  rewrite Ha, Hv. reflexivity.
Qed.

Lemma access_read reg r :
  0 <= reg < 128 -> access_of (Transfer (Z.land reg 0x7F) 0x00 r) = Read reg r.
Proof.
  intro H. change 0x7F with (Z.ones 7). rewrite Z.land_ones by lia.
  change (2 ^ 7) with 128. rewrite Z.mod_small by lia.
  unfold access_of.
  assert (Ht : Z.testbit reg 7 = false).
  { destruct (Z.eq_dec reg 0) as [->|Hn]; [reflexivity|].
    apply Z.bits_above_log2; [lia|].
    apply Z.log2_lt_pow2; [lia|]. change (2 ^ 7) with 128. lia. }
  rewrite Ht. reflexivity.
Qed.

Lemma access_write reg v r :
  0 <= reg < 128 -> access_of (Transfer (Z.lor reg 0x80) v r) = Write reg v.
Proof.
  intro H. unfold access_of.
  assert (Hr7 : Z.testbit reg 7 = false).
  { destruct (Z.eq_dec reg 0) as [->|Hn]; [reflexivity|].
    apply Z.bits_above_log2; [lia|].
    apply Z.log2_lt_pow2; [lia|]. change (2 ^ 7) with 128. lia. }
  rewrite Z.lor_spec, Hr7. change (Z.testbit 0x80 7) with true. cbn [orb].
  f_equal.
  rewrite Z.land_lor_distr_l. change (Z.land 0x80 0x7F) with 0.
  rewrite Z.lor_0_r. change 0x7F with (Z.ones 7).
  rewrite Z.land_ones by lia. change (2 ^ 7) with 128.
  apply Z.mod_small. lia.
Qed.


End Primitives.

(** ** Running a method step by step

    One equation per way a method can start; rewriting with them runs the
    method on a symbolic object, statement by statement. *)

Section Stepping.

Context {dev : Device}.
Implicit Types (self : ULoRa dev).

Lemma bind_bind {A B C} (m : M dev A) (f : A -> M dev B) (g : B -> M dev C)
    self :
  bind (bind m f) g self = bind m (fun a => bind (f a) g) self.
Proof.
  unfold bind. destruct (m self) as [[a|e] s l]; [|reflexivity].
  destruct (f a s) as [[b|e] s' l']; cbn; [|reflexivity].
  destruct (g b s') as [r s'' l'']. unfold prepend; cbn.
  now rewrite app_assoc.
Qed.

Lemma bind_ret {A B} (a : A) (k : A -> M dev B) self :
  bind (ret a) k self = k a self.
Proof. unfold bind, ret, prepend. now destruct (k a self). Qed.

Lemma bind_getattr {A B} (f : ULoRa dev -> A) (k : A -> M dev B) self :
  bind (getattr f) k self = k (f self) self.
Proof. unfold bind, getattr, prepend. now destruct (k (f self) self). Qed.

Lemma bind_setattr {B} (f : ULoRa dev -> ULoRa dev) (k : unit -> M dev B)
    self :
  bind (setattr f) k self = k tt (f self).
Proof. unfold bind, setattr, prepend. now destruct (k tt (f self)). Qed.

Lemma bind_emit {B} (e : event) (k : unit -> M dev B) self :
  bind (emit e) k self = prepend [e] (k tt self).
Proof. reflexivity. Qed.

Lemma bind_raise {A B} (e : error) (k : A -> M dev B) self :
  bind (raise e) k self = {| res := Raise e; post := self; log := [] |}.
Proof. reflexivity. Qed.

Lemma bind_of_result_ok {A B} (a : A) (k : A -> M dev B) self :
  bind (of_result (Ok a)) k self = k a self.
Proof. unfold bind, of_result, prepend. now destruct (k a self). Qed.

Lemma bind_of_result_raise {A B} (e : error) (k : A -> M dev B) self :
  bind (of_result (Raise e)) k self =
  {| res := Raise e; post := self; log := [] |}.
Proof. reflexivity. Qed.

Lemma bind_read {B} reg (k : Z -> M dev B) self :
  bind (read_register reg) k self =
  prepend [Transfer (Z.land reg 0x7F) 0x00 (answer self reg)]
    (k (answer self reg)
       (with_chip self
          (snd (spi_transfer dev (chip self) (Z.land reg 0x7F) 0x00)))).
Proof. unfold bind. now rewrite read_register_eq. Qed.

Lemma bind_write {B} reg v (k : unit -> M dev B) self :
  is_byte (Z.lor reg 0x80) = true -> is_byte v = true ->
  bind (write_register reg v) k self =
  prepend [Transfer (Z.lor reg 0x80) v
             (fst (spi_transfer dev (chip self) (Z.lor reg 0x80) v))]
    (k tt (with_chip self
             (snd (spi_transfer dev (chip self) (Z.lor reg 0x80) v)))).
Proof. intros Ha Hv. unfold bind. now rewrite write_register_eq. Qed.

Lemma bind_ok {A B} (m : M dev A) (k : A -> M dev B) self a :
  res (m self) = Ok a ->
  bind m k self = prepend (log (m self)) (k a (post (m self))).
Proof.
  unfold bind. destruct (m self) as [[a'|e] s l]; cbn; intro H;
    [now injection H as -> | discriminate].
Qed.

Lemma accesses_cons e l : accesses (e :: l) = access_of e :: accesses l.
Proof. reflexivity. Qed.

Lemma accesses_app l1 l2 : accesses (l1 ++ l2) = accesses l1 ++ accesses l2.
Proof. apply map_app. Qed.

End Stepping.

(** Statements that cannot raise and touch no register. *)
Ltac step_pure :=
  first [ rewrite bind_bind | rewrite bind_ret | rewrite bind_getattr
        | rewrite bind_setattr | rewrite bind_emit | rewrite bind_read ].

(** A register or a constant is a byte by computation. *)
Ltac step_write :=
  first [ rewrite bind_write by reflexivity
        | rewrite write_register_eq by reflexivity ].

Ltac steps := repeat first [ step_pure | step_write ].

Ltac reduce_outcome :=
  cbv beta delta [prepend ret];
  cbn [res post log app chip parameters has_reset
       implicit_header_mode with_chip with_parameters
       with_implicit_header_mode].

(** Integers built from literals, named constants and bit operations:
    the only ones the tactics below evaluate (evaluating an expression with
    a variable in it could run away). *)
Ltac ground_pos p :=
  lazymatch p with
  | xH => idtac
  | xO ?q => ground_pos q
  | xI ?q => ground_pos q
  end.

Ltac ground_Z t :=
  lazymatch t with
  | Z0 => idtac
  | Zpos ?p => ground_pos p
  | Zneg ?p => ground_pos p
  | Z.lor ?a ?b => ground_Z a; ground_Z b
  | Z.land ?a ?b => ground_Z a; ground_Z b
  | _ => is_const t; let t' := eval red in t in ground_Z t'
  end.

(** Tests between constants, decided by computation. *)
Ltac eval_tests :=
  repeat match goal with
         | |- context [Z.eqb ?a ?b] =>
             ground_Z a; ground_Z b;
             let v := eval vm_compute in (Z.eqb a b) in
             change (Z.eqb a b) with v
         | |- context [Z.testbit ?a ?b] =>
             ground_Z a; ground_Z b;
             let v := eval vm_compute in (Z.testbit a b) in
             change (Z.testbit a b) with v
         end;
  cbv beta iota.

(** Closed masks, computed. *)
Ltac eval_masks :=
  repeat match goal with
         | |- context [Z.land ?a ?b] =>
             ground_Z a; ground_Z b;
             let v := eval vm_compute in (Z.land a b) in
             progress change (Z.land a b) with v
         end.

(** Projecting a log that is an explicit list of transfers. *)
Ltac read_log :=
  cbv [writes_to reads_of accesses access_of map filter flat_map
       is_write_to is_read_of response_of app];
  eval_tests;
  eval_masks.

Ltac reg_range := vm_compute; split; [intro; discriminate | reflexivity].

(** Projecting a log that has symbolic parts. *)
Ltac read_accesses :=
  repeat first
    [ rewrite accesses_app
    | rewrite accesses_cons
    | rewrite access_write by reg_range
    | rewrite access_read by reg_range
    | progress change (accesses []) with (@nil access) ].

Section Methods.

Context {dev : Device}.
Implicit Types (self : ULoRa dev).

Lemma cache_differs_false c x : cache_differs c x = false <-> c = Some x.
Proof.
  destruct c as [[|]|], x; cbn; split; intro H;
    try discriminate; try reflexivity; congruence.
Qed.

Lemma lor_1_byte r : 0 <= r < 256 -> 0 <= Z.lor r 0x01 < 256.
Proof. intro H. apply lor_byte; lia. Qed.

Lemma land_mask_byte r m : 0 <= r < 256 -> 0 <= Z.land r m < 256.
Proof. intro H. pose proof (land_le_l r m). lia. Qed.

Lemma set_implicit_header_hit x self :
  cache_differs (implicit_header_mode self) x = false ->
  set_implicit_header x self = {| res := Ok tt; post := self; log := [] |}.
Proof.
  intro H. unfold set_implicit_header. rewrite bind_getattr, H. reflexivity.
Qed.

Lemma header_config_byte (x : bool) r :
  0 <= r < 256 ->
  is_byte (if x then Z.lor r 0x01 else Z.land r 0xFE) = true.
Proof.
  intro H. apply is_byte_true.
  destruct x; [apply lor_1_byte | apply land_mask_byte]; assumption.
Qed.

Lemma set_implicit_header_miss x self :
  cache_differs (implicit_header_mode self) x = true ->
  exists c a,
    set_implicit_header x self =
    {| res := Ok tt;
       post := with_chip (with_implicit_header_mode self (Some x)) c;
       log := [Transfer REG_MODEM_CONFIG_1 0x00
                 (answer self REG_MODEM_CONFIG_1);
               Transfer (Z.lor REG_MODEM_CONFIG_1 0x80)
                 (if x then Z.lor (answer self REG_MODEM_CONFIG_1) 0x01
                  else Z.land (answer self REG_MODEM_CONFIG_1) 0xFE) a] |}.
Proof.
  intros H. do 2 eexists.
  unfold set_implicit_header. rewrite bind_getattr, H.
  steps.
  rewrite write_register_eq;
    [ | reflexivity | apply header_config_byte, answer_byte ].
  reduce_outcome. reflexivity.
Qed.

(** ** The setters, run *)

Lemma clamp_range x lo hi : lo <= hi -> lo <= clamp x lo hi <= hi.
Proof. unfold clamp. lia. Qed.

Lemma shiftl_4 i : Z.shiftl i 4 = i * 16.
Proof. now rewrite Z.shiftl_mul_pow2 by lia. Qed.

Lemma shiftl_1 i : Z.shiftl i 1 = i * 2.
Proof. now rewrite Z.shiftl_mul_pow2 by lia. Qed.

Lemma set_tx_power_eq level output_pin self :
  let w := if output_pin =? PA_OUTPUT_RFO_PIN
           then Z.lor 0x70 (clamp level 0 14)
           else Z.lor PA_BOOST (clamp level 2 17 - 2) in
  exists s' a,
    set_tx_power level output_pin self =
    {| res := Ok tt; post := s';
       log := [Transfer (Z.lor REG_PA_CONFIG 0x80) w a] |}.
Proof.
  intro w. unfold set_tx_power. rewrite bind_setattr.
  subst w. fold (clamp level 0 14). fold (clamp level 2 17).
  destruct (output_pin =? PA_OUTPUT_RFO_PIN).
  - rewrite write_register_eq; [do 2 eexists; reflexivity | reflexivity |].
    apply is_byte_true. pose proof (clamp_range level 0 14).
    apply lor_byte; lia.
  - rewrite write_register_eq; [do 2 eexists; reflexivity | reflexivity |].
    apply is_byte_true. pose proof (clamp_range level 2 17).
    apply lor_byte; unfold PA_BOOST; lia.
Qed.

Lemma sf_config_byte r sf :
  0 <= r < 256 ->
  is_byte (Z.lor (Z.land r 0x0F)
                 (Z.land (Z.shiftl (clamp sf 6 12) 4) 0xF0)) = true.
Proof.
  intro H. apply is_byte_true. apply lor_byte.
  - now apply land_mask_byte.
  - pose proof (land_le_r (Z.shiftl (clamp sf 6 12) 4) 0xF0). lia.
Qed.

Lemma set_spreading_factor_eq sf self :
  exists s' r a1 a2 a3,
    set_spreading_factor sf self =
    {| res := Ok tt; post := s';
       log := [Transfer (Z.lor REG_DETECTION_OPTIMIZE 0x80)
                 (if clamp sf 6 12 =? 6 then 0xC5 else 0xC3) a1;
               Transfer (Z.lor REG_DETECTION_THRESHOLD 0x80)
                 (if clamp sf 6 12 =? 6 then 0x0C else 0x0A) a2;
               Transfer REG_MODEM_CONFIG_2 0x00 r;
               Transfer (Z.lor REG_MODEM_CONFIG_2 0x80)
                 (Z.lor (Z.land r 0x0F)
                        (Z.land (Z.shiftl (clamp sf 6 12) 4) 0xF0)) a3] |}
    /\ 0 <= r < 256.
Proof.
  unfold set_spreading_factor. fold (clamp sf 6 12).
  destruct (clamp sf 6 12 =? 6); steps;
    (rewrite write_register_eq;
       [ | reflexivity | apply sf_config_byte, answer_byte ]);
    reduce_outcome; do 5 eexists; (split; [reflexivity | apply answer_byte]).
Qed.

Lemma cr_config_byte r d :
  0 <= r < 256 ->
  is_byte (Z.lor (Z.land r 0xF1) (Z.shiftl (clamp d 5 8 - 4) 1)) = true.
Proof.
  intro H. apply is_byte_true. apply lor_byte.
  - now apply land_mask_byte.
  - rewrite shiftl_1. pose proof (clamp_range d 5 8). lia.
Qed.

Lemma set_coding_rate_eq d self :
  let r := answer self REG_MODEM_CONFIG_1 in
  exists s' a,
    set_coding_rate d self =
    {| res := Ok tt; post := s';
       log := [Transfer REG_MODEM_CONFIG_1 0x00 r;
               Transfer (Z.lor REG_MODEM_CONFIG_1 0x80)
                 (Z.lor (Z.land r 0xF1) (Z.shiftl (clamp d 5 8 - 4) 1))
                 a] |}.
Proof.
  intro r. unfold set_coding_rate. fold (clamp d 5 8). steps.
  rewrite write_register_eq;
    [ | reflexivity | apply cr_config_byte, answer_byte ].
  reduce_outcome. do 2 eexists. reflexivity.
Qed.

Lemma enable_crc_eq (e : bool) self :
  let r := answer self REG_MODEM_CONFIG_2 in
  exists s' a,
    enable_crc e self =
    {| res := Ok tt; post := s';
       log := [Transfer REG_MODEM_CONFIG_2 0x00 r;
               Transfer (Z.lor REG_MODEM_CONFIG_2 0x80)
                 (if e then Z.lor r 0x04 else Z.land r 0xFB) a] |}.
Proof.
  intro r. unfold enable_crc. steps.
  rewrite write_register_eq; [ | reflexivity | ].
  - reduce_outcome. do 2 eexists. reflexivity.
  - apply is_byte_true. pose proof (answer_byte self REG_MODEM_CONFIG_2).
    destruct e; [apply lor_byte; lia | now apply land_mask_byte].
Qed.

Lemma iq_config_byte i r : 0 <= r < 256 -> is_byte (iq_config i r) = true.
Proof.
  intro H. apply is_byte_true. unfold iq_config.
  apply lor_byte; [apply lor_byte|].
  - apply land_mask_byte. now apply land_mask_byte.
  - destruct i; cbv; intuition discriminate.
  - destruct i; cbv; intuition discriminate.
Qed.

Lemma invert_iq_eq (i : bool) self :
  let r := answer self REG_INVERTIQ in
  exists s' a1 a2,
    invert_iq i self =
    {| res := Ok tt; post := s';
       log := [Transfer REG_INVERTIQ 0x00 r;
               Transfer (Z.lor REG_INVERTIQ 0x80) (iq_config i r) a1;
               Transfer (Z.lor REG_INVERTIQ2 0x80)
                 (if i then RFLR_INVERTIQ2_ON else RFLR_INVERTIQ2_OFF)
                 a2] |}.
Proof.
  intro r. unfold invert_iq. steps.
  pose proof (iq_config_byte i _ (answer_byte self REG_INVERTIQ)) as Hb.
  destruct i; unfold iq_config in *;
    (rewrite bind_write; [ | reflexivity | exact Hb ]);
    steps; reduce_outcome; do 3 eexists; reflexivity.
Qed.

Lemma bw_config_byte r i :
  0 <= r < 256 -> 0 <= i < 16 ->
  is_byte (Z.lor (Z.land r 0x0F) (Z.shiftl i 4)) = true.
Proof.
  intros Hr Hi. apply is_byte_true. apply lor_byte.
  - now apply land_mask_byte.
  - rewrite shiftl_4. lia.
Qed.

Lemma bw_config_negative r i :
  i < 0 -> is_byte (Z.lor (Z.land r 0x0F) (Z.shiftl i 4)) = false.
Proof.
  intro Hi. apply is_byte_false.
  assert (H : Z.lor (Z.land r 0x0F) (Z.shiftl i 4) < 0).
  { apply Z.lor_neg. right. rewrite shiftl_4. lia. }
  lia.
Qed.

Lemma set_signal_bandwidth_eq b self :
  number_le b (-1) = false ->
  let r := answer self REG_MODEM_CONFIG_1 in
  exists s' a,
    set_signal_bandwidth b self =
    {| res := Ok tt; post := s';
       log := [Transfer REG_MODEM_CONFIG_1 0x00 r;
               Transfer (Z.lor REG_MODEM_CONFIG_1 0x80)
                 (Z.lor (Z.land r 0x0F) (Z.shiftl (bandwidth_index b) 4))
                 a] |}.
Proof.
  intros Hb r. unfold set_signal_bandwidth. steps.
  rewrite write_register_eq; [ | reflexivity | ].
  - reduce_outcome. do 2 eexists. reflexivity.
  - apply bw_config_byte; [apply answer_byte|].
    pose proof (bandwidth_index_sign b) as Hi. rewrite Hb in Hi. lia.
Qed.

Lemma set_signal_bandwidth_raises b self :
  number_le b (-1) = true ->
  let r := answer self REG_MODEM_CONFIG_1 in
  exists s',
    set_signal_bandwidth b self =
    {| res := Raise ValueError; post := s';
       log := [Transfer REG_MODEM_CONFIG_1 0x00 r;
               Aborted [Z.lor REG_MODEM_CONFIG_1 0x80]] |}.
Proof.
  intros Hb r. unfold set_signal_bandwidth. steps.
  rewrite write_register_raises; [ | reflexivity | ].
  - reduce_outcome. eexists. reflexivity.
  - apply bw_config_negative.
    pose proof (bandwidth_index_sign b) as Hi. now rewrite Hb in Hi.
Qed.

Lemma land_FF_byte x : is_byte (Z.land x 0xFF) = true.
Proof. apply is_byte_true. pose proof (land_le_r x 0xFF). lia. Qed.

Lemma set_preamble_length_eq len self :
  exists s' a1 a2,
    set_preamble_length len self =
    {| res := Ok tt; post := s';
       log := [Transfer (Z.lor REG_PREAMBLE_MSB 0x80)
                 (Z.land (Z.shiftr len 8) 0xFF) a1;
               Transfer (Z.lor REG_PREAMBLE_LSB 0x80)
                 (Z.land len 0xFF) a2] |}.
Proof.
  unfold set_preamble_length.
  rewrite bind_write; [ | reflexivity | apply land_FF_byte ].
  rewrite write_register_eq; [ | reflexivity | apply land_FF_byte ].
  reduce_outcome. do 3 eexists. reflexivity.
Qed.

Lemma set_frequency_eq f self :
  let frf := frf_of (f + frequency_offset (parameters self)) in
  exists s' a1 a2 a3,
    set_frequency f self =
    {| res := Ok tt; post := s';
       log := [Transfer (Z.lor REG_FRF_MSB 0x80)
                 (Z.land (Z.shiftr frf 16) 0xFF) a1;
               Transfer (Z.lor REG_FRF_MID 0x80)
                 (Z.land (Z.shiftr frf 8) 0xFF) a2;
               Transfer (Z.lor REG_FRF_LSB 0x80) (Z.land frf 0xFF) a3] |}
    /\ frequency (parameters s') = f.
Proof.
  intro frf. unfold set_frequency. steps. reduce_outcome.
  fold frf.
  rewrite bind_write; [ | reflexivity | apply land_FF_byte ].
  rewrite bind_write; [ | reflexivity | apply land_FF_byte ].
  rewrite write_register_eq; [ | reflexivity | apply land_FF_byte ].
  reduce_outcome. do 4 eexists. split; reflexivity.
Qed.

Lemma receive_spec size self :
  let o := receive size self in
  res o = Ok tt /\
  writes_to REG_PAYLOAD_LENGTH (log o) =
    (if 0 <? size then [Z.land size 0xFF] else []) /\
  writes_to REG_OP_MODE (log o) =
    [Z.lor MODE_LONG_RANGE_MODE MODE_RX_CONTINUOUS].
Proof.
  cbv zeta. remember (receive size self) as o eqn:Ho.
  unfold receive in Ho. unfold bind at 1 in Ho.
  destruct (cache_differs (implicit_header_mode self) (0 <? size)) eqn:Hc.
  - destruct (set_implicit_header_miss (0 <? size) self Hc) as (c & a & E).
    rewrite E in Ho. clear E.
    destruct (0 <? size).
    + rewrite bind_write in Ho; [ | reflexivity | apply land_FF_byte ].
      rewrite write_register_eq in Ho by reflexivity.
      subst o. reduce_outcome. repeat split; read_log; reflexivity.
    + rewrite bind_ret, write_register_eq in Ho by reflexivity.
      subst o. reduce_outcome. repeat split; read_log; reflexivity.
  - rewrite (set_implicit_header_hit _ _ Hc) in Ho.
    destruct (0 <? size).
    + rewrite bind_write in Ho; [ | reflexivity | apply land_FF_byte ].
      rewrite write_register_eq in Ho by reflexivity.
      subst o. reduce_outcome. repeat split; read_log; reflexivity.
    + rewrite bind_ret, write_register_eq in Ho by reflexivity.
      subst o. reduce_outcome. repeat split; read_log; reflexivity.
Qed.

Lemma within_app regs l1 l2 :
  within regs (l1 ++ l2) = within regs l1 && within regs l2.
Proof. apply forallb_app. Qed.

Lemma set_implicit_header_spec x self :
  let o := set_implicit_header x self in
  res o = Ok tt /\
  within [REG_MODEM_CONFIG_1] (accesses (log o)) = true /\
  implicit_header_mode (post o) = Some x.
Proof.
  cbv zeta.
  destruct (cache_differs (implicit_header_mode self) x) eqn:Hc.
  - destruct (set_implicit_header_miss x self Hc) as (c & a & ->).
    reduce_outcome. repeat split.
  - rewrite (set_implicit_header_hit _ _ Hc). reduce_outcome.
    repeat split. now apply cache_differs_false.
Qed.

(** [if size > 0: self.write_register(REG_PAYLOAD_LENGTH, size & 0xFF)] *)
Lemma expected_size_spec size self :
  let o := (if 0 <? size
            then write_register REG_PAYLOAD_LENGTH (Z.land size 0xFF)
            else ret tt) self in
  res o = Ok tt /\
  within [REG_PAYLOAD_LENGTH] (accesses (log o)) = true.
Proof.
  cbv zeta. destruct (0 <? size).
  - rewrite write_register_eq; [ | reflexivity | apply land_FF_byte ].
    reduce_outcome. split; [reflexivity|]. read_log. reflexivity.
  - split; reflexivity.
Qed.

Lemma within_weaken regs regs' l :
  incl regs regs' -> within regs l = true -> within regs' l = true.
Proof.
  intros Hi. unfold within. rewrite !forallb_forall. intros H a Ha.
  specialize (H a Ha). destruct (reg_of a); [|exact H].
  rewrite existsb_exists in *. destruct H as (r & Hr & E).
  exists r. split; [now apply Hi | exact E].
Qed.

Lemma received_packet_spec size self :
  let o := received_packet size self in
  let v := answer self REG_IRQ_FLAGS in
  res o = Ok (v =? IRQ_RX_DONE_MASK) /\
  exists hdr m,
    accesses (log o) =
      Read REG_IRQ_FLAGS v :: Write REG_IRQ_FLAGS v :: hdr ++
      (if v =? IRQ_RX_DONE_MASK then []
       else Read REG_OP_MODE m ::
            (if m =? Z.lor MODE_LONG_RANGE_MODE MODE_RX_SINGLE then []
             else [Write REG_FIFO_ADDR_PTR FifoRxBaseAddr;
                   Write REG_OP_MODE
                     (Z.lor MODE_LONG_RANGE_MODE MODE_RX_SINGLE)])) /\
    within [REG_MODEM_CONFIG_1; REG_PAYLOAD_LENGTH] hdr = true.
Proof.
  cbv zeta. remember (received_packet size self) as o eqn:Ho.
  unfold received_packet, get_irq_flags in Ho.
  rewrite bind_bind, bind_read in Ho.
  rewrite bind_bind, bind_write in Ho;
    [ | reflexivity | apply is_byte_true, answer_byte ].
  rewrite bind_ret in Ho.
  match type of Ho with
  | context [bind (set_implicit_header ?x) ?k ?s] =>
      destruct (set_implicit_header_spec x s) as (E1 & W1 & _);
      rewrite (bind_ok _ k s tt E1) in Ho;
      set (s1 := post (set_implicit_header x s)) in *;
      set (l1 := log (set_implicit_header x s)) in *
  end.
  match type of Ho with
  | context [bind ?m ?k s1] =>
      destruct (expected_size_spec size s1) as (E2 & W2);
      rewrite (bind_ok m k s1 tt E2) in Ho;
      set (s2 := post (m s1)) in *;
      set (l2 := log (m s1)) in *
  end.
  assert (Hh : within [REG_MODEM_CONFIG_1; REG_PAYLOAD_LENGTH]
                 (accesses l1 ++ accesses l2) = true).
  { rewrite within_app, andb_true_iff. split.
    - eapply within_weaken; [|exact W1]. intros a [<-|[]]. now left.
    - eapply within_weaken; [|exact W2]. intros a [<-|[]]. right. now left. }
  clearbody s1 l1 s2 l2.
  destruct (answer self REG_IRQ_FLAGS =? IRQ_RX_DONE_MASK) eqn:Hv.
  - subst o. reduce_outcome. split; [reflexivity|].
    exists (accesses l1 ++ accesses l2), 0. split; [|exact Hh].
    rewrite !app_nil_r. read_accesses. reflexivity.
  - rewrite bind_bind, bind_read in Ho.
    destruct (answer s2 REG_OP_MODE
              =? Z.lor MODE_LONG_RANGE_MODE MODE_RX_SINGLE) eqn:Hm.
    + cbn [negb] in Ho. rewrite !bind_ret in Ho.
      subst o. reduce_outcome. split; [reflexivity|].
      exists (accesses l1 ++ accesses l2), (answer s2 REG_OP_MODE).
      split; [|exact Hh]. rewrite Hm.
      read_accesses. rewrite <- app_assoc. reflexivity.
    + cbn [negb] in Ho. rewrite bind_bind in Ho.
      rewrite bind_write in Ho by reflexivity.
      rewrite bind_write in Ho by reflexivity.
      subst o. reduce_outcome. split; [reflexivity|].
      exists (accesses l1 ++ accesses l2), (answer s2 REG_OP_MODE).
      split; [|exact Hh]. rewrite Hm.
      read_accesses. rewrite <- app_assoc. reflexivity.
Qed.
(** *** Transmission *)

Lemma for_each_fifo buffer self :
  exists s' l,
    for_each buffer
      (fun byte => write_register REG_FIFO (int_of_byte byte)) self =
    {| res := Ok tt; post := s'; log := l |} /\
    accesses l = map (fun b => Write REG_FIFO (int_of_byte b)) buffer.
Proof.
  revert self. induction buffer as [|b buffer IH]; intro self.
  - do 2 eexists. split; reflexivity.
  - cbn [for_each].
    rewrite bind_write;
      [ | reflexivity | apply is_byte_true, int_of_byte_range ].
    match goal with
    | |- context [for_each buffer _ ?s] =>
        destruct (IH s) as (s' & l & -> & Hl)
    end.
    reduce_outcome. do 2 eexists. split; [reflexivity|].
    read_accesses. rewrite Hl. reflexivity.
Qed.

Lemma write_spec buffer self :
  let o := write buffer self in
  let L := answer self REG_PAYLOAD_LENGTH in
  let n := Z.min (Z.of_nat (length buffer)) (255 - L) in
  res o = Ok n /\
  accesses (log o) =
    Read REG_PAYLOAD_LENGTH L ::
    map (fun b => Write REG_FIFO (int_of_byte b)) buffer ++
    [Write REG_PAYLOAD_LENGTH (L + n)].
Proof.
  cbv zeta. remember (write buffer self) as o eqn:Ho.
  unfold write in Ho. rewrite bind_read in Ho.
  pose proof (answer_byte self REG_PAYLOAD_LENGTH) as HL.
  set (L := answer self REG_PAYLOAD_LENGTH) in *.
  replace (MAX_PKT_LENGTH - FifoTxBaseAddr - L) with (255 - L) in Ho
    by (unfold MAX_PKT_LENGTH, FifoTxBaseAddr; lia).
  set (n := Z.min (Z.of_nat (length buffer)) (255 - L)) in *.
  match type of Ho with
  | context [bind (for_each buffer ?f) ?k ?s] =>
      destruct (for_each_fifo buffer s) as (s' & l & E & Hl);
      unfold bind at 1 in Ho; rewrite E in Ho
  end.
  rewrite bind_write in Ho; [ | reflexivity | apply is_byte_true; lia ].
  subst o. reduce_outcome. split; [reflexivity|].
  read_accesses. rewrite Hl. reflexivity.
Qed.

(** *** The version probe *)

Lemma last_cons {A} (a d : A) l : last (a :: l) d = last l a.
Proof.
  revert a d. induction l as [|b l IH]; intros a d; [reflexivity|].
  change (last (a :: b :: l) d) with (last (b :: l) d).
  now rewrite !IH.
Qed.

(** The loop reads until a byte other than zero comes, [n] times at
    most. *)
Lemma poll_version_spec n version self :
  exists vs s',
    poll_version n version self =
    {| res := Ok (last (map Some vs) version); post := s';
       log := map (fun v => Transfer REG_VERSION 0x00 v) vs |} /\
    (length vs <= n)%nat /\ (n <> 0%nat -> vs <> []) /\
    Forall (fun v => v = 0) (removelast vs) /\
    (forall d, last vs d = 0 -> length vs = n).
Proof.
  revert version self. induction n as [|n IH]; intros version self.
  - exists [], self.
    split; [reflexivity|]. split; [cbn; lia|].
    split; [congruence|]. split; [constructor | reflexivity].
  - cbn [poll_version]. rewrite bind_read.
    set (v := answer self REG_VERSION).
    destruct (v =? 0) eqn:Hv.
    + match goal with
      | |- context [poll_version n ?ver ?s] =>
          destruct (IH ver s) as (vs & s' & -> & Hlen & _ & Hz & Hretry)
      end.
      exists (v :: vs), s'. reduce_outcome.
      split; [cbn [map]; rewrite last_cons; reflexivity|].
      split; [cbn [length]; lia|]. split; [discriminate|].
      split.
      * destruct vs as [|v' vs]; [constructor|].
        change (removelast (v :: v' :: vs))
          with (v :: removelast (v' :: vs)).
        constructor; [now apply Z.eqb_eq | exact Hz].
      * intros d Hd. rewrite last_cons in Hd. cbn [length].
        now rewrite (Hretry v Hd).
    + exists [v]. eexists. reduce_outcome.
      split; [reflexivity|]. split; [cbn; lia|].
      split; [discriminate|]. split; [constructor|].
      intros d Hd. cbn [last] in Hd. apply Z.eqb_neq in Hv. contradiction.
Qed.

Lemma last_map_Some (vs : list Z) (d : option Z) (d' : Z) :
  vs <> [] -> last (map Some vs) d = Some (last vs d').
Proof.
  revert d d'. induction vs as [|v vs IH]; intros d d' H; [congruence|].
  destruct vs as [|v' vs]; [reflexivity|].
  change (last (map Some (v :: v' :: vs)) d)
    with (last (map Some (v' :: vs)) d).
  change (last (v :: v' :: vs) d') with (last (v' :: vs) d').
  apply IH. discriminate.
Qed.

Lemma reads_of_app reg l1 l2 :
  reads_of reg (l1 ++ l2) = reads_of reg l1 ++ reads_of reg l2.
Proof. unfold reads_of. now rewrite filter_app, flat_map_app. Qed.

Lemma reads_of_version_probe vs :
  reads_of REG_VERSION (map (fun v => Transfer REG_VERSION 0x00 v) vs) = vs.
Proof.
  induction vs as [|v vs IH]; [reflexivity|].
  change (reads_of REG_VERSION (map (fun v => Transfer REG_VERSION 0x00 v) (v :: vs)))
    with (v :: reads_of REG_VERSION (map (fun v => Transfer REG_VERSION 0x00 v) vs)).
  now rewrite IH.
Qed.

Lemma reads_of_none reg l :
  forallb (fun e => negb (is_read_of reg e)) l = true -> reads_of reg l = [].
Proof.
  unfold reads_of. induction l as [|e l IH]; [reflexivity|].
  cbn [forallb filter]. rewrite andb_true_iff. intros [He Hl].
  destruct (is_read_of reg e); [discriminate | now apply IH].
Qed.

(** *** Methods that keep off a register *)

Lemma quiet_ret {A} P (a : A) : quiet (dev := dev) P (ret a).
Proof. intro self. split; [reflexivity | discriminate]. Qed.

Lemma quiet_getattr {A} P (f : ULoRa dev -> A) : quiet P (getattr f).
Proof. intro self. split; [reflexivity | discriminate]. Qed.

Lemma quiet_setattr P (f : ULoRa dev -> ULoRa dev) : quiet P (setattr f).
Proof. intro self. split; [reflexivity | discriminate]. Qed.

Lemma quiet_emit P e : P e = true -> quiet (dev := dev) P (emit e).
Proof.
  intros H self. split; [cbn; now rewrite H | discriminate].
Qed.

Lemma quiet_raise {A} P e :
  e <> MachineReset -> quiet (dev := dev) (A := A) P (raise e).
Proof. intros H self. split; [reflexivity | cbn; congruence]. Qed.

Lemma quiet_of_result {A} P (r : result A) :
  r <> Raise MachineReset -> quiet (dev := dev) P (of_result r).
Proof. intros H self. split; [reflexivity | exact H]. Qed.

Lemma quiet_bind {A B} P (m : M dev A) (k : A -> M dev B) :
  quiet P m -> (forall a, quiet P (k a)) -> quiet P (bind m k).
Proof.
  intros Hm Hk self. unfold bind. specialize (Hm self).
  destruct (m self) as [[a|e] s l]; cbn in *;
    [|destruct Hm as [Hl Hr]; split; [exact Hl | congruence]].
  destruct Hm as [Hl _]. destruct (Hk a s) as [Hl' Hr'].
  split; [|exact Hr']. rewrite forallb_app, Hl, Hl'. reflexivity.
Qed.

Lemma quiet_transfer P a v :
  (forall r, P (Transfer a v r) = true) ->
  P (Aborted []) = true -> P (Aborted [a]) = true ->
  quiet (dev := dev) P (transfer a v).
Proof.
  intros Ht H0 H1 self. unfold transfer.
  destruct (is_byte a); cbn; [destruct (is_byte v); cbn|].
  - rewrite Ht. split; [reflexivity | discriminate].
  - rewrite H1. split; [reflexivity | discriminate].
  - rewrite H0. split; [reflexivity | discriminate].
Qed.

End Methods.

(** Every statement of a method body is quiet. *)
Ltac quiet_steps :=
  repeat first
    [ apply quiet_ret | apply quiet_getattr | apply quiet_setattr
    | apply quiet_emit; reflexivity
    | apply quiet_raise; discriminate
    | apply quiet_of_result; apply symbol_duration_exceeds_no_reset
    | apply quiet_transfer; [intro; reflexivity | reflexivity | reflexivity]
    | apply quiet_bind; [ | intro ]
    | match goal with
      | |- quiet _ (if ?c then _ else _) => destruct c
      | |- quiet _ (match ?c with _ => _ end) => destruct c
      end ].

Ltac quiet_method :=
  cbv beta zeta delta
    [configure sleep standby set_frequency set_signal_bandwidth
     set_tx_power set_implicit_header set_spreading_factor set_coding_rate
     set_preamble_length set_sync_word enable_crc invert_iq
     low_data_rate_check reset_module param read_register write_register];
  quiet_steps.

Section Frames.

Context {dev : Device}.
Implicit Types (self : ULoRa dev).

Lemma configure_quiet : quiet (dev := dev) not_version_read configure.
Proof. quiet_method. Qed.

Lemma reset_module_quiet : quiet (dev := dev) not_version_read reset_module.
Proof. quiet_method. Qed.



End Frames.

(** * The claims *)

(** [w] agrees with [r] under a mask when [w] is [r] with bits outside the
    mask set or cleared. *)
Ltac same_under_mask :=
  repeat rewrite Z.land_lor_distr_l;
  repeat rewrite <- Z.land_assoc;
  eval_masks;
  rewrite ?Z.land_0_r, ?Z.lor_0_r;
  reflexivity.

Section Claims.
Context {dev : Device}.
Implicit Types (self : ULoRa dev).

Lemma shiftl_4_low i : Z.land (Z.shiftl i 4) 0x0F = 0.
Proof.
  rewrite shiftl_4. change 0x0F with (Z.ones 4).
  rewrite Z.land_ones by lia. change (2 ^ 4) with 16.
  apply Z.mod_mul. lia.
Qed.

Lemma cr_field_low d : Z.land (Z.shiftl (clamp d 5 8 - 4) 1) 0xF1 = 0.
Proof.
  pose proof (clamp_range d 5 8).
  assert (H1 : clamp d 5 8 - 4 = 1 \/ clamp d 5 8 - 4 = 2 \/
               clamp d 5 8 - 4 = 3 \/ clamp d 5 8 - 4 = 4) by lia.
  destruct H1 as [-> | [-> | [-> | ->]]]; reflexivity.
Qed.

(** C9: calling set_implicit_header(x) twice in a row issues exactly one
    ModemConfig1 write when the cached mode differed from x and none when it
    already matched; the second call performs no register access at all. *)
Theorem C9_set_implicit_header_twice (x : bool) self :
  let o1 := set_implicit_header x self in
  let o2 := set_implicit_header x (post o1) in
  let r := answer self REG_MODEM_CONFIG_1 in
  let differs := cache_differs (implicit_header_mode self) x in
  res o1 = Ok tt /\ res o2 = Ok tt /\
  log o2 = [] /\
  accesses (log o1) =
    (if differs
     then [Read REG_MODEM_CONFIG_1 r;
           Write REG_MODEM_CONFIG_1
             (if x then Z.lor r 0x01 else Z.land r 0xFE)]
     else []) /\
  length (writes_to REG_MODEM_CONFIG_1 (log o1 ++ log o2)) =
    (if differs then 1%nat else 0%nat) /\
  log ((set_implicit_header x ;; set_implicit_header x) self) =
    log o1 ++ log o2.
Proof.
  cbv zeta.
  destruct (set_implicit_header_spec x self) as (E1 & _ & Hc).
  assert (E2 : set_implicit_header x (post (set_implicit_header x self)) =
               {| res := Ok tt; post := post (set_implicit_header x self);
                  log := [] |}).
  { apply set_implicit_header_hit. now apply cache_differs_false. }
  rewrite (bind_ok _ _ _ tt E1). rewrite E2. reduce_outcome.
  rewrite !app_nil_r.
  destruct (cache_differs (implicit_header_mode self) x) eqn:Hd.
  - destruct (set_implicit_header_miss x self Hd) as (c & a & ->).
    reduce_outcome. repeat split; read_log; reflexivity.
  - rewrite (set_implicit_header_hit _ _ Hd). reduce_outcome.
    repeat split.
Qed.

(** C7: every setter of a field that shares its register with other fields
    (bandwidth, coding rate and header mode in ModemConfig1; spreading
    factor and CRC in ModemConfig2; the two IQ bits in InvertIQ) writes that
    register only directly after reading it, and the byte written agrees
    with the byte read on every bit outside the setter's own field. *)
Theorem C7_setters_preserve_other_fields self :
  (forall b,
     preserves REG_MODEM_CONFIG_1 0x0F None
       (accesses (log (set_signal_bandwidth b self)))) /\
  (forall d,
     preserves REG_MODEM_CONFIG_1 0xF1 None
       (accesses (log (set_coding_rate d self)))) /\
  (forall x,
     preserves REG_MODEM_CONFIG_1 0xFE None
       (accesses (log (set_implicit_header x self)))) /\
  (forall sf,
     preserves REG_MODEM_CONFIG_2 0x0F None
       (accesses (log (set_spreading_factor sf self)))) /\
  (forall e,
     preserves REG_MODEM_CONFIG_2 0xFB None
       (accesses (log (enable_crc e self)))) /\
  (forall i,
     preserves REG_INVERTIQ 0xBE None
       (accesses (log (invert_iq i self)))).
Proof.
  repeat apply conj.
  - intro b. destruct (number_le b (-1)) eqn:Hb.
    + destruct (set_signal_bandwidth_raises b self Hb) as (s' & ->).
      reduce_outcome. read_log. cbn [preserves]. exact I.
    + destruct (set_signal_bandwidth_eq b self Hb) as (s' & a & ->).
      reduce_outcome. read_log. cbn [preserves]. eval_tests.
      split; [intros _|exact I].
      apply lor_land_keep, shiftl_4_low.
  - intro d. destruct (set_coding_rate_eq d self) as (s' & a & ->).
    reduce_outcome. read_log. cbn [preserves]. eval_tests.
    split; [intros _|exact I].
    apply lor_land_keep, cr_field_low.
  - intro x.
    destruct (cache_differs (implicit_header_mode self) x) eqn:Hd.
    + destruct (set_implicit_header_miss x self Hd) as (c & a & ->).
      reduce_outcome. read_log. cbn [preserves]. eval_tests.
      split; [intros _|exact I].
      destruct x; same_under_mask.
    + rewrite (set_implicit_header_hit _ _ Hd). exact I.
  - intro sf.
    destruct (set_spreading_factor_eq sf self)
      as (s' & r & a1 & a2 & a3 & -> & _).
    reduce_outcome. read_log. cbn [preserves]. eval_tests.
    repeat split; try discriminate.
    intros _. same_under_mask.
  - intro e. destruct (enable_crc_eq e self) as (s' & a & ->).
    reduce_outcome. read_log. cbn [preserves]. eval_tests.
    split; [intros _|exact I].
    destruct e; same_under_mask.
  - intro i. destruct (invert_iq_eq i self) as (s' & a1 & a2 & ->).
    reduce_outcome. read_log. cbn [preserves]. eval_tests.
    repeat split; try discriminate.
    intros _. unfold iq_config. destruct i; same_under_mask.
Qed.

Lemma bw_config_fields r i :
  0 <= r ->
  Z.shiftr (Z.lor (Z.land r 0x0F) (Z.shiftl i 4)) 4 = i.
Proof.
  intro Hr. rewrite Z.shiftr_lor, Z.shiftr_shiftl_l by lia.
  change (4 - 4) with 0. rewrite Z.shiftl_0_r.
  rewrite Z.shiftr_div_pow2 by lia. change (2 ^ 4) with 16.
  pose proof (land_le_r r 0x0F). rewrite Z.div_small by lia.
  apply Z.lor_0_l.
Qed.

(** C4 (amended): a request below 10 is taken as the bin index int(b),
    the request truncated toward zero; a request of at least 10 selects the
    position of the smallest table entry not below it, or index 7 when it
    exceeds every entry.  For a request above -1 the index lies in [0,9],
    is 9 exactly for requests in [9,10), and is written into the top nibble
    of ModemConfig1 with the low nibble as read.  (For a request of -1 or
    less the index is negative, the write raises and ModemConfig1 is not
    written.) *)
Theorem C4_bandwidth_index_selection (b : Q) self :
  let idx := bandwidth_index b in
  let o := set_signal_bandwidth b self in
  let r := answer self REG_MODEM_CONFIG_1 in
  (if number_lt b 10 then idx = int_of b
   else if number_le b 250000 then
     0 <= idx <= 8 /\
     (b <= inject_Z (nth (Z.to_nat idx) bins 0%Z))%Q /\
     Forall (fun e => (b <= inject_Z e)%Q -> nth (Z.to_nat idx) bins 0 <= e)
            bins
   else idx = 7) /\
  ((0 <= b)%Q ->
   (inject_Z (int_of b) <= b)%Q /\ (b < inject_Z (int_of b + 1))%Q) /\
  ((b <= 0)%Q ->
   (b <= inject_Z (int_of b))%Q /\ (inject_Z (int_of b - 1) < b)%Q) /\
  (if number_le b (-1) then
     idx < 0 /\
     res o = Raise ValueError /\
     writes_to REG_MODEM_CONFIG_1 (log o) = []
   else
     0 <= idx <= 9 /\ (idx = 9 <-> (9 <= b)%Q /\ (b < 10)%Q) /\
     res o = Ok tt /\
     exists w,
       accesses (log o) =
         [Read REG_MODEM_CONFIG_1 r; Write REG_MODEM_CONFIG_1 w] /\
       Z.shiftr w 4 = idx /\ Z.land w 0x0F = Z.land r 0x0F).
Proof.
  cbv zeta. split; [|split; [|split]].
  - destruct (number_lt b 10) eqn:Hs.
    + apply bandwidth_index_small. now apply number_lt_iff.
    + apply bandwidth_index_table. now apply number_lt_false.
  - intro H. now destruct (int_of_nonneg b H) as (_ & ? & ?).
  - intro H. now destruct (int_of_nonpos b H) as (_ & ? & ?).
  - pose proof (bandwidth_index_sign b) as Hi.
    destruct (number_le b (-1)) eqn:Hb.
    + split; [exact Hi|].
      destruct (set_signal_bandwidth_raises b self Hb) as (s' & ->).
      reduce_outcome. split; [reflexivity|]. read_log. reflexivity.
    + split; [exact Hi|]. split.
      * destruct (Qlt_le_dec b 10) as [Hs|Hs].
        -- rewrite bandwidth_index_small by exact Hs.
           rewrite (int_of_nine b Hs). tauto.
        -- pose proof (bandwidth_index_bin b Hs).
           split; [lia|]. intros [_ H9]. exfalso.
           exact (Qlt_not_le _ _ H9 Hs).
      * destruct (set_signal_bandwidth_eq b self Hb) as (s' & a & ->).
        reduce_outcome. split; [reflexivity|].
        eexists. split; [read_log; reflexivity|].
        pose proof (answer_byte self REG_MODEM_CONFIG_1).
        split; [apply bw_config_fields; lia|].
        apply lor_land_keep, shiftl_4_low.
Qed.

(** *** Frequency *)

Lemma lor_shiftl_add hi lo n :
  0 <= n -> 0 <= lo < 2 ^ n -> Z.lor (Z.shiftl hi n) lo = hi * 2 ^ n + lo.
Proof.
  intros Hn Hlo.
  assert (Hz : Z.land (Z.shiftl hi n) lo = 0).
  { apply Z.bits_inj'. intros k Hk. rewrite Z.land_spec, Z.bits_0.
    destruct (Z.lt_ge_cases k n) as [Hlt|Hge].
    - rewrite Z.shiftl_spec_low by lia. reflexivity.
    - destruct (Z.eq_dec lo 0) as [->|Hne];
        [now rewrite Z.bits_0, andb_false_r|].
      rewrite (Z.bits_above_log2 lo k), andb_false_r; [reflexivity|lia|].
      assert (Z.log2 lo < n) by (apply Z.log2_lt_pow2; lia). lia. }
  rewrite <- Z.lxor_lor, <- Z.add_nocarry_lxor by exact Hz.
  now rewrite Z.shiftl_mul_pow2.
Qed.

Lemma frf_readback_bytes frf :
  0 <= frf < 2 ^ 24 ->
  frf_readback (Z.land (Z.shiftr frf 16) 0xFF)
               (Z.land (Z.shiftr frf 8) 0xFF) (Z.land frf 0xFF) = frf.
Proof.
  intro H. unfold frf_readback.
  change 0xFF with (Z.ones 8). rewrite !Z.land_ones by lia.
  rewrite !Z.shiftr_div_pow2 by lia.
  change (2 ^ 8) with 256. change (2 ^ 16) with 65536.
  change (2 ^ 24) with 16777216 in H.
  pose proof (Z.mod_pos_bound frf 256).
  pose proof (Z.mod_pos_bound (frf / 256) 256).
  rewrite (lor_shiftl_add _ (frf mod 256) 8) by (change (2 ^ 8) with 256; lia).
  rewrite (lor_shiftl_add _ _ 16)
    by (change (2 ^ 16) with 65536; change (2 ^ 8) with 256; lia).
  change (2 ^ 8) with 256. change (2 ^ 16) with 65536.
  rewrite (Z.mod_small (frf / 65536) 256).
  - pose proof (Z.div_mod frf 256). pose proof (Z.div_mod (frf / 256) 256).
    replace (frf / 65536) with (frf / 256 / 256)
      by (rewrite Z.div_div by lia; reflexivity).
    lia.
  - split; [apply Z.div_pos; lia|].
    apply Z.div_lt_upper_bound; lia.
Qed.

Lemma frf_of_step F :
  0 <= F < 1024000000 ->
  0 <= frf_of F < 2 ^ 24 /\
  frf_of F = Z.quot (F * 2 ^ 19) 32000000 /\
  frf_of F * 32000000 <= F * 2 ^ 19 < (frf_of F + 1) * 32000000.
Proof.
  intro H. unfold frf_of. rewrite Z.shiftl_mul_pow2 by lia.
  change (2 ^ 19) with 524288. change (2 ^ 24) with 16777216.
  pose proof (Z.div_mod (F * 524288) 32000000).
  pose proof (Z.mod_pos_bound (F * 524288) 32000000).
  repeat split.
  - apply Z.div_pos; lia.
  - apply Z.div_lt_upper_bound; lia.
  - symmetry. apply Z.quot_div_nonneg; lia.
  - lia.
  - lia.
Qed.

(** C5 (amended): set_frequency(f) computes
    frf = ((f + frequency_offset) << 19) // 32_000_000 (the floor, which is
    the truncated quotient here), writes it MSB first into the three Frf
    registers, and when f + frequency_offset lies in [0, 1.024 GHz) the
    three bytes read back give that frf, whose frequency
    frf * 32_000_000 / 2^19 is within one step below f + frequency_offset
    (so within one step of f when the offset is zero). *)
Theorem C5_set_frequency_within_one_step (f : Z) self
    (Hrange : 0 <= f + frequency_offset (parameters self) < 1024000000) :
  let F := f + frequency_offset (parameters self) in
  let o := set_frequency f self in
  res o = Ok tt /\
  frequency (parameters (post o)) = f /\
  exists msb mid lsb,
    accesses (log o) =
      [Write REG_FRF_MSB msb; Write REG_FRF_MID mid; Write REG_FRF_LSB lsb] /\
    frf_readback msb mid lsb = frf_of F /\
    frf_of F = Z.quot (F * 2 ^ 19) 32000000 /\
    frf_readback msb mid lsb * 32000000 <= F * 2 ^ 19
      < (frf_readback msb mid lsb + 1) * 32000000.
Proof.
  cbv zeta.
  destruct (set_frequency_eq f self) as (s' & a1 & a2 & a3 & -> & Hp).
  destruct (frf_of_step _ Hrange) as (Hb & Hq & Hs).
  reduce_outcome. split; [reflexivity|]. split; [exact Hp|].
  do 3 eexists. split; [read_log; reflexivity|].
  rewrite frf_readback_bytes by exact Hb. auto.
Qed.

(** *** Saturation *)

Lemma sf_config_fields r sf :
  0 <= r ->
  Z.shiftr (Z.lor (Z.land r 0x0F) (Z.land (Z.shiftl (clamp sf 6 12) 4) 0xF0))
           4 = clamp sf 6 12.
Proof.
  intro Hr. pose proof (clamp_range sf 6 12 ltac:(lia)).
  rewrite Z.shiftr_lor, !Z.shiftr_land, Z.shiftr_shiftl_l by lia.
  change (4 - 4) with 0. rewrite Z.shiftl_0_r.
  change (Z.shiftr 0x0F 4) with 0. rewrite Z.land_0_r, Z.lor_0_l.
  change (Z.shiftr 0xF0 4) with (Z.ones 4).
  rewrite Z.land_ones by lia. change (2 ^ 4) with 16.
  apply Z.mod_small. lia.
Qed.




(** *** Reception *)

(** C2: what received_packet does.  It reads the IRQ flags and writes the
    byte read back to clear them; it returns true exactly when that byte
    equals 0x40, RX-done alone, so with any other flag latched beside
    RX-done it returns false although a packet has been received and its
    flag has just been cleared.  When it returns false it reads the mode
    register and, unless the chip is in single-receive mode, resets the
    FIFO address pointer to the RX base address and switches to
    single-receive mode.  In between it only touches ModemConfig1 and the
    payload-length register (header mode and expected size). *)
Theorem C2_received_packet_polls_rx_done (size : Z) self :
  let o := received_packet size self in
  let v := answer self REG_IRQ_FLAGS in
  res o = Ok (v =? IRQ_RX_DONE_MASK) /\
  exists hdr m,
    accesses (log o) =
      Read REG_IRQ_FLAGS v :: Write REG_IRQ_FLAGS v :: hdr ++
      (if v =? IRQ_RX_DONE_MASK then []
       else Read REG_OP_MODE m ::
            (if m =? Z.lor MODE_LONG_RANGE_MODE MODE_RX_SINGLE then []
             else [Write REG_FIFO_ADDR_PTR FifoRxBaseAddr;
                   Write REG_OP_MODE
                     (Z.lor MODE_LONG_RANGE_MODE MODE_RX_SINGLE)])) /\
    within [REG_MODEM_CONFIG_1; REG_PAYLOAD_LENGTH] hdr = true.
Proof. apply received_packet_spec. Qed.

(** *** Construction *)

Lemma In_last_zero_prefix (vs : list Z) (d : option Z) :
  vs <> [] -> Forall (fun v => v = 0) (removelast vs) ->
  (last (map Some vs) d = Some 0x12 <-> In 0x12 vs).
Proof.
  revert d. induction vs as [|v vs IH]; intro d; [congruence|].
  intros _ Hz. destruct vs as [|v' vs].
  - cbn. split; [intros [= ->]; now left | intros [->|[]]; reflexivity].
  - change (removelast (v :: v' :: vs)) with (v :: removelast (v' :: vs))
      in Hz.
    inversion Hz as [|? ? Hv Hz']; subst.
    change (map Some (0 :: v' :: vs)) with (Some 0 :: map Some (v' :: vs)).
    rewrite last_cons.
    rewrite (IH (Some 0)); [ | congruence | exact Hz' ].
    split; [intro H; now right | intros [H|H]; [discriminate|exact H]].
Qed.

(** C3 (amended): construction reads the version register until a byte
    other than zero comes, at least once and at most five times: every read
    but the last returned zero, and the last one returned zero only if it
    was the fifth.  It ends in the fatal restart if and only if the last
    byte read is not 0x12, which is to say if and only if none of the reads
    made returned 0x12. *)
Theorem C3_version_probe
    (c : dev_state dev) (reset_pin : bool) (params : Parameters) :
  let o := construct c reset_pin params in
  let vs := reads_of REG_VERSION (log o) in
  (1 <= length vs <= 5)%nat /\
  Forall (fun v => v = 0) (removelast vs) /\
  (last vs 0 = 0 -> length vs = 5%nat) /\
  (res o = Raise MachineReset <-> last vs 0 <> 0x12) /\
  (res o = Raise MachineReset <-> ~ In 0x12 vs).
Proof.
  cbv zeta. unfold construct.
  set (self := {| chip := c; parameters := params; has_reset := reset_pin;
                  implicit_header_mode := None |}).
  remember (__init__ self) as o eqn:Ho. unfold __init__ in Ho.
  destruct (reset_module_quiet self) as [Q0 R0].
  destruct (res (reset_module self)) as [[]|e] eqn:E0.
  2:{ exfalso. revert E0. unfold reset_module.
      rewrite bind_getattr. destruct (has_reset self); [|discriminate].
      cbn. discriminate. }
  rewrite (bind_ok _ _ _ tt E0), bind_setattr in Ho.
  set (l0 := log (reset_module self)) in *.
  match type of Ho with
  | context [bind (poll_version 5 None) ?k ?s] =>
      destruct (poll_version_spec 5 None s)
        as (vs & s1 & E1 & Hlen & Hne & Hz & Hretry);
      unfold bind at 1 in Ho; rewrite E1 in Ho
  end.
  specialize (Hne ltac:(discriminate)).
  assert (Hvs : forall l2,
            forallb not_version_read l2 = true ->
            reads_of REG_VERSION
              (l0 ++ map (fun v => Transfer REG_VERSION 0x00 v) vs ++ l2)
            = vs).
  { intros l2 H2. rewrite !reads_of_app, reads_of_version_probe.
    rewrite (reads_of_none _ l0) by exact Q0.
    rewrite (reads_of_none _ l2) by exact H2.
    now rewrite app_nil_r. }
  pose proof (In_last_zero_prefix vs None Hne Hz) as Hin.
  assert (Hlen' : (1 <= length vs <= 5)%nat).
  { destruct vs; [congruence | cbn in *; lia]. }
  rewrite (last_map_Some vs None 0 Hne) in Ho, Hin.
  cbn [check_version] in Ho.
  destruct (last vs 0 =? 0x12) eqn:Hv.
  - apply Z.eqb_eq in Hv. rewrite bind_ret in Ho.
    destruct (configure_quiet s1) as [Q2 R2].
    subst o. reduce_outcome. rewrite Hvs by exact Q2.
    split; [exact Hlen'|]. split; [exact Hz|]. split; [exact (Hretry 0)|].
    split.
    + split; [intro H; now elim R2 | intro H; now elim H].
    + split; [intro H; now elim R2|].
      intro H; elim H. apply Hin. now rewrite Hv.
  - apply Z.eqb_neq in Hv. rewrite bind_raise in Ho.
    subst o. reduce_outcome. rewrite Hvs by reflexivity.
    split; [exact Hlen'|]. split; [exact Hz|]. split; [exact (Hretry 0)|].
    split.
    + split; [intros _; exact Hv | reflexivity].
    + split; [|reflexivity].
      intros _ H. apply Hin in H. injection H as H. contradiction.
Qed.

End Claims.

(** ** The chip follows the log *)

Section Replay.
Context {dev : Device}.
Implicit Types (self : ULoRa dev).

Lemma replay_app (c : dev_state dev) l1 l2 :
  replay c (l1 ++ l2) = replay (replay c l1) l2.
Proof. apply fold_left_app. Qed.

Lemma tracked_ret {A} (a : A) : tracked (dev := dev) (ret a).
Proof. intro self. reflexivity. Qed.

Lemma tracked_getattr {A} (f : ULoRa dev -> A) : tracked (getattr f).
Proof. intro self. reflexivity. Qed.

Lemma tracked_of_result {A} (r : result A) :
  tracked (dev := dev) (of_result r).
Proof. intro self. reflexivity. Qed.

Lemma tracked_setattr (f : ULoRa dev -> ULoRa dev) :
  (forall self, chip (f self) = chip self) -> tracked (setattr f).
Proof. intros H self. apply H. Qed.

Lemma tracked_transfer a v : tracked (dev := dev) (transfer a v).
Proof.
  intro self. unfold transfer.
  destruct (is_byte a); [destruct (is_byte v)|]; reflexivity.
Qed.

Lemma tracked_bind {A B} (m : M dev A) (k : A -> M dev B) :
  tracked m -> (forall a, tracked (k a)) -> tracked (bind m k).
Proof.
  intros Hm Hk self. unfold bind. specialize (Hm self).
  destruct (m self) as [[a|e] s l]; cbn [res post log] in *; [|exact Hm].
  unfold prepend. cbn [post log].
  rewrite replay_app, <- Hm. apply Hk.
Qed.

End Replay.

Ltac tracked_steps :=
  repeat first
    [ apply tracked_ret | apply tracked_getattr | apply tracked_of_result
    | apply tracked_setattr; intro; reflexivity
    | apply tracked_transfer
    | apply tracked_bind; [ | intro ]
    | match goal with
      | |- tracked (if ?c then _ else _) => destruct c
      | |- tracked (match ?c with _ => _ end) => destruct c
      end ].

Section Polling.
Context {dev : Device}.
Implicit Types (self : ULoRa dev).

Lemma received_packet_tracked size :
  tracked (dev := dev) (received_packet size).
Proof.
  cbv beta zeta delta
    [received_packet get_irq_flags set_implicit_header
     read_register write_register].
  tracked_steps.
Qed.

(** What [received_packet] does once the flags are read and written back. *)
Lemma received_packet_split size self :
  exists a rest,
    log (received_packet size self) =
      [Transfer REG_IRQ_FLAGS 0x00 (answer self REG_IRQ_FLAGS);
       Transfer (Z.lor REG_IRQ_FLAGS 0x80) (answer self REG_IRQ_FLAGS) a]
      ++ rest /\
    forallb off_irq_flags rest = true.
Proof.
  unfold received_packet, get_irq_flags.
  rewrite bind_bind, bind_read.
  rewrite bind_bind, bind_write;
    [ | reflexivity | apply is_byte_true, answer_byte ].
  rewrite bind_ret.
  match goal with
  | |- context [bind ?m ?k ?s] =>
      assert (Q : quiet off_irq_flags (bind m k))
  end.
  { cbv beta zeta delta
      [set_implicit_header read_register write_register].
    quiet_steps. }
  match goal with
  | |- context [bind ?m ?k ?s] => destruct (Q s) as [Hq _]
  end.
  reduce_outcome. do 2 eexists. split; [reflexivity | exact Hq].
Qed.

End Polling.

(** On the simulated chip. *)

Lemma sim_off_irq_flags (c : Sim.state) e :
  off_irq_flags e = true ->
  Sim.regs (after_event (dev := sx127x) c e) REG_IRQ_FLAGS
  = Sim.regs c REG_IRQ_FLAGS.
Proof.
  destruct e as [a v r| | |]; cbn [off_irq_flags]; try discriminate;
    [|reflexivity].
  intro H. apply negb_true_iff in H.
  cbn [after_event sx127x spi_transfer Sim.transfer snd].
  destruct (Z.testbit a 7); [|reflexivity].
  destruct (Z.land a 0x7F =? REG_FIFO); [reflexivity|].
  rewrite H.
  destruct (Z.land a 0x7F =? REG_VERSION); [reflexivity|].
  cbn [Sim.poke Sim.regs].
  rewrite Z.eqb_sym, H. reflexivity.
Qed.

Lemma sim_replay_off_irq_flags l (c : Sim.state) :
  forallb off_irq_flags l = true ->
  Sim.regs (replay (dev := sx127x) c l) REG_IRQ_FLAGS
  = Sim.regs c REG_IRQ_FLAGS.
Proof.
  revert c. induction l as [|e l IH]; intros c; [reflexivity|].
  cbn [forallb]. rewrite andb_true_iff. intros [He Hl].
  change (replay (dev := sx127x) c (e :: l))
    with (replay (dev := sx127x) (after_event (dev := sx127x) c e) l).
  rewrite IH by exact Hl. now apply sim_off_irq_flags.
Qed.

Lemma sim_received_packet_clears (self : ULoRa sx127x) size :
  Sim.regs (chip (post (received_packet size self))) REG_IRQ_FLAGS = 0.
Proof.
  rewrite received_packet_tracked.
  destruct (received_packet_split size self) as (a & rest & -> & Hq).
  rewrite replay_app, sim_replay_off_irq_flags by exact Hq.
  unfold answer. cbn. apply Z.land_lnot_diag.
Qed.

(** C10: on every poll get_irq_flags writes back to the IRQ-flags register
    the very byte it read, whatever received_packet then returns; the call
    returns false whenever the CRC-error or the RX-timeout flag is latched,
    so such a flag is consumed without being reported.  On the simulated
    chip, where writing a one clears a flag, no flag is left after the
    call. *)
Theorem C10_poll_consumes_every_flag :
  (forall (dev : Device) (self : ULoRa dev) (size : Z),
     let o := received_packet size self in
     let v := answer self REG_IRQ_FLAGS in
     (exists rest,
        accesses (log o) =
          Read REG_IRQ_FLAGS v :: Write REG_IRQ_FLAGS v :: rest) /\
     res o = Ok (v =? IRQ_RX_DONE_MASK) /\
     (Z.land v IRQ_PAYLOAD_CRC_ERROR_MASK = 0 \/ res o = Ok false) /\
     (Z.land v IRQ_RX_TIME_OUT_MASK = 0 \/ res o = Ok false)) /\
  (forall (self : ULoRa sx127x) (size : Z),
     Sim.regs (chip (post (received_packet size self))) REG_IRQ_FLAGS = 0).
Proof.
  split; [|exact sim_received_packet_clears].
  intros dev self size. cbv zeta.
  destruct (received_packet_spec size self) as (Hr & hdr & m & Hl & _).
  split; [eexists; exact Hl|]. split; [exact Hr|].
  rewrite Hr.
  destruct (Z.eqb_spec (answer self REG_IRQ_FLAGS) IRQ_RX_DONE_MASK)
    as [->|Hne].
  - split; left; reflexivity.
  - split; right; reflexivity.
Qed.

(** * Scenarios on the simulated chip *)

(** C1: write returns min(len(buffer), 255 - L) and adds that count to the
    payload-length register, but it writes every byte of the buffer to the
    FIFO register, accepted or not.  With nothing written yet, a 256-byte
    buffer makes write return 255 and record 255, yet all 256 bytes reach
    the FIFO. *)
Theorem C1_write_overruns_fifo :
  (forall (dev : Device) (self : ULoRa dev) (buffer : list Byte.byte),
     let o := write buffer self in
     let L := answer self REG_PAYLOAD_LENGTH in
     let n := Z.min (Z.of_nat (length buffer)) (255 - L) in
     res o = Ok n /\
     accesses (log o) =
       Read REG_PAYLOAD_LENGTH L ::
       map (fun b => Write REG_FIFO (int_of_byte b)) buffer ++
       [Write REG_PAYLOAD_LENGTH (L + n)]) /\
  (let self := post (begin_packet None radio) in
   let buffer := repeat Byte.x41 256 in
   let o := write buffer self in
   answer self REG_PAYLOAD_LENGTH = 0 /\
   res o = Ok 255 /\
   writes_to REG_PAYLOAD_LENGTH (log o) = [255] /\
   length (writes_to REG_FIFO (log o)) = 256%nat /\
   length (Sim.fifo (chip (post o))) = 256%nat).
Proof.
  split.
  - intros dev self buffer. apply write_spec.
  - vm_compute. repeat split.
Qed.

(** Against C2: with RX-done and valid-header both latched (0x50) the
    RX-done bit is set, yet received_packet returns false; the flags are
    cleared by the call, so the next poll returns false too and the packet
    is never reported. *)
Lemma C2_counterexample :
  let self := latched radio 0x50 in
  let o := received_packet 0 self in
  answer self REG_IRQ_FLAGS = 0x50 /\
  Z.land 0x50 IRQ_RX_DONE_MASK = IRQ_RX_DONE_MASK /\
  res o = Ok false /\
  Sim.regs (chip (post o)) REG_IRQ_FLAGS = 0 /\
  res (received_packet 0 (post o)) = Ok false.
Proof. vm_compute. repeat split. Qed.

(** Against C3 as stated: a chip that answers 0xFF to the first read of
    the version register and 0x12 from then on.  Construction reads the
    register once and restarts the host; the byte 0x12 that the next of the
    five reads would have returned is never asked for. *)
Lemma C3_counterexample :
  let o := construct (dev := glitching) O false DEFAULT_PARAMETERS in
  reads_of REG_VERSION (log o) = [0xFF] /\
  res o = Raise MachineReset /\
  answer (post o) REG_VERSION = 0x12.
Proof. vm_compute. repeat split. Qed.

(** Against C4 as stated: the request 9 is below 10, so it is taken as the
    index; 9 is outside [0,8] and is what ModemConfig1 receives (0x72
    becomes 0x92).  The same holds for the request 9.5. *)
Lemma C4_counterexample :
  let o := set_signal_bandwidth 9 radio in
  bandwidth_index 9 = 9 /\ ~ (0 <= bandwidth_index 9 <= 8) /\
  res o = Ok tt /\
  writes_to REG_MODEM_CONFIG_1 (log o) = [0x92] /\
  bandwidth_index (19 # 2) = 9.
Proof.
  vm_compute. repeat split. intros [_ H]. apply H. reflexivity.
Qed.

(** Against C5 as stated: with a frequency offset of 1000 Hz the three Frf
    registers read back as 433 000 976 Hz for f = 433 000 000 Hz, more than
    one step (about 61 Hz) away from f. *)
Lemma C5_counterexample :
  let self :=
    constructed Sim.power_on (with_frequency_offset DEFAULT_PARAMETERS 1000) in
  let f := 433000000 in
  let o := set_frequency f self in
  let regs := Sim.regs (chip (post o)) in
  let frf := frf_readback (regs REG_FRF_MSB) (regs REG_FRF_MID)
                          (regs REG_FRF_LSB) in
  res o = Ok tt /\
  frf * 32000000 / 2 ^ 19 = f + 976 /\
  ~ (f * 2 ^ 19 < (frf + 1) * 32000000 + 32000000
     /\ frf * 32000000 - 32000000 < f * 2 ^ 19).
Proof.
  vm_compute. repeat split. intros [_ H]. discriminate H.
Qed.



(** The frequency theorem applies to the default 433 MHz on a fresh
    driver object. *)
Lemma C5_witness :
  let self := fresh Sim.power_on DEFAULT_PARAMETERS in
  0 <= 433000000 + frequency_offset (parameters self) < 1024000000 /\
  res (set_frequency 433000000 self) = Ok tt /\
  frequency (parameters (post (set_frequency 433000000 self))) = 433000000.
Proof.
  cbv zeta.
  assert (H : 0 <= 433000000
              + frequency_offset
                  (parameters (fresh Sim.power_on DEFAULT_PARAMETERS))
              < 1024000000) by (cbn; lia).
  split; [exact H|].
  pose proof (C5_set_frequency_within_one_step 433000000
                (fresh Sim.power_on DEFAULT_PARAMETERS) H) as T.
  cbv zeta in T. destruct T as (T1 & T2 & _). split; [exact T1 | exact T2].
Defined.

(** * Beyond the claims *)

Section MoreMethods.
Context {dev : Device}.
Implicit Types (self : ULoRa dev).

(** *** Reading a packet *)

Lemma read_fifo_spec n payload self :
  exists bs s' l,
    read_fifo n payload self =
      {| res := Ok (payload ++ bs); post := s'; log := l |} /\
    length bs = n /\
    accesses l = map (Read REG_FIFO) bs /\
    Forall (fun b => 0 <= b < 256) bs.
Proof.
  revert payload self. induction n as [|n IH]; intros payload self.
  - exists [], self, []. rewrite app_nil_r. repeat split. constructor.
  - cbn [read_fifo]. rewrite bind_read.
    match goal with
    | |- context [read_fifo n ?p ?s] =>
        destruct (IH p s) as (bs & s' & l & -> & Hn & Hl & Hb)
    end.
    exists (answer self REG_FIFO :: bs), s'. eexists.
    reduce_outcome. rewrite <- app_assoc. split; [reflexivity|].
    split; [cbn [length]; now rewrite Hn|].
    split.
    + read_accesses. rewrite Hl. reflexivity.
    + constructor; [apply answer_byte | exact Hb].
Qed.

Lemma read_payload_spec self :
  let o := read_payload self in
  let current := answer self REG_FIFO_RX_CURRENT_ADDR in
  let length_register :=
    match implicit_header_mode self with
    | Some true => REG_PAYLOAD_LENGTH
    | _ => REG_RX_NB_BYTES
    end in
  exists n payload,
    res o = Ok payload /\
    Z.of_nat (length payload) = n /\ 0 <= n < 256 /\
    Forall (fun b => 0 <= b < 256) payload /\
    accesses (log o) =
      Read REG_FIFO_RX_CURRENT_ADDR current ::
      Write REG_FIFO_ADDR_PTR current ::
      Read length_register n ::
      map (Read REG_FIFO) payload.
Proof.
  cbv zeta. remember (read_payload self) as o eqn:Ho.
  unfold read_payload in Ho. rewrite bind_read in Ho.
  rewrite bind_write in Ho;
    [ | reflexivity | apply is_byte_true, answer_byte ].
  rewrite bind_getattr in Ho. cbn [implicit_header_mode with_chip] in Ho.
  set (c := answer self REG_FIFO_RX_CURRENT_ADDR) in *.
  assert (E : forall reg s k,
             bind (B := list Z) (read_register reg) k s =
             prepend [Transfer (Z.land reg 0x7F) 0x00 (answer s reg)]
               (k (answer s reg)
                  (with_chip s
                     (snd (spi_transfer dev (chip s) (Z.land reg 0x7F)
                             0x00))))) by (intros; apply bind_read).
  destruct (implicit_header_mode self) as [[|]|]; cbn [truthy] in Ho;
    rewrite E in Ho; clear E;
    match type of Ho with
    | context [answer ?s ?reg] =>
        lazymatch reg with
        | REG_FIFO_RX_CURRENT_ADDR => fail
        | _ =>
            pose proof (answer_byte s reg) as Hn;
            set (n := answer s reg) in *
        end
    end;
    match type of Ho with
    | context [bind (read_fifo ?k ?p) ?f ?s] =>
        destruct (read_fifo_spec k p s) as (bs & s' & l & E & Hk & Hl & Hb);
        unfold bind at 1 in Ho; rewrite E in Ho
    end;
    unfold collect_garbage in Ho; rewrite bind_ret in Ho;
    subst o; reduce_outcome;
    exists n, bs;
    (split; [reflexivity|]);
    (split; [rewrite Hk; apply Z2Nat.id; lia|]);
    (split; [exact Hn|]); (split; [exact Hb|]);
    rewrite app_nil_r; read_accesses; rewrite Hl; reflexivity.
Qed.

(** X1: read_payload points the FIFO at the address the chip reports for
    the packet, takes the length from the payload-length register in
    implicit-header mode and from the received-byte count otherwise (also
    while the header mode is still unset), and returns exactly that many
    bytes, each the answer to one read of the FIFO register, in order; it
    never raises and writes nothing but the FIFO pointer. *)
Theorem X1_read_payload_returns_the_announced_bytes self :
  let o := read_payload self in
  let current := answer self REG_FIFO_RX_CURRENT_ADDR in
  let length_register :=
    match implicit_header_mode self with
    | Some true => REG_PAYLOAD_LENGTH
    | _ => REG_RX_NB_BYTES
    end in
  exists n payload,
    res o = Ok payload /\
    Z.of_nat (length payload) = n /\ 0 <= n < 256 /\
    Forall (fun b => 0 <= b < 256) payload /\
    accesses (log o) =
      Read REG_FIFO_RX_CURRENT_ADDR current ::
      Write REG_FIFO_ADDR_PTR current ::
      Read length_register n ::
      map (Read REG_FIFO) payload.
Proof. apply read_payload_spec. Qed.

(** *** Telemetry *)

(** X2: packet_rssi reads the RSSI register once, writes nothing, and
    returns the byte read minus 157 on the high band and minus 164 on the
    low band, so a value in [-157, 98] or [-164, 91]. *)
Theorem X2_packet_rssi_offsets (high_frequency : bool) self :
  let o := packet_rssi high_frequency self in
  let raw := answer self REG_PKT_RSSI_VALUE in
  accesses (log o) = [Read REG_PKT_RSSI_VALUE raw] /\
  exists rssi,
    res o = Ok rssi /\
    raw = rssi + (if high_frequency then 157 else 164) /\
    (if high_frequency then -157 <= rssi <= 98 else -164 <= rssi <= 91).
Proof.
  cbv zeta. unfold packet_rssi. rewrite bind_read. reduce_outcome.
  pose proof (answer_byte self REG_PKT_RSSI_VALUE).
  split; [read_accesses; reflexivity|].
  eexists. split; [reflexivity|]. destruct high_frequency; lia.
Qed.

(** X3: packet_snr takes the SNR register as an unsigned byte: the value
    returned is a quarter of the byte read, between 0 and 63.75, never
    negative. *)
Theorem X3_packet_snr_is_never_negative self :
  let o := packet_snr self in
  let raw := answer self REG_PKT_SNR_VALUE in
  accesses (log o) = [Read REG_PKT_SNR_VALUE raw] /\
  exists snr,
    res o = Ok snr /\
    (snr * 4 == inject_Z raw)%Q /\ (0 <= snr)%Q /\ (snr <= 255 # 4)%Q.
Proof.
  cbv zeta. unfold packet_snr. rewrite bind_read. reduce_outcome.
  pose proof (answer_byte self REG_PKT_SNR_VALUE) as Hb.
  set (raw := answer self REG_PKT_SNR_VALUE) in *.
  split; [read_accesses; reflexivity|].
  eexists. split; [reflexivity|].
  split; [|split].
  - unfold Qeq, Qmult, inject_Z. cbn. lia.
  - unfold Qle, Qmult, inject_Z. cbn. lia.
  - unfold Qle, Qmult, inject_Z. cbn. lia.
Qed.

(** *** Spreading factor and sync word *)

(** X4: set_spreading_factor writes the detection-optimize and
    detection-threshold registers before ModemConfig2: 0xC5 and 0x0C for a
    request of 6 or less (which is clamped to SF6), 0xC3 and 0x0A for any
    larger request. *)
Theorem X4_spreading_factor_six_detection (sf : Z) self :
  let o := set_spreading_factor sf self in
  exists r w,
    accesses (log o) =
      [Write REG_DETECTION_OPTIMIZE (if sf <=? 6 then 0xC5 else 0xC3);
       Write REG_DETECTION_THRESHOLD (if sf <=? 6 then 0x0C else 0x0A);
       Read REG_MODEM_CONFIG_2 r;
       Write REG_MODEM_CONFIG_2 w] /\
    Z.shiftr w 4 = (if sf <=? 6 then 6 else Z.min sf 12).
Proof.
  cbv zeta.
  destruct (set_spreading_factor_eq sf self)
    as (s' & r & a1 & a2 & a3 & -> & Hr).
  reduce_outcome. do 2 eexists.
  assert (Hc : (clamp sf 6 12 =? 6) = (sf <=? 6)).
  { unfold clamp. destruct (Z.leb_spec sf 6);
      [apply Z.eqb_eq | apply Z.eqb_neq]; lia. }
  split.
  - read_log. rewrite Hc. reflexivity.
  - rewrite sf_config_fields by lia. unfold clamp.
    destruct (Z.leb_spec sf 6); lia.
Qed.

(** X5: set_sync_word does not clamp: a sync word in 0..255 is written as
    it is, any other one raises ValueError after the address byte of the
    write has been clocked out, leaving the register unwritten. *)
Theorem X5_sync_word_is_not_clamped (sw : Z) self :
  let o := set_sync_word sw self in
  if is_byte sw then
    res o = Ok tt /\ accesses (log o) = [Write REG_SYNC_WORD sw]
  else
    res o = Raise ValueError /\
    accesses (log o) = [Failed [Z.lor REG_SYNC_WORD 0x80]].
Proof.
  cbv zeta. unfold set_sync_word. destruct (is_byte sw) eqn:Hb.
  - rewrite write_register_eq by (reflexivity || exact Hb).
    reduce_outcome. split; [reflexivity|]. read_accesses. reflexivity.
  - rewrite write_register_raises by (reflexivity || exact Hb).
    split; reflexivity.
Qed.

End MoreMethods.

Section Construction.
Context {dev : Device}.
Implicit Types (self : ULoRa dev).

(** *** Methods that always return *)

Lemma res_bind_ok {B} (m : M dev unit) (k : unit -> M dev B) self :
  always_ok m -> res (bind m k self) = res (k tt (post (m self))).
Proof. intro H. now rewrite (bind_ok m k self tt (H self)). Qed.

Lemma res_bind_raise {A B} (m : M dev A) (k : A -> M dev B) self e :
  res (m self) = Raise e -> res (bind m k self) = Raise e.
Proof.
  unfold bind. destruct (m self) as [[a|e'] s l]; cbn; congruence.
Qed.

Lemma always_ok_param {X} (f : Parameters -> X) (setter : X -> M dev unit) :
  (forall x, always_ok (setter x)) ->
  always_ok (x <- param f ;; setter x).
Proof. intros H self. unfold param. rewrite bind_getattr. apply H. Qed.

Lemma write_constant_ok reg v :
  is_byte (Z.lor reg 0x80) = true -> is_byte v = true ->
  always_ok (dev := dev) (write_register reg v).
Proof. intros Ha Hv self. now rewrite write_register_eq. Qed.

Lemma set_frequency_ok f : always_ok (dev := dev) (set_frequency f).
Proof.
  intro self.
  now destruct (set_frequency_eq f self) as (s' & a1 & a2 & a3 & -> & _).
Qed.

Lemma lna_boost_ok :
  always_ok (dev := dev)
    (r <- read_register REG_LNA ;; write_register REG_LNA (Z.lor r 0x03)).
Proof.
  intro self. rewrite bind_read.
  rewrite write_register_eq; [reflexivity | reflexivity |].
  apply is_byte_true. pose proof (answer_byte self REG_LNA).
  apply lor_byte; lia.
Qed.

Lemma set_tx_power_ok level pin :
  always_ok (dev := dev) (set_tx_power level pin).
Proof.
  intro self. now destruct (set_tx_power_eq level pin self) as (s' & a & ->).
Qed.

Lemma set_implicit_header_ok x :
  always_ok (dev := dev) (set_implicit_header x).
Proof. intro self. apply set_implicit_header_spec. Qed.

Lemma set_spreading_factor_ok sf :
  always_ok (dev := dev) (set_spreading_factor sf).
Proof.
  intro self.
  now destruct (set_spreading_factor_eq sf self)
    as (s' & r & a1 & a2 & a3 & -> & _).
Qed.

Lemma set_coding_rate_ok d : always_ok (dev := dev) (set_coding_rate d).
Proof.
  intro self. now destruct (set_coding_rate_eq d self) as (s' & a & ->).
Qed.

Lemma set_preamble_length_ok len :
  always_ok (dev := dev) (set_preamble_length len).
Proof.
  intro self.
  now destruct (set_preamble_length_eq len self) as (s' & a1 & a2 & ->).
Qed.

Lemma enable_crc_ok e : always_ok (dev := dev) (enable_crc e).
Proof.
  intro self. now destruct (enable_crc_eq e self) as (s' & a & ->).
Qed.

Lemma invert_iq_ok i : always_ok (dev := dev) (invert_iq i).
Proof.
  intro self. now destruct (invert_iq_eq i self) as (s' & a1 & a2 & ->).
Qed.

(** *** Methods that keep a part of the object *)

Lemma keeps_ret {A X} (f : ULoRa dev -> X) (a : A) : keeps f (ret a).
Proof. intro self. reflexivity. Qed.

Lemma keeps_raise {A X} (f : ULoRa dev -> X) e :
  keeps (A := A) f (raise e).
Proof. intro self. reflexivity. Qed.

Lemma keeps_getattr {A X} (f : ULoRa dev -> X) (g : ULoRa dev -> A) :
  keeps f (getattr g).
Proof. intro self. reflexivity. Qed.

Lemma keeps_emit {X} (f : ULoRa dev -> X) e : keeps f (emit e).
Proof. intro self. reflexivity. Qed.

Lemma keeps_of_result {A X} (f : ULoRa dev -> X) (r : result A) :
  keeps f (of_result r).
Proof. intro self. reflexivity. Qed.

Lemma keeps_setattr {X} (f : ULoRa dev -> X) (g : ULoRa dev -> ULoRa dev) :
  (forall self, f (g self) = f self) -> keeps f (setattr g).
Proof. intros H self. apply H. Qed.

Lemma keeps_transfer {X} (f : ULoRa dev -> X) a v :
  (forall self c, f (with_chip self c) = f self) -> keeps f (transfer a v).
Proof.
  intros H self. unfold transfer.
  destruct (is_byte a); [destruct (is_byte v)|]; apply H.
Qed.

Lemma keeps_bind {A B X} (f : ULoRa dev -> X)
    (m : M dev A) (k : A -> M dev B) :
  keeps f m -> (forall a, keeps f (k a)) -> keeps f (bind m k).
Proof.
  intros Hm Hk self. unfold bind. specialize (Hm self).
  destruct (m self) as [[a|e] s l]; cbn [res post log] in *; [|exact Hm].
  unfold prepend. cbn [post]. now rewrite Hk.
Qed.

End Construction.

Ltac keeps_steps :=
  repeat first
    [ apply keeps_ret | apply keeps_raise | apply keeps_getattr
    | apply keeps_emit | apply keeps_of_result
    | apply keeps_setattr; intro; reflexivity
    | apply keeps_transfer; intros; reflexivity
    | apply keeps_bind; [ | intro ]
    | match goal with
      | |- keeps _ (if ?c then _ else _) => destruct c
      | |- keeps _ (match ?c with _ => _ end) => destruct c
      end ].

Ltac keeps_method :=
  cbv beta zeta delta
    [configure sleep standby set_frequency set_signal_bandwidth
     set_tx_power set_implicit_header set_spreading_factor set_coding_rate
     set_preamble_length set_sync_word enable_crc invert_iq
     low_data_rate_check reset_module param read_register write_register];
  keeps_steps.

Section Construction2.
Context {dev : Device}.
Implicit Types (self : ULoRa dev).


(** One statement of [configure] that returns and keeps the checked
    parameters: the outcome is that of what follows. *)
Lemma through {B} v (R : result B) (m : M dev unit) (k : unit -> M dev B)
    self :
  always_ok m -> keeps checked_parameters m ->
  checked_parameters self = v ->
  (forall s, checked_parameters s = v -> res (k tt s) = R) ->
  res (bind m k self) = R.
Proof.
  intros Hok Hk Hv Hnext. rewrite res_bind_ok by exact Hok.
  apply Hnext. now rewrite Hk.
Qed.

Lemma low_data_rate_check_outcome self :
  res (low_data_rate_check self) =
  match symbol_duration_exceeds (signal_bandwidth (parameters self))
                                (spreading_factor (parameters self)) with
  | Raise e => Raise e
  | Ok _ => Ok tt
  end.
Proof.
  unfold low_data_rate_check. rewrite !bind_getattr.
  destruct (symbol_duration_exceeds _ _) as [[|]|e].
  - rewrite bind_of_result_ok, bind_read.
    rewrite write_register_eq; [reflexivity | reflexivity |].
    apply is_byte_true. pose proof (answer_byte self REG_MODEM_CONFIG_3).
    apply lor_byte; lia.
  - now rewrite bind_of_result_ok.
  - now rewrite bind_of_result_raise.
Qed.

Lemma configure_outcome self :
  res (configure self) = construction_result (parameters self).
Proof.
  unfold construction_result.
  remember (checked_parameters self) as v eqn:Hv. symmetry in Hv.
  destruct v as [[bw sw] sf].
  assert (Hbw : bw = signal_bandwidth (parameters self))
    by (now injection Hv).
  assert (Hsw : sw = sync_word (parameters self)) by (now injection Hv).
  assert (Hsf : sf = spreading_factor (parameters self))
    by (now injection Hv).
  rewrite <- Hbw, <- Hsw, <- Hsf. clear Hbw Hsw Hsf.
  unfold configure. revert self Hv.
  assert (Hget : forall s : ULoRa dev, checked_parameters s = (bw, sw, sf) ->
            signal_bandwidth (parameters s) = bw /\
            sync_word (parameters s) = sw /\
            spreading_factor (parameters s) = sf).
  { intros s [= <- <- <-]. repeat split. }
  intros self Hv.
  (* sleep, frequency *)
  eapply through; [apply write_constant_ok; reflexivity | keeps_method
                  | exact Hv | clear self Hv; intros self Hv].
  eapply through; [apply always_ok_param, set_frequency_ok | keeps_method
                  | exact Hv | clear self Hv; intros self Hv].
  (* bandwidth *)
  destruct (number_le bw (-1)) eqn:Hneg.
  { apply res_bind_raise. unfold param. rewrite bind_getattr.
    destruct (Hget self Hv) as (-> & _).
    now destruct (set_signal_bandwidth_raises bw self Hneg) as (s' & ->). }
  rewrite (bind_ok _ _ self tt).
  2:{ unfold param. rewrite bind_getattr.
      destruct (Hget self Hv) as (-> & _).
      now destruct (set_signal_bandwidth_eq bw self Hneg)
        as (s' & a & ->). }
  unfold prepend; cbn [res].
  match goal with
  | |- context [post (?m self)] =>
      assert (Hv' : checked_parameters (post (m self)) = (bw, sw, sf))
        by (rewrite <- Hv;
            apply (ltac:(keeps_method) : keeps checked_parameters m));
      generalize dependent (post (m self))
  end.
  clear self Hv. intros self Hv.
  eapply through; [apply lna_boost_ok | keeps_method
                  | exact Hv | clear self Hv; intros self Hv].
  eapply through; [apply write_constant_ok; reflexivity | keeps_method
                  | exact Hv | clear self Hv; intros self Hv].
  eapply through; [apply always_ok_param; intro; apply set_tx_power_ok
                  | keeps_method
                  | exact Hv | clear self Hv; intros self Hv].
  eapply through; [apply always_ok_param, set_implicit_header_ok
                  | keeps_method
                  | exact Hv | clear self Hv; intros self Hv].
  eapply through; [apply always_ok_param, set_spreading_factor_ok
                  | keeps_method
                  | exact Hv | clear self Hv; intros self Hv].
  eapply through; [apply always_ok_param, set_coding_rate_ok
                  | keeps_method
                  | exact Hv | clear self Hv; intros self Hv].
  eapply through; [apply always_ok_param, set_preamble_length_ok
                  | keeps_method
                  | exact Hv | clear self Hv; intros self Hv].
  (* sync word *)
  destruct (is_byte sw) eqn:Hsw; cbn [negb].
  2:{ apply res_bind_raise. unfold param. rewrite bind_getattr.
      destruct (Hget self Hv) as (_ & -> & _). unfold set_sync_word.
      now rewrite write_register_raises by (reflexivity || exact Hsw). }
  rewrite (bind_ok _ _ self tt).
  2:{ unfold param. rewrite bind_getattr.
      destruct (Hget self Hv) as (_ & -> & _). unfold set_sync_word.
      now rewrite write_register_eq by (reflexivity || exact Hsw). }
  unfold prepend; cbn [res].
  match goal with
  | |- context [post (?m self)] =>
      assert (Hv' : checked_parameters (post (m self)) = (bw, sw, sf))
        by (rewrite <- Hv;
            apply (ltac:(keeps_method) : keeps checked_parameters m));
      generalize dependent (post (m self))
  end.
  clear self Hv. intros self Hv.
  eapply through; [apply always_ok_param, enable_crc_ok | keeps_method
                  | exact Hv | clear self Hv; intros self Hv].
  eapply through; [apply always_ok_param, invert_iq_ok | keeps_method
                  | exact Hv | clear self Hv; intros self Hv].
  (* low data rate check *)
  pose proof (low_data_rate_check_outcome self) as Hc.
  destruct (Hget self Hv) as (Eb & _ & Es). rewrite Eb, Es in Hc.
  destruct (symbol_duration_exceeds bw sf) as [x|e].
  2:{ now apply res_bind_raise. }
  rewrite (bind_ok _ _ self tt Hc).
  unfold prepend; cbn [res].
  rewrite res_bind_ok by (apply write_constant_ok; reflexivity).
  rewrite res_bind_ok by (apply write_constant_ok; reflexivity).
  apply write_constant_ok; reflexivity.
Qed.





Lemma reset_module_ok : always_ok (dev := dev) reset_module.
Proof.
  intro self. unfold reset_module. rewrite bind_getattr.
  destruct (has_reset self); reflexivity.
Qed.


(** *** Where construction ends *)

Lemma ends_with_bind {A B} last_is (m : M dev A) (k : A -> M dev B) :
  (forall a, ends_with last_is (k a)) -> ends_with last_is (bind m k).
Proof.
  intros Hk self b. unfold bind.
  destruct (m self) as [[a|e] s l]; [|discriminate].
  unfold prepend. cbn [res log]. intro H.
  destruct (Hk a s b H) as (l' & e & -> & He).
  exists (l ++ l'), e. now rewrite app_assoc.
Qed.

Lemma standby_ends :
  ends_with (dev := dev)
    (fun e => access_of e
              = Write REG_OP_MODE (Z.lor MODE_LONG_RANGE_MODE MODE_STDBY))
    standby.
Proof.
  intros self a _. unfold standby.
  rewrite write_register_eq by reflexivity. reduce_outcome.
  exists []. eexists. split; [reflexivity|]. now rewrite access_write by reg_range.
Qed.

Lemma accesses_version_probe vs :
  forallb writes_nothing
    (accesses (map (fun v => Transfer REG_VERSION 0x00 v) vs)) = true.
Proof. induction vs as [|v vs IH]; [reflexivity | exact IH]. Qed.


Lemma forallb_accesses (f : access -> bool) l :
  forallb f (accesses l) = forallb (fun e => f (access_of e)) l.
Proof.
  induction l as [|e l IH]; [reflexivity|].
  rewrite accesses_cons. cbn [forallb]. now rewrite IH.
Qed.

Lemma reset_module_writes_nothing :
  quiet (dev := dev) (fun e => writes_nothing (access_of e)) reset_module.
Proof. quiet_method. Qed.

Lemma configure_log self :
  res (configure self) = Ok tt ->
  exists middle,
    accesses (log (configure self)) =
      Write REG_OP_MODE (Z.lor MODE_LONG_RANGE_MODE MODE_SLEEP) ::
      middle ++
      [Write REG_OP_MODE (Z.lor MODE_LONG_RANGE_MODE MODE_STDBY)].
Proof.
  unfold configure, sleep. rewrite bind_write by reflexivity.
  unfold prepend. cbn [res log]. intro H.
  match type of H with
  | res (?rest ?s) = _ =>
      assert (He : ends_with
                     (fun e => access_of e
                               = Write REG_OP_MODE
                                   (Z.lor MODE_LONG_RANGE_MODE MODE_STDBY))
                     rest)
  end.
  { repeat lazymatch goal with
           | |- ends_with _ (bind _ _) => apply ends_with_bind; intro
           end.
    apply standby_ends. }
  destruct (He _ _ H) as (l & e & -> & Hl).
  exists (accesses l). read_accesses. rewrite Hl. reflexivity.
Qed.

Lemma construct_log
    (c : dev_state dev) (reset_pin : bool) (params : Parameters) :
  let o := construct c reset_pin params in
  res o = Ok tt ->
  exists probe middle,
    accesses (log o) =
      probe ++
      Write REG_OP_MODE (Z.lor MODE_LONG_RANGE_MODE MODE_SLEEP) ::
      middle ++
      [Write REG_OP_MODE (Z.lor MODE_LONG_RANGE_MODE MODE_STDBY)] /\
    forallb writes_nothing probe = true.
Proof.
  cbv zeta. unfold construct.
  generalize ({| chip := c; parameters := params; has_reset := reset_pin;
                 implicit_header_mode := None |}).
  intro self. unfold __init__.
  destruct (reset_module_writes_nothing self) as [Q0 _].
  rewrite (bind_ok _ _ self tt (reset_module_ok self)).
  remember (log (reset_module self)) as l0 eqn:El0.
  generalize (post (reset_module self)). clear El0 self. intro self.
  rewrite bind_setattr.
  generalize (with_implicit_header_mode self None). clear self. intro self.
  destruct (poll_version_spec 5 None self) as (vs & s1 & E1 & _).
  rewrite (bind_ok _ _ self (last (map Some vs) None))
    by (rewrite E1; reflexivity).
  rewrite E1. unfold prepend. cbn [res post log].
  destruct (last (map Some vs) None) as [v|]; cbn [check_version];
    [destruct (v =? 0x12)|]; try discriminate.
  rewrite bind_ret. intro H.
  destruct (configure_log s1 H) as (middle & Hm).
  exists (accesses l0
          ++ accesses (map (fun v => Transfer REG_VERSION 0x00 v) vs)),
         middle.
  split.
  - rewrite !accesses_app, Hm, <- app_assoc. reflexivity.
  - rewrite forallb_app, accesses_version_probe, andb_true_r.
    rewrite forallb_accesses. exact Q0.
Qed.

(** *** The register dump *)

Lemma hex_digit_length d : String.length (hex_digit d) = 1%nat.
Proof.
  destruct d as [|p|p]; [reflexivity| |reflexivity].
  do 4 (destruct p as [p|p|]; try reflexivity).
Qed.

Lemma string_length_append a b :
  String.length (String.append a b)
  = (String.length a + String.length b)%nat.
Proof.
  induction a as [|ch a IH]; [reflexivity|]. cbn. now rewrite IH.
Qed.

Lemma hex2_length z : String.length (hex2 z) = 2%nat.
Proof.
  unfold hex2. now rewrite string_length_append, !hex_digit_length.
Qed.

Lemma dump_from_spec n i out self :
  0 <= i -> i + Z.of_nat n <= 128 ->
  exists vs text s' l,
    dump_from i n out self = {| res := Ok text; post := s'; log := l |} /\
    length vs = n /\
    accesses l =
      map (fun kv => Read (Z.of_nat (fst kv)) (snd kv))
          (combine (seq (Z.to_nat i) n) vs) /\
    (Z.of_nat (String.length text) =
     Z.of_nat (String.length out) + 11 * Z.of_nat n
     - 2 * ((i + Z.of_nat n) / 4 - i / 4)).
Proof.
  revert i out self. induction n as [|n IH]; intros i out self Hi Hn.
  - exists [], out, self, []. repeat split.
    replace (i + Z.of_nat 0) with i by lia. lia.
  - cbn [dump_from]. rewrite bind_read. cbv zeta.
    assert (Hd : (i + 1) / 4 - i / 4
                 = if (i + 1) mod 4 =? 0 then 1 else 0).
    { pose proof (Z.div_mod i 4 ltac:(lia)).
      pose proof (Z.div_mod (i + 1) 4 ltac:(lia)).
      pose proof (Z.mod_pos_bound i 4 ltac:(lia)).
      pose proof (Z.mod_pos_bound (i + 1) 4 ltac:(lia)).
      destruct (Z.eqb_spec ((i + 1) mod 4) 0); lia. }
    match goal with
    | |- context [dump_from (i + 1) n ?o ?s] =>
        assert (Hs : Z.of_nat (String.length o)
                     = Z.of_nat (String.length out) + 11
                       - 2 * ((i + 1) / 4 - i / 4))
          by (rewrite Hd; destruct ((i + 1) mod 4 =? 0);
              rewrite !string_length_append, !hex2_length; cbn; lia);
        destruct (IH (i + 1) o s ltac:(lia) ltac:(lia))
          as (vs & text & s' & l & -> & Hlen & Hl & Ht)
    end.
    exists (answer self i :: vs), text, s'. eexists.
    reduce_outcome. split; [reflexivity|].
    split; [cbn [length]; now rewrite Hlen|]. split.
    + rewrite accesses_cons, access_read by lia. rewrite Hl.
      replace (Z.to_nat (i + 1)) with (S (Z.to_nat i)) by lia.
      cbn [seq combine map fst snd]. now rewrite Z2Nat.id by lia.
    + rewrite Ht, Hs.
      replace (i + 1 + Z.of_nat n) with (i + Z.of_nat (S n)) by lia.
      lia.
Qed.

End Construction2.

Section Packets.
Context {dev : Device}.
Implicit Types (self : ULoRa dev).

Lemma tracked_for_each {A} (l : list A) (body : A -> M dev unit) :
  (forall x, tracked (body x)) -> tracked (for_each l body).
Proof.
  intro H. induction l as [|x l IH]; [apply tracked_ret|].
  cbn [for_each]. apply tracked_bind; [apply H | intro; exact IH].
Qed.

Lemma write_tracked buffer : tracked (dev := dev) (write buffer).
Proof.
  unfold write. apply tracked_bind; [apply tracked_transfer|]. intro L.
  apply tracked_bind.
  - apply tracked_for_each. intro b.
    cbv beta delta [write_register]. tracked_steps.
  - intro. cbv beta delta [write_register]. tracked_steps.
Qed.

Lemma begin_packet_tracked h : tracked (dev := dev) (begin_packet h).
Proof.
  cbv beta zeta delta
    [begin_packet standby set_implicit_header read_register write_register].
  tracked_steps.
Qed.

Lemma set_signal_bandwidth_tracked b :
  tracked (dev := dev) (set_signal_bandwidth b).
Proof.
  cbv beta zeta delta [set_signal_bandwidth read_register write_register].
  tracked_steps.
Qed.

Lemma set_coding_rate_tracked d : tracked (dev := dev) (set_coding_rate d).
Proof.
  cbv beta zeta delta [set_coding_rate read_register write_register].
  tracked_steps.
Qed.

Lemma begin_packet_spec h self :
  let o := begin_packet h self in
  res o = Ok tt /\
  exists hdr,
    accesses (log o) =
      Write REG_OP_MODE (Z.lor MODE_LONG_RANGE_MODE MODE_STDBY) :: hdr ++
      [Write REG_FIFO_ADDR_PTR FifoTxBaseAddr; Write REG_PAYLOAD_LENGTH 0] /\
    within [REG_MODEM_CONFIG_1] hdr = true /\
    hdr = match h with
          | Some x => accesses (log (set_implicit_header x
                        (post (standby self))))
          | None => []
          end.
Proof.
  cbv zeta. remember (begin_packet h self) as o eqn:Ho.
  unfold begin_packet in Ho.
  assert (Es : standby self =
               {| res := Ok tt; post := post (standby self);
                  log := log (standby self) |}).
  { unfold standby. now rewrite write_register_eq by reflexivity. }
  rewrite (bind_ok _ _ self tt) in Ho by (now rewrite Es).
  assert (El : accesses (log (standby self)) =
               [Write REG_OP_MODE (Z.lor MODE_LONG_RANGE_MODE MODE_STDBY)]).
  { unfold standby. rewrite write_register_eq by reflexivity.
    reduce_outcome. read_accesses. reflexivity. }
  set (s1 := post (standby self)) in *.
  destruct h as [x|].
  - destruct (set_implicit_header_spec x s1) as (E1 & W1 & _).
    rewrite (bind_ok _ _ s1 tt E1) in Ho.
    rewrite bind_write in Ho by reflexivity.
    rewrite write_register_eq in Ho by reflexivity.
    subst o. reduce_outcome. split; [reflexivity|].
    eexists. split; [|split; [exact W1 | reflexivity]].
    rewrite !accesses_app, El. read_accesses. reflexivity.
  - rewrite bind_ret in Ho.
    rewrite bind_write in Ho by reflexivity.
    rewrite write_register_eq in Ho by reflexivity.
    subst o. reduce_outcome. split; [reflexivity|].
    exists []. split; [|split; reflexivity].
    rewrite !accesses_app, El. read_accesses. reflexivity.
Qed.

End Packets.

(** *** On the simulated chip *)

Lemma sim_after_event (c : Sim.state) e :
  after_event (dev := sx127x) c e = sim_after c (access_of e).
Proof.
  destruct e as [a v r|l|level|ms]; try reflexivity.
  cbn [after_event access_of sx127x spi_transfer Sim.transfer snd].
  destruct (Z.testbit a 7); reflexivity.
Qed.

Lemma sim_replay (c : Sim.state) l :
  replay (dev := sx127x) c l = fold_left sim_after (accesses l) c.
Proof.
  revert c. induction l as [|e l IH]; intro c; [reflexivity|].
  change (replay (dev := sx127x) c (e :: l))
    with (replay (dev := sx127x) (after_event (dev := sx127x) c e) l).
  rewrite IH, sim_after_event. reflexivity.
Qed.

Lemma sim_chip_after {A} (m : M sx127x A) (self : ULoRa sx127x) :
  tracked m ->
  chip (post (m self)) = fold_left sim_after (accesses (log (m self)))
                           (chip self).
Proof. intro H. now rewrite H, sim_replay. Qed.

Lemma sim_spares_reg reg a (c : Sim.state) :
  spares reg a = true -> Sim.regs (sim_after c a) reg = Sim.regs c reg.
Proof.
  destruct a as [r v|r v|l|level|ms]; cbn [spares sim_after];
    try reflexivity; [|discriminate].
  intro H. apply negb_true_iff in H.
  destruct (r =? REG_FIFO); [reflexivity|].
  destruct (r =? REG_IRQ_FLAGS);
    [cbn [Sim.poke Sim.regs]; now rewrite Z.eqb_sym, H|].
  destruct (r =? REG_VERSION); [reflexivity|].
  cbn [Sim.poke Sim.regs]. now rewrite Z.eqb_sym, H.
Qed.

Lemma sim_spares_fifo a (c : Sim.state) :
  spares REG_FIFO a = true -> Sim.fifo (sim_after c a) = Sim.fifo c.
Proof.
  destruct a as [r v|r v|l|level|ms]; cbn [spares sim_after];
    try reflexivity; [|discriminate].
  intro H. apply negb_true_iff in H. rewrite H.
  destruct (r =? REG_IRQ_FLAGS); [reflexivity|].
  destruct (r =? REG_VERSION); reflexivity.
Qed.

Lemma sim_fold_spares_reg reg l (c : Sim.state) :
  forallb (spares reg) l = true ->
  Sim.regs (fold_left sim_after l c) reg = Sim.regs c reg.
Proof.
  revert c. induction l as [|a l IH]; intro c; [reflexivity|].
  cbn [forallb fold_left]. rewrite andb_true_iff. intros [Ha Hl].
  rewrite IH by exact Hl. now apply sim_spares_reg.
Qed.

Lemma sim_fold_spares_fifo l (c : Sim.state) :
  forallb (spares REG_FIFO) l = true ->
  Sim.fifo (fold_left sim_after l c) = Sim.fifo c.
Proof.
  revert c. induction l as [|a l IH]; intro c; [reflexivity|].
  cbn [forallb fold_left]. rewrite andb_true_iff. intros [Ha Hl].
  rewrite IH by exact Hl. now apply sim_spares_fifo.
Qed.

Lemma within_spares regs reg l :
  existsb (Z.eqb reg) regs = false ->
  within regs l = true -> forallb (spares reg) l = true.
Proof.
  intros Hn. unfold within. rewrite !forallb_forall. intros H a Ha.
  specialize (H a Ha). destruct a as [r v|r v|x|x|x]; cbn in *;
    try reflexivity; try discriminate.
  apply negb_true_iff. apply Z.eqb_neq. intros ->.
  rewrite existsb_exists in H. destruct H as (x & Hx & E).
  apply Z.eqb_eq in E. subst x.
  assert (Ht : existsb (Z.eqb reg) regs = true).
  { apply existsb_exists. exists reg. split; [exact Hx | apply Z.eqb_refl]. }
  congruence.
Qed.

Lemma sim_fifo_writes (f : Byte.byte -> Z) bs (c : Sim.state) :
  Sim.fifo (fold_left sim_after (map (fun b => Write REG_FIFO (f b)) bs) c)
    = Sim.fifo c ++ map f bs /\
  Sim.regs (fold_left sim_after (map (fun b => Write REG_FIFO (f b)) bs) c)
    = Sim.regs c.
Proof.
  revert c. induction bs as [|b bs IH]; intro c.
  - cbn. now rewrite app_nil_r.
  - cbn [map fold_left].
    destruct (IH (sim_after c (Write REG_FIFO (f b)))) as [-> ->].
    cbn. now rewrite <- app_assoc.
Qed.

Lemma sim_begin_packet h (self : ULoRa sx127x) :
  let o := begin_packet h self in
  res o = Ok tt /\
  Sim.regs (chip (post o)) REG_PAYLOAD_LENGTH = 0 /\
  Sim.regs (chip (post o)) REG_FIFO_ADDR_PTR = 0 /\
  Sim.fifo (chip (post o)) = Sim.fifo (chip self).
Proof.
  cbv zeta. destruct (begin_packet_spec h self) as (Hr & hdr & Hl & Hw & _).
  split; [exact Hr|].
  rewrite (sim_chip_after _ self (begin_packet_tracked h)), Hl.
  change (?a :: hdr ++ ?t) with ([a] ++ hdr ++ t).
  rewrite !fold_left_app.
  set (c1 := fold_left sim_after hdr _).
  split; [reflexivity|]. split; [reflexivity|].
  cbn [fold_left sim_after]. eval_tests. cbn [Sim.poke Sim.fifo].
  subst c1. rewrite sim_fold_spares_fifo; [reflexivity|].
  eapply within_spares; [|exact Hw]. reflexivity.
Qed.

Lemma sim_write buffer (self : ULoRa sx127x) :
  let o := write buffer self in
  let L := Sim.regs (chip self) REG_PAYLOAD_LENGTH mod 256 in
  let n := Z.min (Z.of_nat (length buffer)) (255 - L) in
  res o = Ok n /\
  Sim.regs (chip (post o)) REG_PAYLOAD_LENGTH = L + n /\
  Sim.fifo (chip (post o)) = Sim.fifo (chip self) ++ map int_of_byte buffer.
Proof.
  cbv zeta. destruct (write_spec buffer self) as (Hr & Hl).
  change (answer self REG_PAYLOAD_LENGTH)
    with (Sim.regs (chip self) REG_PAYLOAD_LENGTH mod 256) in *.
  split; [exact Hr|].
  rewrite (sim_chip_after _ self (write_tracked buffer)), Hl.
  cbn [fold_left]. rewrite fold_left_app.
  destruct (sim_fifo_writes int_of_byte buffer
              (sim_after (chip self)
                 (Read REG_PAYLOAD_LENGTH
                    (Sim.regs (chip self) REG_PAYLOAD_LENGTH mod 256))))
    as [Hf Hg].
  cbn [fold_left sim_after] in *. eval_tests.
  cbn [Sim.poke Sim.regs Sim.fifo]. eval_tests.
  split; [reflexivity | exact Hf].
Qed.

(** X8: on the simulated chip, begin_packet followed by two writes puts
    the bytes of both buffers into the FIFO in order, whatever was written
    before the bracket; the counts returned are the buffer lengths cut to
    what is left of 255, and the payload-length register ends as the total
    length, cut to 255. *)
Theorem X8_bracket_accumulates_two_writes
    (self : ULoRa sx127x) (h : option bool) (b1 b2 : list Byte.byte) :
  let s0 := post (begin_packet h self) in
  let o1 := write b1 s0 in
  let o2 := write b2 (post o1) in
  let n1 := Z.min (Z.of_nat (length b1)) 255 in
  let n2 := Z.min (Z.of_nat (length b2)) (255 - n1) in
  res o1 = Ok n1 /\ res o2 = Ok n2 /\
  Sim.regs (chip (post o2)) REG_PAYLOAD_LENGTH
    = Z.min (Z.of_nat (length b1 + length b2)) 255 /\
  Sim.fifo (chip (post o2))
    = Sim.fifo (chip self) ++ map int_of_byte (b1 ++ b2).
Proof.
  cbv zeta.
  destruct (sim_begin_packet h self) as (_ & H0 & _ & F0).
  destruct (sim_write b1 (post (begin_packet h self))) as (R1 & P1 & F1).
  rewrite H0 in R1, P1. change (0 mod 256) with 0 in R1, P1.
  rewrite Z.sub_0_r in R1, P1. rewrite Z.add_0_l in P1.
  set (n1 := Z.min (Z.of_nat (length b1)) 255) in *.
  destruct (sim_write b2 (post (write b1 (post (begin_packet h self)))))
    as (R2 & P2 & F2).
  rewrite P1 in R2, P2.
  assert (Hn1 : 0 <= n1 <= 255) by (subst n1; lia).
  rewrite (Z.mod_small n1 256) in R2, P2 by lia.
  split; [exact R1|]. split; [exact R2|]. split.
  - rewrite P2. subst n1. lia.
  - rewrite F2, F1, F0, map_app, app_assoc. reflexivity.
Qed.

Lemma sim_set_signal_bandwidth b (self : ULoRa sx127x) :
  number_le b (-1) = false ->
  forall reg,
    Sim.regs (chip (post (set_signal_bandwidth b self))) reg =
    if reg =? REG_MODEM_CONFIG_1
    then Z.lor (Z.land (Sim.regs (chip self) REG_MODEM_CONFIG_1 mod 256) 0x0F)
               (Z.shiftl (bandwidth_index b) 4)
    else Sim.regs (chip self) reg.
Proof.
  intros Hb reg.
  rewrite (sim_chip_after _ self (set_signal_bandwidth_tracked b)).
  destruct (set_signal_bandwidth_eq b self Hb) as (s' & a & ->).
  reduce_outcome. read_log. cbn [fold_left sim_after]. eval_tests.
  cbn [Sim.poke Sim.regs]. reflexivity.
Qed.

Lemma sim_set_coding_rate d (self : ULoRa sx127x) :
  forall reg,
    Sim.regs (chip (post (set_coding_rate d self))) reg =
    if reg =? REG_MODEM_CONFIG_1
    then Z.lor (Z.land (Sim.regs (chip self) REG_MODEM_CONFIG_1 mod 256) 0xF1)
               (Z.shiftl (clamp d 5 8 - 4) 1)
    else Sim.regs (chip self) reg.
Proof.
  intro reg.
  rewrite (sim_chip_after _ self (set_coding_rate_tracked d)).
  destruct (set_coding_rate_eq d self) as (s' & a & ->).
  reduce_outcome. read_log. cbn [fold_left sim_after]. eval_tests.
  cbn [Sim.poke Sim.regs]. reflexivity.
Qed.

Lemma bw_field_under_cr_mask i :
  0 <= i <= 9 -> Z.land (Z.shiftl i 4) 0xF1 = Z.shiftl i 4.
Proof.
  intro H.
  assert (E : i = 0 \/ i = 1 \/ i = 2 \/ i = 3 \/ i = 4 \/ i = 5 \/ i = 6
              \/ i = 7 \/ i = 8 \/ i = 9) by lia.
  repeat (destruct E as [->|E]; [reflexivity|]). now subst i.
Qed.

Lemma cr_field_under_bw_mask d :
  Z.land (Z.shiftl (clamp d 5 8 - 4) 1) 0x0F = Z.shiftl (clamp d 5 8 - 4) 1.
Proof.
  pose proof (clamp_range d 5 8 ltac:(lia)).
  assert (E : clamp d 5 8 - 4 = 1 \/ clamp d 5 8 - 4 = 2 \/
              clamp d 5 8 - 4 = 3 \/ clamp d 5 8 - 4 = 4) by lia.
  destruct E as [-> | [-> | [-> | ->]]]; reflexivity.
Qed.

(** X9: on the simulated chip, set_signal_bandwidth and set_coding_rate
    can be called in either order: ModemConfig1 ends with the bandwidth
    index in its top nibble, the coding rate in bits 3..1 and the header
    bit as it was, and no other register differs. *)
Theorem X9_bandwidth_and_coding_rate_commute
    (self : ULoRa sx127x) (b : Q) (d : Z) (Hb : (0 <= b)%Q) :
  let bw_then_cr :=
    chip (post (set_coding_rate d (post (set_signal_bandwidth b self)))) in
  let cr_then_bw :=
    chip (post (set_signal_bandwidth b (post (set_coding_rate d self)))) in
  let r := Sim.regs (chip self) REG_MODEM_CONFIG_1 mod 256 in
  (forall reg, Sim.regs bw_then_cr reg = Sim.regs cr_then_bw reg) /\
  Sim.regs bw_then_cr REG_MODEM_CONFIG_1 =
    Z.lor (Z.lor (Z.land r 0x01) (Z.shiftl (bandwidth_index b) 4))
          (Z.shiftl (clamp d 5 8 - 4) 1).
Proof.
  cbv zeta.
  set (r := Sim.regs (chip self) REG_MODEM_CONFIG_1 mod 256).
  assert (Hr : 0 <= r < 256) by (apply Z.mod_pos_bound; lia).
  assert (Hb' : number_le b (-1) = false).
  { apply number_le_false. eapply Qlt_le_trans; [|exact Hb]. reflexivity. }
  assert (Hi : 0 <= bandwidth_index b <= 9).
  { pose proof (bandwidth_index_sign b) as Hi. now rewrite Hb' in Hi. }
  assert (H1 : forall reg,
            Sim.regs
              (chip (post (set_coding_rate d
                             (post (set_signal_bandwidth b self))))) reg =
            if reg =? REG_MODEM_CONFIG_1
            then Z.lor (Z.lor (Z.land r 0x01)
                              (Z.shiftl (bandwidth_index b) 4))
                       (Z.shiftl (clamp d 5 8 - 4) 1)
            else Sim.regs (chip self) reg).
  { intro reg. rewrite sim_set_coding_rate.
    rewrite !(sim_set_signal_bandwidth b self Hb').
    change (REG_MODEM_CONFIG_1 =? REG_MODEM_CONFIG_1) with true.
    cbv beta iota. fold r.
    destruct (reg =? REG_MODEM_CONFIG_1); [|reflexivity].
    rewrite Z.mod_small.
    - rewrite Z.land_lor_distr_l, <- Z.land_assoc.
      change (Z.land 0x0F 0xF1) with 0x01.
      now rewrite bw_field_under_cr_mask by exact Hi.
    - apply is_byte_true, bw_config_byte; lia. }
  assert (H2 : forall reg,
            Sim.regs
              (chip (post (set_signal_bandwidth b
                             (post (set_coding_rate d self))))) reg =
            if reg =? REG_MODEM_CONFIG_1
            then Z.lor (Z.lor (Z.land r 0x01)
                              (Z.shiftl (bandwidth_index b) 4))
                       (Z.shiftl (clamp d 5 8 - 4) 1)
            else Sim.regs (chip self) reg).
  { intro reg. rewrite (sim_set_signal_bandwidth b _ Hb').
    rewrite !sim_set_coding_rate.
    change (REG_MODEM_CONFIG_1 =? REG_MODEM_CONFIG_1) with true.
    cbv beta iota. fold r.
    destruct (reg =? REG_MODEM_CONFIG_1); [|reflexivity].
    rewrite Z.mod_small.
    - rewrite Z.land_lor_distr_l, <- Z.land_assoc.
      change (Z.land 0xF1 0x0F) with 0x01.
      rewrite cr_field_under_bw_mask.
      rewrite <- !Z.lor_assoc. f_equal. apply Z.lor_comm.
    - apply is_byte_true, cr_config_byte; lia. }
  split.
  - intro reg. now rewrite H1, H2.
  - rewrite H1. reflexivity.
Qed.

(** The two setters commute on a radio just constructed, for 125 kHz and
    coding rate 4/5. *)
Lemma X9_witness :
  (0 <= 125000)%Q /\
  Sim.regs
    (chip (post (set_coding_rate 5 (post (set_signal_bandwidth 125000 radio)))))
    REG_MODEM_CONFIG_1
  = Sim.regs
      (chip (post (set_signal_bandwidth 125000
                     (post (set_coding_rate 5 radio)))))
      REG_MODEM_CONFIG_1.
Proof.
  assert (H : (0 <= 125000)%Q) by (vm_compute; discriminate).
  split; [exact H|].
  exact (proj1 (X9_bandwidth_and_coding_rate_commute radio 125000 5 H)
           REG_MODEM_CONFIG_1).
Defined.

Section Waiting.
Context {dev : Device}.
Implicit Types (self : ULoRa dev).

Lemma wait_bind_ok {A B} (m : M dev A) (k : A -> Blocking B) self a :
  res (m self) = Ok a ->
  wait_bind (lift m) k self =
  option_map (prepend (log (m self))) (k a (post (m self))).
Proof.
  unfold wait_bind, lift. destruct (m self) as [[a'|e] s l]; cbn; intro H;
    [now injection H as -> | discriminate].
Qed.

Lemma read_register_ok reg self :
  res (read_register reg self) = Ok (answer self reg).
Proof. now rewrite read_register_eq. Qed.

Lemma read_register_same_object reg self :
  post (read_register reg self)
  = with_chip self (snd (spi_transfer dev (chip self) (Z.land reg 0x7F) 0x00)).
Proof. now rewrite read_register_eq. Qed.

(** *** Waiting for TX-done *)

Lemma wait_tx_done_spec fuel self o :
  wait_tx_done fuel self = Some o ->
  res o = Ok tt /\
  exists vs v,
    accesses (log o) = map (Read REG_IRQ_FLAGS) (vs ++ [v]) /\
    Forall (fun x => Z.land x IRQ_TX_DONE_MASK = 0) vs /\
    Z.land v IRQ_TX_DONE_MASK <> 0 /\
    (length vs < fuel)%nat.
Proof.
  revert self o. induction fuel as [|fuel IH]; intros self o; [discriminate|].
  cbn [wait_tx_done].
  rewrite (wait_bind_ok _ _ self _ (read_register_ok _ self)).
  rewrite read_register_eq. cbn [post log].
  destruct (Z.eqb_spec (Z.land (answer self REG_IRQ_FLAGS) IRQ_TX_DONE_MASK) 0)
    as [Hz|Hnz].
  - destruct (wait_tx_done fuel _) as [o'|] eqn:E; [|discriminate].
    cbn [option_map]. intros [= <-].
    destruct (IH _ _ E) as (Hr & vs & v & Hl & Hvs & Hv & Hlen).
    split; [exact Hr|].
    exists (answer self REG_IRQ_FLAGS :: vs), v.
    unfold prepend. cbn [log].
    split; [read_accesses; rewrite Hl; reflexivity|].
    split; [constructor; assumption|]. split; [exact Hv|].
    cbn [length]. lia.
  - cbn. intros [= <-]. split; [reflexivity|].
    exists [], (answer self REG_IRQ_FLAGS). cbn [log].
    split; [read_accesses; reflexivity|].
    split; [constructor|]. split; [exact Hnz | cbn [length]; lia].
Qed.

Lemma wait_tx_done_more_fuel fuel fuel' self o :
  wait_tx_done fuel self = Some o -> (fuel <= fuel')%nat ->
  wait_tx_done fuel' self = Some o.
Proof.
  revert fuel' self o.
  induction fuel as [|fuel IH]; intros fuel' self o; [discriminate|].
  intros H Hle. destruct fuel' as [|fuel']; [lia|].
  cbn [wait_tx_done] in *.
  rewrite (wait_bind_ok _ _ self _ (read_register_ok _ self)) in H.
  rewrite (wait_bind_ok _ _ self _ (read_register_ok _ self)).
  destruct (Z.land (answer self REG_IRQ_FLAGS) IRQ_TX_DONE_MASK =? 0);
    [|exact H].
  destruct (wait_tx_done fuel _) as [o'|] eqn:E; [|discriminate].
  rewrite (IH fuel' _ o' E) by lia. exact H.
Qed.

Lemma end_packet_unfold fuel self :
  end_packet fuel self =
  let tx := write_register REG_OP_MODE (Z.lor MODE_LONG_RANGE_MODE MODE_TX)
              self in
  match wait_tx_done fuel (post tx) with
  | None => None
  | Some w =>
      Some (prepend (log tx)
             (prepend (log w)
                (write_register REG_IRQ_FLAGS IRQ_TX_DONE_MASK (post w))))
  end.
Proof.
  unfold end_packet. cbv zeta.
  rewrite (wait_bind_ok _ _ self tt)
    by (now rewrite write_register_eq by reflexivity).
  unfold wait_bind at 1.
  destruct (wait_tx_done fuel _) as [w|] eqn:E; [|reflexivity].
  destruct (wait_tx_done_spec _ _ _ E) as (Hr & _).
  destruct w as [[[]|e] s l]; [|discriminate]. reflexivity.
Qed.

Lemma end_packet_spec fuel self o :
  end_packet fuel self = Some o ->
  res o = Ok tt /\
  exists vs v,
    accesses (log o) =
      Write REG_OP_MODE (Z.lor MODE_LONG_RANGE_MODE MODE_TX) ::
      map (Read REG_IRQ_FLAGS) vs ++
      [Read REG_IRQ_FLAGS v; Write REG_IRQ_FLAGS IRQ_TX_DONE_MASK] /\
    Forall (fun x => Z.land x IRQ_TX_DONE_MASK = 0) vs /\
    Z.land v IRQ_TX_DONE_MASK <> 0 /\
    (length vs < fuel)%nat.
Proof.
  rewrite end_packet_unfold. cbv zeta.
  destruct (wait_tx_done fuel _) as [w|] eqn:E; [|discriminate].
  intros [= <-].
  destruct (wait_tx_done_spec _ _ _ E) as (Hr & vs & v & Hl & Hvs & Hv & Hn).
  rewrite !write_register_eq by reflexivity.
  unfold prepend. cbn [res post log].
  split; [reflexivity|]. exists vs, v.
  split; [|auto].
  rewrite !accesses_app, Hl, map_app. read_accesses.
  cbn [app map]. now rewrite <- app_assoc.
Qed.

Lemma end_packet_more_fuel fuel fuel' self o :
  end_packet fuel self = Some o -> (fuel <= fuel')%nat ->
  end_packet fuel' self = Some o.
Proof.
  rewrite !end_packet_unfold. cbv zeta.
  destruct (wait_tx_done fuel _) as [w|] eqn:E; [|discriminate].
  intros H Hle. now rewrite (wait_tx_done_more_fuel _ _ _ _ E Hle).
Qed.


Lemma wait_bind_some {A B} (m : Blocking A) (k : A -> Blocking B) self o :
  wait_bind m k self = Some o ->
  exists o1,
    m self = Some o1 /\
    ((exists e, res o1 = Raise e /\ res o = Raise e /\ log o = log o1) \/
     (exists a o2, res o1 = Ok a /\ k a (post o1) = Some o2 /\
                   o = prepend (log o1) o2)).
Proof.
  unfold wait_bind. destruct (m self) as [[[a|e] s l]|]; [| |discriminate].
  - destruct (k a s) as [o2|] eqn:E; [|discriminate].
    cbn [option_map]. intros [= <-]. eexists. split; [reflexivity|].
    right. exists a, o2. cbn [res post log]. auto.
  - intros [= <-]. eexists. split; [reflexivity|].
    left. exists e. cbn [res log]. auto.
Qed.

Lemma written_cons reg a l :
  written reg (a :: l) = written reg [a] ++ written reg l.
Proof. unfold written. cbn [flat_map]. now rewrite app_nil_r. Qed.

Lemma written_app reg l1 l2 :
  written reg (l1 ++ l2) = written reg l1 ++ written reg l2.
Proof. apply flat_map_app. Qed.

Lemma written_reads reg r vs : written reg (map (Read r) vs) = [].
Proof. induction vs as [|v vs IH]; [reflexivity | exact IH]. Qed.

Lemma written_within reg regs l :
  existsb (Z.eqb reg) regs = false -> within regs l = true ->
  written reg l = [].
Proof.
  intros Hn. unfold within. rewrite forallb_forall. intro H.
  induction l as [|a l IH]; [reflexivity|].
  cbn [written flat_map]. fold (written reg l).
  rewrite IH by (intros x Hx; apply H; now right).
  specialize (H a (or_introl eq_refl)).
  destruct a as [r v|r v|x|x|x]; try reflexivity.
  cbn in H. destruct (Z.eqb_spec r reg) as [->|]; [|reflexivity].
  rewrite existsb_exists in H. destruct H as (x & Hx & E).
  apply Z.eqb_eq in E. subst x.
  assert (Ht : existsb (Z.eqb reg) regs = true).
  { apply existsb_exists. exists reg. split; [exact Hx | apply Z.eqb_refl]. }
  congruence.
Qed.

Lemma written_fifo_bytes reg (f : Byte.byte -> Z) bs :
  written reg (map (fun b => Write REG_FIFO (f b)) bs) =
  if REG_FIFO =? reg then map f bs else [].
Proof.
  induction bs as [|b bs IH]; [now destruct (REG_FIFO =? reg)|].
  cbn [map written flat_map]. fold (written reg
    (map (fun b => Write REG_FIFO (f b)) bs)). rewrite IH.
  destruct (REG_FIFO =? reg); reflexivity.
Qed.

(** *** Transmitting *)

Lemma repeat_end_packet fuel n self o :
  repeat_times n (end_packet fuel) self = Some o ->
  res o = Ok tt /\
  written REG_OP_MODE (accesses (log o))
    = List.repeat (Z.lor MODE_LONG_RANGE_MODE MODE_TX) n /\
  written REG_IRQ_FLAGS (accesses (log o))
    = List.repeat IRQ_TX_DONE_MASK n /\
  written REG_FIFO (accesses (log o)) = [] /\
  written REG_PAYLOAD_LENGTH (accesses (log o)) = [].
Proof.
  revert self o. induction n as [|n IH]; intros self o.
  - cbn. intros [= <-]. repeat split.
  - cbn [repeat_times]. intro H.
    destruct (wait_bind_some _ _ _ _ H) as (o1 & E1 & Hcase).
    destruct (end_packet_spec _ _ _ E1)
      as (R1 & vs & v & L1 & _).
    destruct Hcase as [(e & He & _)|(a & o2 & _ & E2 & ->)]; [congruence|].
    destruct a. destruct (IH _ _ E2) as (R2 & M2 & I2 & F2 & P2).
    unfold prepend. cbn [res log]. split; [exact R2|].
    rewrite accesses_app, !written_app, L1, M2, I2, F2, P2.
    change (?x :: map (Read REG_IRQ_FLAGS) vs ++ ?t)
      with ([x] ++ map (Read REG_IRQ_FLAGS) vs ++ t).
    rewrite !written_app, !written_reads. repeat split.
Qed.

Lemma println_spec fuel message h times self o :
  println fuel message h times self = Some o ->
  res o = Ok tt /\
  written REG_OP_MODE (accesses (log o))
    = Z.lor MODE_LONG_RANGE_MODE MODE_STDBY ::
      List.repeat (Z.lor MODE_LONG_RANGE_MODE MODE_TX) (Z.to_nat times) /\
  written REG_IRQ_FLAGS (accesses (log o))
    = List.repeat IRQ_TX_DONE_MASK (Z.to_nat times) /\
  written REG_FIFO (accesses (log o)) = map int_of_byte message /\
  length (written REG_PAYLOAD_LENGTH (accesses (log o))) = 2%nat.
Proof.
  unfold println.
  destruct (begin_packet_spec h self) as (Rb & hdr & Lb & Wb & _).
  rewrite (wait_bind_ok _ _ self tt Rb).
  remember (log (begin_packet h self)) as lb eqn:Elb.
  remember (post (begin_packet h self)) as s1 eqn:Es1. clear Elb Es1 Rb.
  destruct (write_spec message s1) as (Rw & Lw).
  rewrite (wait_bind_ok _ _ s1 _ Rw).
  remember (log (write message s1)) as lw eqn:Elw.
  remember (post (write message s1)) as s2 eqn:Es2. clear Elw Es2 Rw.
  destruct (wait_bind _ _ s2) as [o3|] eqn:E3; [|discriminate].
  cbn [option_map]. intros [= <-].
  destruct (wait_bind_some _ _ _ _ E3) as (o1 & E1 & Hcase).
  destruct (repeat_end_packet _ _ _ _ E1) as (R1 & M1 & I1 & F1 & P1).
  destruct Hcase as [(e & He & _)|(a & o2 & _ & E2 & ->)]; [congruence|].
  unfold lift, collect_garbage in E2. injection E2 as <-.
  unfold prepend. cbn [res log ret]. split; [reflexivity|].
  rewrite app_nil_r, !accesses_app, Lb, Lw, !written_app, M1, I1, F1, P1.
  change (?x :: hdr ++ ?t) with ([x] ++ hdr ++ t).
  change (?x :: map ?f message ++ ?t) with ([x] ++ map f message ++ t).
  rewrite !written_app, !written_fifo_bytes.
  rewrite !(written_within _ [REG_MODEM_CONFIG_1] hdr)
    by (reflexivity || exact Wb).
  cbv [written flat_map]. eval_tests. cbn [app length].
  rewrite ?app_nil_r. repeat split.
Qed.

Lemma println_without_repetition fuel message h times self :
  times <= 0 -> exists o, println fuel message h times self = Some o.
Proof.
  intro Ht. unfold println.
  destruct (begin_packet_spec h self) as (Rb & _).
  rewrite (wait_bind_ok _ _ self tt Rb).
  destruct (write_spec message (post (begin_packet h self))) as (Rw & _).
  rewrite (wait_bind_ok _ _ _ _ Rw).
  replace (Z.to_nat times) with 0%nat by lia.
  cbn. eexists. reflexivity.
Qed.

End Waiting.

Section Listening.
Context {dev : Device}.
Implicit Types (self : ULoRa dev).

Lemma received_packet_ok self :
  res (received_packet 0 self)
  = Ok (answer self REG_IRQ_FLAGS =? IRQ_RX_DONE_MASK).
Proof. apply received_packet_spec. Qed.

Lemma received_packet_writes_flags_once self :
  written REG_IRQ_FLAGS (accesses (log (received_packet 0 self)))
  = [answer self REG_IRQ_FLAGS].
Proof.
  destruct (received_packet_spec 0 self) as (_ & hdr & m & -> & Hw).
  change (?a :: ?b :: hdr ++ ?t) with ([a; b] ++ hdr ++ t).
  rewrite !written_app.
  rewrite (written_within _ [REG_MODEM_CONFIG_1; REG_PAYLOAD_LENGTH] hdr)
    by (reflexivity || exact Hw).
  destruct (_ =? IRQ_RX_DONE_MASK); [reflexivity|].
  destruct (m =? _); reflexivity.
Qed.

Lemma listen_loop_spec fuel clock calls start timeout self o :
  listen_loop fuel clock calls start timeout self = Some o ->
  exists r,
    res o = Ok r /\
    (r = None ->
     exists k,
       (calls <= k)%nat /\ timeout < clock k - start /\
       (forall j, (calls <= j < k)%nat -> clock j - start <= timeout) /\
       length (written REG_IRQ_FLAGS (accesses (log o)))
         = S (k - calls)).
Proof.
  revert calls self o.
  induction fuel as [|fuel IH]; intros calls self o; [discriminate|].
  cbn [listen_loop].
  rewrite (wait_bind_ok _ _ self _ (received_packet_ok self)).
  pose proof (received_packet_writes_flags_once self) as Hw.
  remember (log (received_packet 0 self)) as l0 eqn:El0.
  remember (post (received_packet 0 self)) as s1 eqn:Es1.
  clear El0 Es1.
  destruct (answer self REG_IRQ_FLAGS =? IRQ_RX_DONE_MASK).
  - (* a packet: the payload is returned *)
    destruct (read_payload_spec s1) as (n & payload & E & _).
    rewrite (wait_bind_ok _ _ s1 payload E).
    cbn. intros [= <-].
    eexists; (split; [reflexivity | intro; discriminate]).
  - destruct (Z.ltb_spec timeout (clock calls - start)) as [Hlt|Hge].
    + unfold lift, ret. cbn [option_map]. intros [= <-].
      unfold prepend. cbn [res log].
      exists None. split; [reflexivity|].
      intros _. exists calls. split; [lia|]. split; [exact Hlt|].
      split; [intros; lia|].
      rewrite app_nil_r, Hw, Nat.sub_diag. reflexivity.
    + destruct (listen_loop fuel clock (S calls) start timeout s1)
        as [o'|] eqn:E; [|discriminate].
      cbn [option_map]. intros [= <-].
      destruct (IH _ _ _ E) as (r & Hr & Hnone).
      exists r. unfold prepend. cbn [res log]. split; [exact Hr|].
      intro Hn. destruct (Hnone Hn) as (k & Hk & Ht & Hbefore & Hcount).
      exists k. split; [lia|]. split; [exact Ht|]. split.
      * intros j Hj. destruct (Nat.eq_dec j calls) as [->|Hne];
          [exact Hge | apply Hbefore; lia].
      * rewrite accesses_app, written_app, length_app, Hw, Hcount.
        cbn [length]. lia.
Qed.

Lemma receive_ok size self : res (receive size self) = Ok tt.
Proof. apply receive_spec. Qed.

Lemma receive_off_irq_flags size :
  quiet (dev := dev) off_irq_flags (receive size).
Proof.
  cbv beta zeta delta
    [receive set_implicit_header read_register write_register].
  quiet_steps.
Qed.

Lemma receive_tracked size : tracked (dev := dev) (receive size).
Proof.
  cbv beta zeta delta
    [receive set_implicit_header read_register write_register].
  tracked_steps.
Qed.

Lemma receive_written_flags size self :
  written REG_IRQ_FLAGS (accesses (log (receive size self))) = [].
Proof.
  destruct (receive_off_irq_flags size self) as [H _].
  induction (log (receive size self)) as [|e l IH]; [reflexivity|].
  cbn [forallb] in H. apply andb_true_iff in H. destruct H as [He Hl].
  rewrite accesses_cons.
  rewrite written_cons, (IH Hl), app_nil_r.
  destruct e as [a v r|x|x|x]; try reflexivity.
  cbn [off_irq_flags] in He. apply negb_true_iff in He.
  cbn [access_of]. destruct (Z.testbit a 7); [|reflexivity].
  cbn [written flat_map]. now rewrite He.
Qed.

(** The outcome of [listen] when the first poll finds RX-done alone. *)
Lemma listen_first_poll self :
  answer (post (receive 0 self)) REG_IRQ_FLAGS = IRQ_RX_DONE_MASK ->
  exists o payload,
    (forall fuel clock timeout,
       listen (S fuel) clock timeout self = Some o) /\
    res o = Ok (Some payload) /\
    res (read_payload (post (received_packet 0 (post (receive 0 self)))))
      = Ok payload.
Proof.
  intro Hv.
  destruct (read_payload_spec
              (post (received_packet 0 (post (receive 0 self)))))
    as (n & payload & E & _).
  eexists. exists payload. split; [|split; [|exact E]].
  - intros fuel clock timeout. unfold listen.
    rewrite (wait_bind_ok _ _ self tt (receive_ok 0 self)).
    cbn [listen_loop].
    rewrite (wait_bind_ok _ _ _ _ (received_packet_ok _)).
    rewrite Hv. change (IRQ_RX_DONE_MASK =? IRQ_RX_DONE_MASK) with true.
    cbv beta iota.
    rewrite (wait_bind_ok _ _ _ payload E).
    unfold lift. cbn [option_map]. reflexivity.
  - reflexivity.
Qed.

End Listening.

(** *** Waiting, on the simulated chip *)

Lemma sim_wait_tx_done_never fuel (self : ULoRa sx127x) :
  Z.land (Sim.regs (chip self) REG_IRQ_FLAGS mod 256) IRQ_TX_DONE_MASK = 0 ->
  wait_tx_done fuel self = None.
Proof.
  revert self. induction fuel as [|fuel IH]; intros self H; [reflexivity|].
  cbn [wait_tx_done].
  rewrite (wait_bind_ok _ _ self _ (read_register_ok _ self)).
  change (answer self REG_IRQ_FLAGS)
    with (Sim.regs (chip self) REG_IRQ_FLAGS mod 256).
  rewrite H. change (0 =? 0) with true. cbv beta iota.
  rewrite IH; [reflexivity|].
  rewrite read_register_eq. exact H.
Qed.

Lemma sim_end_packet_never fuel (self : ULoRa sx127x) :
  Z.land (Sim.regs (chip self) REG_IRQ_FLAGS mod 256) IRQ_TX_DONE_MASK = 0 ->
  end_packet fuel self = None.
Proof.
  intro H. rewrite end_packet_unfold. cbv zeta.
  rewrite sim_wait_tx_done_never; [reflexivity|].
  rewrite write_register_eq by reflexivity. exact H.
Qed.

Lemma sim_receive_keeps_flags size (self : ULoRa sx127x) :
  Sim.regs (chip (post (receive size self))) REG_IRQ_FLAGS
  = Sim.regs (chip self) REG_IRQ_FLAGS.
Proof.
  rewrite receive_tracked.
  apply sim_replay_off_irq_flags, receive_off_irq_flags.
Qed.

Lemma sim_listen_loop n clock start timeout :
  forall fuel calls (self : ULoRa sx127x),
    (Sim.regs (chip self) REG_IRQ_FLAGS mod 256 =? IRQ_RX_DONE_MASK) = false ->
    (forall j, (calls <= j < calls + n)%nat -> clock j - start <= timeout) ->
    timeout < clock (calls + n)%nat - start ->
    (n < fuel)%nat ->
    exists o,
      listen_loop fuel clock calls start timeout self = Some o /\
      res o = Ok None /\
      length (written REG_IRQ_FLAGS (accesses (log o))) = S n.
Proof.
  induction n as [|n IH]; intros fuel calls self Hv Hbefore Hat Hfuel;
    (destruct fuel as [|fuel]; [lia|]);
    cbn [listen_loop];
    rewrite (wait_bind_ok _ _ self _ (received_packet_ok self));
    change (answer self REG_IRQ_FLAGS)
      with (Sim.regs (chip self) REG_IRQ_FLAGS mod 256);
    rewrite Hv; cbv beta iota;
    pose proof (received_packet_writes_flags_once self) as Hw.
  - rewrite Nat.add_0_r in Hat.
    destruct (Z.ltb_spec timeout (clock calls - start)); [|lia].
    eexists. split; [reflexivity|]. unfold prepend. cbn [res log ret].
    split; [reflexivity|]. now rewrite app_nil_r, Hw.
  - destruct (Z.ltb_spec timeout (clock calls - start)) as [Hlt|_].
    { specialize (Hbefore calls ltac:(lia)). lia. }
    destruct (IH fuel (S calls) (post (received_packet 0 self)))
      as (o & E & Hr & Hc).
    + rewrite sim_received_packet_clears. reflexivity.
    + intros j Hj. apply Hbefore. lia.
    + replace (S calls + n)%nat with (calls + S n)%nat by lia. exact Hat.
    + lia.
    + rewrite E. cbn [option_map]. eexists. split; [reflexivity|].
      unfold prepend. cbn [res log]. split; [exact Hr|].
      rewrite accesses_app, written_app, length_app, Hw, Hc. reflexivity.
Qed.

(** * Further properties *)



(** X7: a construction that returns has first put the chip to sleep,
    before any register was written, and its last access puts the chip in
    standby. *)
Theorem X7_construction_sleeps_first_and_ends_in_standby
    {dev : Device} (c : dev_state dev) (reset_pin : bool)
    (params : Parameters)
    (Hok : res (construct c reset_pin params) = Ok tt) :
  exists probe middle,
    accesses (log (construct c reset_pin params)) =
      probe ++
      Write REG_OP_MODE (Z.lor MODE_LONG_RANGE_MODE MODE_SLEEP) ::
      middle ++
      [Write REG_OP_MODE (Z.lor MODE_LONG_RANGE_MODE MODE_STDBY)] /\
    forallb writes_nothing probe = true.
Proof. now apply construct_log. Qed.

(** Construction with the default parameters returns on the simulated
    chip. *)
Lemma X7_witness :
  res (construct (dev := sx127x) Sim.power_on true DEFAULT_PARAMETERS)
    = Ok tt /\
  exists probe middle,
    accesses (log (construct (dev := sx127x) Sim.power_on true
                     DEFAULT_PARAMETERS)) =
      probe ++
      Write REG_OP_MODE (Z.lor MODE_LONG_RANGE_MODE MODE_SLEEP) ::
      middle ++
      [Write REG_OP_MODE (Z.lor MODE_LONG_RANGE_MODE MODE_STDBY)] /\
    forallb writes_nothing probe = true.
Proof.
  assert (H : res (construct (dev := sx127x) Sim.power_on true
                     DEFAULT_PARAMETERS) = Ok tt)
    by (vm_compute; reflexivity).
  split; [exact H|].
  exact (X7_construction_sleeps_first_and_ends_in_standby _ _ _ H).
Defined.

(** X10: dump_registers reads the registers 0 to 127 once each, in
    ascending order, and writes none; it never raises, and the text it
    prints has 1344 characters: 128 entries of 8 characters, 96 separators
    of 3 and 32 line ends. *)
Theorem X10_dump_registers_reads_each_register_once
    {dev : Device} (self : ULoRa dev) :
  let o := dump_registers self in
  exists values text,
    res o = Ok text /\
    length values = 128%nat /\
    accesses (log o) =
      map (fun kv => Read (Z.of_nat (fst kv)) (snd kv))
          (combine (seq 0 128) values) /\
    String.length text = 1344%nat.
Proof.
  cbv zeta. unfold dump_registers.
  destruct (dump_from_spec 128 0 String.EmptyString self
              ltac:(lia) ltac:(lia))
    as (vs & text & s' & l & -> & Hlen & Hl & Ht).
  exists vs, text. cbn [res log].
  split; [reflexivity|]. split; [exact Hlen|]. split; [exact Hl|].
  change (Z.of_nat (String.length String.EmptyString)) with 0 in Ht.
  change (0 + Z.of_nat 128) with 128 in Ht.
  change (128 / 4) with 32 in Ht. change (0 / 4) with 0 in Ht. lia.
Qed.

(** X11: when end_packet returns, it has switched to transmit mode, read
    the IRQ flags until a byte with the TX-done bit came, and then written
    0x08 alone to the IRQ flags (not the byte read); it returned normally,
    and any larger fuel gives the same outcome. *)
Theorem X11_end_packet_waits_then_clears_tx_done
    {dev : Device} (fuel : nat) (self : ULoRa dev) (o : outcome dev unit)
    (Hreturns : end_packet fuel self = Some o) :
  res o = Ok tt /\
  (exists polls last,
     accesses (log o) =
       Write REG_OP_MODE (Z.lor MODE_LONG_RANGE_MODE MODE_TX) ::
       map (Read REG_IRQ_FLAGS) polls ++
       [Read REG_IRQ_FLAGS last; Write REG_IRQ_FLAGS IRQ_TX_DONE_MASK] /\
     Forall (fun x => Z.land x IRQ_TX_DONE_MASK = 0) polls /\
     Z.land last IRQ_TX_DONE_MASK <> 0 /\
     (length polls < fuel)%nat) /\
  (forall fuel', (fuel <= fuel')%nat -> end_packet fuel' self = Some o).
Proof.
  destruct (end_packet_spec _ _ _ Hreturns) as (Hr & Hshape).
  split; [exact Hr|]. split; [exact Hshape|].
  intros fuel' Hle. now apply (end_packet_more_fuel fuel).
Qed.

(** end_packet returns at the first poll on a chip with TX-done latched. *)
Lemma X11_witness :
  exists o,
    end_packet 1 (latched radio IRQ_TX_DONE_MASK) = Some o /\ res o = Ok tt.
Proof.
  destruct (end_packet 1 (latched radio IRQ_TX_DONE_MASK)) as [o|] eqn:E.
  - exists o. split; [reflexivity|].
    exact (proj1 (X11_end_packet_waits_then_clears_tx_done 1 _ o E)).
  - exfalso. revert E. vm_compute. discriminate.
Defined.

(** X12: on the simulated chip, which never raises TX-done by itself,
    end_packet does not return, whatever the fuel, unless the TX-done flag
    was latched before the call. *)
Theorem X12_end_packet_never_returns_without_tx_done
    (self : ULoRa sx127x) (fuel : nat)
    (Hclear : Z.land (Sim.regs (chip self) REG_IRQ_FLAGS mod 256)
                     IRQ_TX_DONE_MASK = 0) :
  end_packet fuel self = None.
Proof. now apply sim_end_packet_never. Qed.

(** A radio just constructed has no flag latched. *)
Lemma X12_witness :
  Z.land (Sim.regs (chip radio) REG_IRQ_FLAGS mod 256) IRQ_TX_DONE_MASK = 0 /\
  end_packet 1000 radio = None.
Proof.
  assert (H : Z.land (Sim.regs (chip radio) REG_IRQ_FLAGS mod 256)
                     IRQ_TX_DONE_MASK = 0) by (vm_compute; reflexivity).
  split; [exact H|].
  exact (X12_end_packet_never_returns_without_tx_done radio 1000 H).
Defined.

(** X13: when println returns, it returned normally; the mode register
    was written with standby once and then with transmit once per
    repetition, the TX-done flag was cleared once per repetition, and every
    byte of the message was written to the FIFO, in order. *)
Theorem X13_println_transmits_once_per_repetition
    {dev : Device} (fuel : nat) (message : list Byte.byte)
    (implicit_header : option bool) (times : Z) (self : ULoRa dev)
    (o : outcome dev unit)
    (Hreturns : println fuel message implicit_header times self = Some o) :
  res o = Ok tt /\
  written REG_OP_MODE (accesses (log o))
    = Z.lor MODE_LONG_RANGE_MODE MODE_STDBY ::
      List.repeat (Z.lor MODE_LONG_RANGE_MODE MODE_TX) (Z.to_nat times) /\
  written REG_IRQ_FLAGS (accesses (log o))
    = List.repeat IRQ_TX_DONE_MASK (Z.to_nat times) /\
  written REG_FIFO (accesses (log o)) = map int_of_byte message.
Proof.
  destruct (println_spec _ _ _ _ _ _ Hreturns) as (H1 & H2 & H3 & H4 & _).
  auto.
Qed.

(** println sends a one-byte message once on a chip with TX-done
    latched. *)
Lemma X13_witness :
  exists o,
    println 1 [Byte.x41] None 1 (latched radio IRQ_TX_DONE_MASK) = Some o /\
    res o = Ok tt.
Proof.
  destruct (println 1 [Byte.x41] None 1 (latched radio IRQ_TX_DONE_MASK))
    as [o|] eqn:E.
  - exists o. split; [reflexivity|].
    exact (proj1 (X13_println_transmits_once_per_repetition _ _ _ _ _ o E)).
  - exfalso. revert E. vm_compute. discriminate.
Defined.

(** X14: with a repetition count of zero or less println needs no fuel:
    it loads the FIFO and returns without ever writing the transmit mode,
    so nothing is sent. *)
Theorem X14_println_without_repetition_sends_nothing
    {dev : Device} (fuel : nat) (message : list Byte.byte)
    (implicit_header : option bool) (times : Z) (self : ULoRa dev)
    (Htimes : times <= 0) :
  exists o,
    println fuel message implicit_header times self = Some o /\
    res o = Ok tt /\
    written REG_OP_MODE (accesses (log o))
      = [Z.lor MODE_LONG_RANGE_MODE MODE_STDBY] /\
    written REG_FIFO (accesses (log o)) = map int_of_byte message.
Proof.
  destruct (println_without_repetition fuel message implicit_header times
              self Htimes) as (o & E).
  exists o. split; [exact E|].
  destruct (println_spec _ _ _ _ _ _ E) as (H1 & H2 & _ & H4 & _).
  replace (Z.to_nat times) with 0%nat in H2 by lia. auto.
Qed.

Lemma X14_witness :
  0 <= 0 /\
  exists o, println 0 [Byte.x41] None 0 radio = Some o /\ res o = Ok tt.
Proof.
  split; [lia|].
  destruct (X14_println_without_repetition_sends_nothing
              0 [Byte.x41] None 0 radio ltac:(lia)) as (o & E & R & _).
  exists o. split; [exact E | exact R].
Defined.

(** X15: listen does not time out early: when it returns no payload, some
    reading k of the clock after the start exceeded the timeout, every
    earlier reading did not, and the chip was polled exactly k times. *)
Theorem X15_listen_times_out_only_after_the_timeout
    {dev : Device} (fuel : nat) (clock : nat -> Z) (timeout : Z)
    (self : ULoRa dev) (o : outcome dev (option (list Z)))
    (Hreturns : listen fuel clock timeout self = Some o)
    (Hnone : res o = Ok None) :
  exists k,
    (1 <= k)%nat /\ timeout < clock k - clock O /\
    (forall j, (1 <= j < k)%nat -> clock j - clock O <= timeout) /\
    length (written REG_IRQ_FLAGS (accesses (log o))) = k.
Proof.
  unfold listen in Hreturns.
  rewrite (wait_bind_ok _ _ self tt (receive_ok 0 self)) in Hreturns.
  destruct (listen_loop fuel clock 1 (clock O) timeout _) as [o'|] eqn:E;
    [|discriminate].
  cbn [option_map] in Hreturns. injection Hreturns as <-.
  destruct (listen_loop_spec _ _ _ _ _ _ _ E) as (r & Hr & Hk).
  unfold prepend in *. cbn [res log] in *.
  assert (r = None) by congruence. subst r.
  destruct (Hk eq_refl) as (k & H1 & Ht & Hb & Hc).
  exists k. split; [exact H1|]. split; [exact Ht|]. split; [exact Hb|].
  rewrite accesses_app, written_app, receive_written_flags.
  cbn [app]. rewrite Hc. lia.
Qed.

(** listen gives up at the first clock reading on the idle simulated chip
    when a second has passed and the timeout is half of it. *)
Lemma X15_witness :
  exists o,
    listen 1 (fun n => 1000 * Z.of_nat n) 500 radio = Some o /\
    res o = Ok None /\
    length (written REG_IRQ_FLAGS (accesses (log o))) = 1%nat.
Proof.
  destruct (listen 1 (fun n => 1000 * Z.of_nat n) 500 radio) as [o|] eqn:E.
  - assert (Hn : res o = Ok None).
    { revert E. vm_compute. intros [= <-]. reflexivity. }
    exists o. split; [reflexivity|]. split; [exact Hn|].
    destruct (X15_listen_times_out_only_after_the_timeout _ _ _ _ o E Hn)
      as (k & Hk & Ht & Hb & Hc).
    assert (k = 1%nat).
    { destruct (Nat.eq_dec k 1) as [|Hne]; [assumption|].
      specialize (Hb 1%nat ltac:(lia)). cbn in Hb. lia. }
    now subst k.
  - exfalso. revert E. vm_compute. discriminate.
Defined.

(** X16: listen polls before it looks at the clock: when RX-done alone is
    latched once receive mode is entered, listen returns the payload that
    read_payload gives after that poll, whatever the clock, the timeout
    (even a negative one) and the fuel beyond the first iteration. *)
Theorem X16_listen_returns_a_latched_packet
    {dev : Device} (self : ULoRa dev)
    (Hlatched :
       answer (post (receive 0 self)) REG_IRQ_FLAGS = IRQ_RX_DONE_MASK) :
  exists o payload,
    (forall fuel clock timeout,
       listen (S fuel) clock timeout self = Some o) /\
    res o = Ok (Some payload) /\
    res (read_payload (post (received_packet 0 (post (receive 0 self)))))
      = Ok payload.
Proof. now apply listen_first_poll. Qed.

Lemma X16_witness :
  answer (post (receive 0 (latched radio IRQ_RX_DONE_MASK))) REG_IRQ_FLAGS
    = IRQ_RX_DONE_MASK /\
  exists o,
    listen 1 (fun _ => 0) (-1) (latched radio IRQ_RX_DONE_MASK) = Some o.
Proof.
  assert (H : answer (post (receive 0 (latched radio IRQ_RX_DONE_MASK)))
                REG_IRQ_FLAGS = IRQ_RX_DONE_MASK)
    by (vm_compute; reflexivity).
  split; [exact H|].
  destruct (X16_listen_returns_a_latched_packet _ H) as (o & _ & Ho & _).
  exists o. apply Ho.
Defined.

(** X17: on the simulated chip with no packet pending, listen returns no
    payload at the first clock reading beyond the timeout, after exactly
    that many polls, as soon as the fuel covers them. *)
Theorem X17_listen_times_out_on_an_idle_chip
    (self : ULoRa sx127x) (clock : nat -> Z) (timeout : Z) (k fuel : nat)
    (Hidle : Sim.regs (chip self) REG_IRQ_FLAGS mod 256 <> IRQ_RX_DONE_MASK)
    (Hk : (1 <= k <= fuel)%nat)
    (Hbefore : forall j, (1 <= j < k)%nat -> clock j - clock O <= timeout)
    (Hat : timeout < clock k - clock O) :
  exists o,
    listen fuel clock timeout self = Some o /\
    res o = Ok None /\
    length (written REG_IRQ_FLAGS (accesses (log o))) = k.
Proof.
  unfold listen.
  rewrite (wait_bind_ok _ _ self tt (receive_ok 0 self)).
  destruct (sim_listen_loop (k - 1) clock (clock O) timeout fuel 1
              (post (receive 0 self))) as (o & E & Hr & Hc).
  - rewrite sim_receive_keeps_flags. now apply Z.eqb_neq.
  - intros j Hj. apply Hbefore. lia.
  - replace (1 + (k - 1))%nat with k by lia. exact Hat.
  - lia.
  - rewrite E. cbn [option_map]. eexists. split; [reflexivity|].
    unfold prepend. cbn [res log]. split; [exact Hr|].
    rewrite accesses_app, written_app, receive_written_flags.
    cbn [app]. rewrite Hc. lia.
Qed.

(** With a clock that advances one second per reading, a 20-second
    listen on the idle chip polls 21 times. *)
Lemma X17_witness :
  exists o,
    listen 21 (fun n => 1000 * Z.of_nat n) 20000 radio = Some o /\
    res o = Ok None /\
    length (written REG_IRQ_FLAGS (accesses (log o))) = 21%nat.
Proof.
  apply (X17_listen_times_out_on_an_idle_chip radio
           (fun n => 1000 * Z.of_nat n) 20000 21 21).
  - vm_compute. discriminate.
  - lia.
  - intros j Hj. lia.
  - vm_compute. reflexivity.
Defined.

(** *** Receive modes, on the simulated chip *)

Lemma set_implicit_header_tracked {dev : Device} x :
  tracked (dev := dev) (set_implicit_header x).
Proof.
  cbv beta zeta delta [set_implicit_header read_register write_register].
  tracked_steps.
Qed.

Lemma sim_set_implicit_header_keeps_mode x (self : ULoRa sx127x) :
  Sim.regs (chip (post (set_implicit_header x self))) REG_OP_MODE
  = Sim.regs (chip self) REG_OP_MODE.
Proof.
  rewrite (sim_chip_after _ self (set_implicit_header_tracked x)).
  apply sim_fold_spares_reg.
  apply (within_spares [REG_MODEM_CONFIG_1]); [reflexivity|].
  apply set_implicit_header_spec.
Qed.

Lemma sim_received_packet_idle (self : ULoRa sx127x) :
  (Sim.regs (chip self) REG_IRQ_FLAGS mod 256 =? IRQ_RX_DONE_MASK) = false ->
  written REG_OP_MODE (accesses (log (received_packet 0 self))) =
    (if Sim.regs (chip self) REG_OP_MODE mod 256
        =? Z.lor MODE_LONG_RANGE_MODE MODE_RX_SINGLE
     then [] else [Z.lor MODE_LONG_RANGE_MODE MODE_RX_SINGLE]) /\
  Sim.regs (chip (post (received_packet 0 self))) REG_OP_MODE mod 256
    = Z.lor MODE_LONG_RANGE_MODE MODE_RX_SINGLE.
Proof.
  intro Hv.
  remember (received_packet 0 self) as o eqn:Ho.
  unfold received_packet, get_irq_flags in Ho.
  rewrite bind_bind, bind_read in Ho.
  rewrite bind_bind, bind_write in Ho;
    [ | reflexivity | apply is_byte_true, answer_byte ].
  rewrite bind_ret in Ho.
  change (0 <? 0) with false in Ho. cbv iota in Ho.
  match type of Ho with
  | context [bind (set_implicit_header false) ?k ?s] =>
      destruct (set_implicit_header_spec false s) as (E1 & W1 & _);
      pose proof (sim_set_implicit_header_keeps_mode false s) as C1;
      rewrite (bind_ok _ k s tt E1) in Ho;
      change (Sim.regs (chip s) REG_OP_MODE)
        with (Sim.regs (chip self) REG_OP_MODE) in C1;
      remember (post (set_implicit_header false s)) as s1 eqn:Es1;
      remember (log (set_implicit_header false s)) as l1 eqn:El1;
      clear Es1 El1 E1
  end.
  rewrite bind_ret in Ho.
  change (answer self REG_IRQ_FLAGS =? IRQ_RX_DONE_MASK)
    with (Sim.regs (chip self) REG_IRQ_FLAGS mod 256 =? IRQ_RX_DONE_MASK)
    in Ho.
  rewrite Hv in Ho. cbv iota in Ho.
  rewrite bind_bind, bind_read in Ho.
  change (answer s1 REG_OP_MODE)
    with (Sim.regs (chip s1) REG_OP_MODE mod 256) in Ho.
  rewrite C1 in Ho.
  assert (W : written REG_OP_MODE (accesses l1) = [])
    by (apply (written_within _ [REG_MODEM_CONFIG_1]);
        [reflexivity | exact W1]).
  destruct (Sim.regs (chip self) REG_OP_MODE mod 256
            =? Z.lor MODE_LONG_RANGE_MODE MODE_RX_SINGLE) eqn:Hm.
  - cbn [negb] in Ho. rewrite !bind_ret in Ho. subst o. reduce_outcome.
    split.
    + read_accesses.
      change (?a :: ?b :: accesses l1 ++ ?t)
        with ([a; b] ++ accesses l1 ++ t).
      rewrite !written_app, W. reflexivity.
    + apply Z.eqb_eq in Hm. rewrite <- Hm, <- C1. reflexivity.
  - cbn [negb] in Ho. rewrite bind_bind in Ho.
    rewrite bind_write in Ho by reflexivity.
    rewrite bind_write in Ho by reflexivity.
    subst o. reduce_outcome. split.
    + read_accesses.
      change (?a :: ?b :: accesses l1 ++ ?t)
        with ([a; b] ++ accesses l1 ++ t).
      rewrite !written_app, W. reflexivity.
    + reflexivity.
Qed.

Lemma sim_receive_continuous (self : ULoRa sx127x) :
  written REG_OP_MODE (accesses (log (receive 0 self)))
    = [Z.lor MODE_LONG_RANGE_MODE MODE_RX_CONTINUOUS] /\
  Sim.regs (chip (post (receive 0 self))) REG_OP_MODE
    = Z.lor MODE_LONG_RANGE_MODE MODE_RX_CONTINUOUS.
Proof.
  remember (receive 0 self) as o eqn:Ho.
  unfold receive in Ho.
  change (0 <? 0) with false in Ho. cbv iota in Ho.
  destruct (set_implicit_header_spec false self) as (E1 & W1 & _).
  rewrite (bind_ok _ _ self tt E1), bind_ret in Ho.
  remember (post (set_implicit_header false self)) as s1 eqn:Es1.
  remember (log (set_implicit_header false self)) as l1 eqn:El1.
  clear Es1 El1 E1.
  rewrite write_register_eq in Ho by reflexivity.
  subst o. reduce_outcome. split; [|reflexivity].
  read_accesses. rewrite written_app.
  rewrite (written_within _ [REG_MODEM_CONFIG_1] (accesses l1))
    by (reflexivity || exact W1).
  reflexivity.
Qed.

Lemma sim_listen_loop_modes fuel :
  forall clock calls start timeout (self : ULoRa sx127x) o,
    (Sim.regs (chip self) REG_IRQ_FLAGS mod 256 =? IRQ_RX_DONE_MASK) = false ->
    listen_loop fuel clock calls start timeout self = Some o ->
    res o = Ok None /\
    written REG_OP_MODE (accesses (log o)) =
      (if Sim.regs (chip self) REG_OP_MODE mod 256
          =? Z.lor MODE_LONG_RANGE_MODE MODE_RX_SINGLE
       then [] else [Z.lor MODE_LONG_RANGE_MODE MODE_RX_SINGLE]) /\
    Sim.regs (chip (post o)) REG_OP_MODE mod 256
      = Z.lor MODE_LONG_RANGE_MODE MODE_RX_SINGLE.
Proof.
  induction fuel as [|fuel IH]; intros clock calls start timeout self o Hv;
    [discriminate|].
  cbn [listen_loop].
  rewrite (wait_bind_ok _ _ self _ (received_packet_ok self)).
  change (answer self REG_IRQ_FLAGS)
    with (Sim.regs (chip self) REG_IRQ_FLAGS mod 256).
  rewrite Hv. cbv beta iota.
  destruct (sim_received_packet_idle self Hv) as (Hw & Hm).
  pose proof (sim_received_packet_clears self 0) as Hc.
  remember (log (received_packet 0 self)) as l0 eqn:El0.
  remember (post (received_packet 0 self)) as s1 eqn:Es1.
  clear El0 Es1.
  destruct (timeout <? clock calls - start).
  - unfold lift. cbn [option_map]. intros [= <-].
    unfold prepend, ret. cbn [res post log].
    rewrite app_nil_r. auto.
  - destruct (listen_loop fuel clock (S calls) start timeout s1)
      as [o'|] eqn:E; [|discriminate].
    cbn [option_map]. intros [= <-].
    destruct (IH _ _ _ _ _ _ ltac:(rewrite Hc; reflexivity) E)
      as (Hr & Hw' & Hm').
    rewrite Hm in Hw'.
    change (Z.lor MODE_LONG_RANGE_MODE MODE_RX_SINGLE
            =? Z.lor MODE_LONG_RANGE_MODE MODE_RX_SINGLE) with true in Hw'.
    unfold prepend. cbn [res post log].
    split; [exact Hr|]. split; [|exact Hm'].
    rewrite accesses_app, written_app, Hw, Hw'. apply app_nil_r.
Qed.

(** X18: listen does not stay in continuous receive mode: on the
    simulated chip with no packet pending, a listen that returns has
    returned no payload, has written the mode register twice, continuous
    receive on entry and single receive at the first poll, and leaves the
    chip in single receive mode. *)
Theorem X18_listen_falls_back_to_single_receive
    (self : ULoRa sx127x) (fuel : nat) (clock : nat -> Z) (timeout : Z)
    (o : outcome sx127x (option (list Z)))
    (Hidle : Sim.regs (chip self) REG_IRQ_FLAGS mod 256 <> IRQ_RX_DONE_MASK)
    (Hreturns : listen fuel clock timeout self = Some o) :
  res o = Ok None /\
  written REG_OP_MODE (accesses (log o))
    = [Z.lor MODE_LONG_RANGE_MODE MODE_RX_CONTINUOUS;
       Z.lor MODE_LONG_RANGE_MODE MODE_RX_SINGLE] /\
  Sim.regs (chip (post o)) REG_OP_MODE mod 256
    = Z.lor MODE_LONG_RANGE_MODE MODE_RX_SINGLE.
Proof.
  unfold listen in Hreturns.
  rewrite (wait_bind_ok _ _ self tt (receive_ok 0 self)) in Hreturns.
  destruct (sim_receive_continuous self) as (Hw & Hm).
  pose proof (sim_receive_keeps_flags 0 self) as Hf.
  remember (log (receive 0 self)) as l0 eqn:El0.
  remember (post (receive 0 self)) as s1 eqn:Es1.
  clear El0 Es1.
  destruct (listen_loop fuel clock 1 (clock O) timeout s1) as [o'|] eqn:E;
    [|discriminate].
  cbn [option_map] in Hreturns. injection Hreturns as <-.
  destruct (sim_listen_loop_modes _ _ _ _ _ _ _
              ltac:(rewrite Hf; now apply Z.eqb_neq) E) as (Hr & Hw' & Hm').
  rewrite Hm in Hw'.
  unfold prepend. cbn [res post log].
  split; [exact Hr|]. split; [|exact Hm'].
  rewrite accesses_app, written_app, Hw, Hw'. reflexivity.
Qed.

(** A one-second listen on a radio just constructed, with a clock that
    advances half a second per reading. *)
Lemma X18_witness :
  exists o,
    listen 3 (fun n => 500 * Z.of_nat n) 1000 radio = Some o /\
    res o = Ok None /\
    Sim.regs (chip (post o)) REG_OP_MODE mod 256
      = Z.lor MODE_LONG_RANGE_MODE MODE_RX_SINGLE.
Proof.
  destruct (listen 3 (fun n => 500 * Z.of_nat n) 1000 radio) as [o|] eqn:E.
  - exists o. split; [reflexivity|].
    destruct (X18_listen_falls_back_to_single_receive radio 3 _ 1000 o
                ltac:(vm_compute; discriminate) E) as (Hr & _ & Hm).
    split; [exact Hr | exact Hm].
  - exfalso. revert E. vm_compute. discriminate.
Defined.

(** *** The low-data-rate bit *)





Section LowDataRate.
Context {dev : Device}.
Implicit Types (self : ULoRa dev).






End LowDataRate.



(** Construction on a chip just powered on: the reset pulse, one read of
    the version register, and the configuration. *)
Lemma sim_construct params :
  construct (dev := sx127x) Sim.power_on true params =
  prepend [ResetPin 0; SleepMs 100; ResetPin 1; SleepMs 100;
           Transfer REG_VERSION 0x00 0x12]
    (configure (fresh Sim.power_on params)).
Proof.
  unfold construct, __init__.
  match goal with
  | |- bind reset_module ?k ?s = _ =>
      assert (E0 : reset_module s =
                   {| res := Ok tt; post := fresh Sim.power_on params;
                      log := [ResetPin 0; SleepMs 100; ResetPin 1;
                              SleepMs 100] |}) by reflexivity;
      unfold bind at 1; rewrite E0
  end.
  rewrite bind_setattr.
  change (with_implicit_header_mode (fresh Sim.power_on params) None)
    with (fresh Sim.power_on params).
  assert (E1 : poll_version 5 None (fresh Sim.power_on params) =
               {| res := Ok (Some 0x12); post := fresh Sim.power_on params;
                  log := [Transfer REG_VERSION 0x00 0x12] |})
    by reflexivity.
  unfold bind at 1. rewrite E1.
  cbn [check_version]. change (0x12 =? 0x12) with true. cbv iota.
  rewrite bind_ret.
  unfold prepend. cbn [res post log app]. reflexivity.
Qed.

Lemma sim_construct_outcome params :
  res (construct (dev := sx127x) Sim.power_on true params)
  = construction_result params.
Proof.
  rewrite sim_construct. unfold prepend. cbn [res].
  apply configure_outcome.
Qed.



